(** * Feed and relationship consistency of the social-media backend

    A shallow embedding of the controllers of the repository (friend
    requests, posts and comments, feeds, users) over an explicit model of
    the document store, and the properties of the specification proved or
    refuted on it.

    Conventions of the embedding.
    - An [ObjectId] is an opaque, already well-formed identifier; casting a
      malformed string to an identifier is outside the model. The
      identifier of the token ([req.userId]) and the route parameters are
      identifiers; the one place where the source compares a client's
      string as a string, the receiver of a friend request, keeps the
      spelling ([IdText]).
    - Text is a [JSString], the UTF-16 code units of the runtime's string;
      messages and keys, which the source writes in ASCII, are [string]s.
    - A collection is the list of its documents in insertion order (the
      store's natural order); arrays inside documents ([friends], [likedBy],
      [posts], [comments]) are lists, as in the source, so order and
      duplicates are visible.
    - A handler runs a sequence of store calls inside [try { ... } catch];
      both [return next(err)] and a thrown exception end the handler with
      [next(err)], and the writes made before that point stay.
    - [updatedAt], which the driver refreshes on every write and no handler
      reads, is left out of the documents. *)

From Stdlib Require Import List ZArith Lia Bool String Arith Permutation Sorted.
Import ListNotations.

Set Implicit Arguments.

Open Scope string_scope.
Open Scope nat_scope.

Definition ObjectId := nat.

(** A string of the runtime: its UTF-16 code units, which is what [length],
    [minLength], [maxLength] and [trim] work on. *)
Definition JSString := list N.

(** The string that a literal written in ASCII denotes. *)
Definition js (s : string) : JSString :=
  map Ascii.N_of_ascii (list_ascii_of_string s).

(** ** Documents *)

(** src/models/user.model.js (in the sources at the end of
    src/models/post.model.js) *)
Module User.
Record t := mk {
  _id : ObjectId;
  username : JSString;
  email : JSString;
  password : JSString;
  name : JSString;
  bio : option JSString;
  posts : list ObjectId;
  friends : list ObjectId;
  avatar : JSString
}.

Definition set_friends (f : list ObjectId -> list ObjectId) (u : t) : t :=
  mk (_id u) (username u) (email u) (password u) (name u) (bio u)
     (posts u) (f (friends u)) (avatar u).

Definition set_posts (f : list ObjectId -> list ObjectId) (u : t) : t :=
  mk (_id u) (username u) (email u) (password u) (name u) (bio u)
     (f (posts u)) (friends u) (avatar u).
End User.

(** src/models/post.model.js *)
Module Post.
Record t := mk {
  _id : ObjectId;
  title : JSString;
  content : JSString;
  author : ObjectId;
  likedBy : list ObjectId;
  comments : list ObjectId;
  createdAt : Z
}.

Definition set_likedBy (f : list ObjectId -> list ObjectId) (p : t) : t :=
  mk (_id p) (title p) (content p) (author p) (f (likedBy p)) (comments p)
     (createdAt p).

Definition set_comments (f : list ObjectId -> list ObjectId) (p : t) : t :=
  mk (_id p) (title p) (content p) (author p) (likedBy p) (f (comments p))
     (createdAt p).
End Post.

(** src/models/comment.model.js (in the sources at the end of
    src/docs/swagger.js) *)
Module Comment.
Record t := mk {
  _id : ObjectId;
  content : JSString;
  author : ObjectId;
  post : ObjectId;
  likedBy : list ObjectId;
  createdAt : Z
}.

Definition set_likedBy (f : list ObjectId -> list ObjectId) (c : t) : t :=
  mk (_id c) (content c) (author c) (post c) (f (likedBy c)) (createdAt c).
End Comment.

Inductive Status := pending | accepted | rejected.

(** Modelled from the spec: the schema file models/friendRequest.model.js is
    not part of the sources. Section 3 of the specification gives a
    FriendRequest an identifier, a sender, a receiver, a status among
    pending, accepted and rejected, and timestamps; section 4.1 makes
    [pending] the status of a newly created request. *)
Module FriendRequest.
Record t := mk {
  _id : ObjectId;
  sender : ObjectId;
  receiver : ObjectId;
  status : Status;
  createdAt : Z
}.

Definition set_status (s : Status) (r : t) : t :=
  mk (_id r) (sender r) (receiver r) s (createdAt r).

(** [FriendRequest.create({ sender, receiver })]: the status is the
    schema's default. *)
Definition create (i sender receiver : ObjectId) (now : Z) : t :=
  mk i sender receiver pending now.
End FriendRequest.

(** ** Array operators of the driver *)

(** [arr.includes(x)] *)
Definition includes (x : ObjectId) (arr : list ObjectId) : bool :=
  existsb (Nat.eqb x) arr.

(** [arr.push(x)] *)
Definition push (x : ObjectId) (arr : list ObjectId) : list ObjectId :=
  arr ++ [x].

(** [arr.pull(x)] and [$pull]: every occurrence goes. *)
Definition pull (x : ObjectId) (arr : list ObjectId) : list ObjectId :=
  filter (fun y => negb (y =? x)) arr.

(** [$addToSet] *)
Definition addToSet (x : ObjectId) (arr : list ObjectId) : list ObjectId :=
  if includes x arr then arr else arr ++ [x].

(** [{ field: { $in: values } }] on a scalar field, and its negation. *)
Definition op_in (x : ObjectId) (values : list ObjectId) : bool :=
  includes x values.

Definition op_nin (x : ObjectId) (values : list ObjectId) : bool :=
  negb (includes x values).

(** [{ field: { $in: values } }] on an array field: some element of the
    array is one of the values. *)
Definition op_in_array (arr values : list ObjectId) : bool :=
  existsb (fun x => includes x values) arr.

(** ** The store *)

Record Store := mkStore {
  users : list User.t;
  posts : list Post.t;
  comments : list Comment.t;
  friendrequests : list FriendRequest.t
}.

(** A mongoose model: where its documents live in the store and how a
    document is identified. *)
Record Model (D : Type) := mkModel {
  idOf : D -> ObjectId;
  docs : Store -> list D;
  setDocs : list D -> Store -> Store
}.

Definition UserM : Model User.t :=
  mkModel User._id users
    (fun l s => mkStore l (posts s) (comments s) (friendrequests s)).

Definition PostM : Model Post.t :=
  mkModel Post._id posts
    (fun l s => mkStore (users s) l (comments s) (friendrequests s)).

Definition CommentM : Model Comment.t :=
  mkModel Comment._id comments
    (fun l s => mkStore (users s) (posts s) l (friendrequests s)).

Definition FriendRequestM : Model FriendRequest.t :=
  mkModel FriendRequest._id friendrequests
    (fun l s => mkStore (users s) (posts s) (comments s) l).

(** ** Errors and the handler monad *)

(** What a handler can pass to [next]. [AppError] is the class of
    util/AppError.js, which is not part of the sources; its two fields are
    those of the calls [new AppError(message, statusCode)] and the ones the
    error middleware reads. The other constructors are the errors the
    runtime, the schema validators and the store raise. *)
Inductive Error :=
| AppError (message : string) (statusCode : Z)
| ReferenceError (message : string)
| TypeError (message : string)
| ValidationError (paths : list string)
| MongoServerError (message : string).

Inductive Result (A : Type) :=
| Done (a : A)
| Threw (e : Error).

Arguments Done {A} a.
Arguments Threw {A} e.

(** A piece of handler code: it reads and writes the store and either
    yields a value or stops with an error; the store reached so far is kept
    in both cases. *)
Definition Action (A : Type) := Store -> Store * Result A.

Definition ret {A} (a : A) : Action A := fun s => (s, Done a).

Definition raise {A} (e : Error) : Action A := fun s => (s, Threw e).

Definition bind {A B} (m : Action A) (k : A -> Action B) : Action B :=
  fun s =>
    match m s with
    | (s', Done a) => k a s'
    | (s', Threw e) => (s', Threw e)
    end.

Declare Scope action_scope.
Delimit Scope action_scope with action.
Notation "x <- m ;; k" := (bind m (fun x => k))
  (at level 61, m at next level, right associativity) : action_scope.
Notation "m ;;; k" := (bind m (fun _ => k))
  (at level 61, right associativity) : action_scope.
Open Scope action_scope.

(** What reaches the client: [res.status(code).json(body)] or [next(err)]. *)
Inductive Outcome (B : Type) :=
| Json (code : Z) (body : B)
| Next (err : Error).

Arguments Json {B} code body.
Arguments Next {B} err.

Definition Handler (B : Type) := Store -> Store * Outcome B.

Definition json {B} (code : Z) (body : B) : Action (Z * B) := ret (code, body).

(** [try { body } catch (error) { next(error) }] *)
Definition handle {B} (body : Action (Z * B)) : Handler B :=
  fun s =>
    match body s with
    | (s', Done (code, b)) => (s', Json code b)
    | (s', Threw e) => (s', Next e)
    end.

(** ** Store calls *)

Section Queries.
Variable D : Type.
Variable M : Model D.

Definition hasId (i : ObjectId) (d : D) : bool := idOf M d =? i.

Fixpoint updateOne (i : ObjectId) (f : D -> D) (l : list D) : list D :=
  match l with
  | [] => []
  | d :: r => if hasId i d then f d :: r else d :: updateOne i f r
  end.

Fixpoint removeOne (i : ObjectId) (l : list D) : list D :=
  match l with
  | [] => []
  | d :: r => if hasId i d then r else d :: removeOne i r
  end.

(** [Model.findById(id)] *)
Definition findById (i : ObjectId) : Action (option D) :=
  fun s => (s, Done (find (hasId i) (docs M s))).

(** [Model.findByIdAndUpdate(id, update, { new: true })]: the document
    after the update, or null. *)
Definition findByIdAndUpdateNew (i : ObjectId) (f : D -> D)
  : Action (option D) :=
  fun s =>
    (setDocs M (updateOne i f (docs M s)) s,
     Done (option_map f (find (hasId i) (docs M s)))).

(** [Model.findByIdAndUpdate(id, update)]: the document before the
    update, or null. *)
Definition findByIdAndUpdate (i : ObjectId) (f : D -> D)
  : Action (option D) :=
  fun s =>
    (setDocs M (updateOne i f (docs M s)) s,
     Done (find (hasId i) (docs M s))).

(** [Model.findByIdAndDelete(id)] and [doc.deleteOne()] *)
Definition findByIdAndDelete (i : ObjectId) : Action (option D) :=
  fun s =>
    (setDocs M (removeOne i (docs M s)) s,
     Done (find (hasId i) (docs M s))).

(** [Model.create(doc)] *)
Definition create (d : D) : Action D :=
  fun s => (setDocs M (docs M s ++ [d]) s, Done d).

(** [Model.deleteMany(query)] *)
Definition deleteMany (q : D -> bool) : Action unit :=
  fun s => (setDocs M (filter (fun d => negb (q d)) (docs M s)) s, Done tt).

(** [Model.updateMany({}, update)] *)
Definition updateMany (f : D -> D) : Action unit :=
  fun s => (setDocs M (map f (docs M s)) s, Done tt).

End Queries.

(** ** Response bodies *)

(** [{ success, data, <text fields> }]; the text fields are kept with their
    keys as the source spells them. *)
Record Envelope (A : Type) := mkEnvelope {
  success : bool;
  data : A;
  texts : list (string * string)
}.

(** [{ success, data, count, page, totalPages }] *)
Record Paginated (A : Type) := mkPaginated {
  pg_success : bool;
  pg_data : list A;
  pg_count : Z;
  pg_page : Z;
  pg_totalPages : Z
}.

(** ** src/controllers/friend.controller.js *)

(** An identifier as the client writes it in a request body: a string that
    casts to [castId]. [isCanonical] tells whether the string is the very
    one [toString()] prints for that identifier, 24 hexadecimal digits in
    lower case; [===] and [includes] compare the string, so only such a
    spelling is ever found equal to an identifier of the store or of the
    token. *)
Record IdText := mkIdText {
  castId : ObjectId;
  isCanonical : bool
}.

Definition canonical (i : ObjectId) : IdText := mkIdText i true.

(** Another spelling of the same identifier, such as its digits in upper
    case. *)
Definition respelled (i : ObjectId) : IdText := mkIdText i false.

(** [receiver] is [req.body.receiver]; [None] stands for a missing or empty
    value. [newId] and [now] are the identifier and the time stamp the
    driver gives the created document. *)
Definition sendFriendRequest (userId : ObjectId) (receiver : option IdText)
    (newId : ObjectId) (now : Z) : Handler (Envelope FriendRequest.t) :=
  handle (
    match receiver with
    | None => raise (AppError "Reciever not found" 404)
    | Some receiver =>
        if isCanonical receiver && (castId receiver =? userId) then
          raise (AppError "You cannot send a friend request to yourself" 400)
        else
          user <- findById UserM userId ;;
          match user with
          | None =>
              raise (TypeError "Cannot read properties of null (reading 'friends')")
          | Some user =>
              if isCanonical receiver
                 && includes (castId receiver) (User.friends user) then
                raise (AppError "You are already friends" 400)
              else
                friendRequest <-
                  create FriendRequestM
                    (FriendRequest.create newId (User._id user)
                       (castId receiver) now) ;;
                json 201 (mkEnvelope true friendRequest
                            [("mesage", "Friend request sent")])
          end
    end).

Definition acceptFriendRequest (id : ObjectId)
    : Handler (Envelope FriendRequest.t) :=
  handle (
    friendRequest <-
      findByIdAndUpdateNew FriendRequestM id (FriendRequest.set_status accepted) ;;
    match friendRequest with
    | None => raise (AppError "Friend request not found" 404)
    | Some friendRequest =>
        findByIdAndUpdate UserM (FriendRequest.sender friendRequest)
          (User.set_friends (addToSet (FriendRequest.receiver friendRequest))) ;;;
        findByIdAndUpdate UserM (FriendRequest.receiver friendRequest)
          (User.set_friends (addToSet (FriendRequest.sender friendRequest))) ;;;
        json 200 (mkEnvelope true friendRequest
                    [("message", "Accepted friend request")])
    end).

Definition rejectFriendRequest (id : ObjectId)
    : Handler (Envelope FriendRequest.t) :=
  handle (
    friendRequest <-
      findByIdAndUpdateNew FriendRequestM id (FriendRequest.set_status rejected) ;;
    match friendRequest with
    | None => raise (AppError "Friend request not found" 404)
    | Some friendRequest =>
        json 200 (mkEnvelope true friendRequest
                    [("message", "Rejected friend request")])
    end).

(** ** Schema setters and validators *)

(** [WhiteSpace] and [LineTerminator] of ECMAScript, the code units that
    [String.prototype.trim] strips: TAB, LF, VT, FF, CR, SP, NBSP, U+1680,
    U+2000 to U+200A, LS, PS, U+202F, U+205F, U+3000 and U+FEFF. *)
Definition isSpace (c : N) : bool :=
  existsb (N.eqb c)
    [9; 10; 11; 12; 13; 32; 160; 5760; 8232; 8233; 8239; 8287; 12288; 65279]%N
  || ((8192 <=? c) && (c <=? 8202))%N.

Fixpoint trimStart (s : JSString) : JSString :=
  match s with
  | [] => []
  | c :: r => if isSpace c then trimStart r else s
  end.

Fixpoint trimEnd (s : JSString) : JSString :=
  match s with
  | [] => []
  | c :: r =>
      match trimEnd r with
      | [] => if isSpace c then [] else [c]
      | r' => c :: r'
      end
  end.

(** [trim: true], that is [String.prototype.trim] *)
Definition trim (s : JSString) : JSString := trimEnd (trimStart s).

(** [minLength] and [maxLength]: bounds on [value.length], the number of
    code units. *)
Definition lengthBetween (lo hi : nat) (s : JSString) : bool :=
  (lo <=? List.length s) && (List.length s <=? hi).

(** The paths among [checks] whose value fails its validator, after the
    [trim] setter; a missing value fails when the path is required. The
    result stands for the set of failing paths: the handlers list their
    checks in alphabetical order, and the order in which the error
    middleware lists the paths in [fields] is not modelled. *)
Definition failingPaths (required : bool)
    (checks : list (string * option JSString * nat * nat)) : list string :=
  flat_map
    (fun '(path, v, lo, hi) =>
       match v with
       | None => if required then [path] else []
       | Some s => if lengthBetween lo hi (trim s) then [] else [path]
       end)
    checks.

Definition validate (required : bool)
    (checks : list (string * option JSString * nat * nat)) : Action unit :=
  match failingPaths required checks with
  | [] => ret tt
  | paths => raise (ValidationError paths)
  end.

(** The validators of src/models/post.model.js and of the comment schema on
    the paths of a stored document, each with the value as it is stored
    (the setters ran when it was written). The paths are listed in
    alphabetical order; as for [failingPaths], the order in which the
    error lists them is not modelled. *)
Definition postSchema (p : Post.t) : list (string * JSString * nat * nat) :=
  [("content", Post.content p, 3, 2000); ("title", Post.title p, 3, 120)].

Definition commentSchema (c : Comment.t)
    : list (string * JSString * nat * nat) :=
  [("content", Comment.content c, 3, 2000)].

(** The paths of a whole document that fail its schema. [required] fails on
    the empty string, which the lower bounds already exclude. *)
Definition invalidPaths (checks : list (string * JSString * nat * nat))
    : list string :=
  flat_map
    (fun '(path, v, lo, hi) => if lengthBetween lo hi v then [] else [path])
    checks.

(** [doc.save()] of a document read from the store and modified in memory:
    the whole document is validated against its schema first, the paths
    the handler did not touch included, and nothing is written when one
    fails. *)
Definition save {D} (M : Model D)
    (schema : D -> list (string * JSString * nat * nat)) (d : D)
    : Action unit :=
  match invalidPaths (schema d) with
  | [] =>
      fun s => (setDocs M (updateOne M (idOf M d) (fun _ => d) (docs M s)) s,
                Done tt)
  | paths => raise (ValidationError paths)
  end.

(** ** src/controllers/post.controller.js (unnamed/part_000) *)

(** [parseInt(req.query.x, 10) || dflt]; [None] is a missing or non-numeric
    query value. *)
Definition parseIntOr (q : option Z) (dflt : Z) : Z :=
  match q with
  | None => dflt
  | Some n => if (n =? 0)%Z then dflt else n
  end.

(** [Math.ceil(count / limit)], for a non-zero [limit]. *)
Definition Math_ceil_div (count limit : Z) : Z := (- ((- count) / limit))%Z.

(** Stable insertion by decreasing key: a document goes in front of the
    first one whose key is not larger. *)
Fixpoint insertDesc {D} (key : D -> Z) (x : D) (l : list D) : list D :=
  match l with
  | [] => [x]
  | y :: r =>
      if (key y <=? key x)%Z then x :: y :: r else y :: insertDesc key x r
  end.

(** [.sort({ createdAt: -1 })] and [$sort]. Documents with equal keys keep
    the order of the input: section 4.4 of the specification breaks ties by
    the store-native stable order. *)
Definition sortDesc {D} (key : D -> Z) (l : list D) : list D :=
  fold_right (insertDesc key) [] l.

(** [.skip(skip).limit(limit)] on non-negative arguments. *)
Definition window {D} (skip limit : Z) (l : list D) : list D :=
  firstn (Z.to_nat limit) (skipn (Z.to_nat skip) l).

Section Cursor.
Variable D : Type.
Variable M : Model D.

(** [Model.find(query).sort({ createdAt: -1 }).skip(skip).limit(limit)].
    The store refuses a negative skip; the driver reads a negative limit
    as its absolute value. *)
Definition findSorted (q : D -> bool) (key : D -> Z) (skip limit : Z)
  : Action (list D) :=
  fun s =>
    if (skip <? 0)%Z then
      (s, Threw (MongoServerError "Skip value must be non-negative"))
    else
      (s, Done (window skip (Z.abs limit) (sortDesc key (filter q (docs M s))))).

(** [Model.countDocuments(query)] *)
Definition countDocuments (q : D -> bool) : Action Z :=
  fun s => (s, Done (Z.of_nat (List.length (filter q (docs M s))))).
End Cursor.

Record PostBody := mkPostBody {
  body_title : option JSString;
  body_content : option JSString
}.

Definition getAllPosts (userId : ObjectId) (qpage qlimit : option Z)
    : Handler (Paginated Post.t) :=
  handle (
    let page := parseIntOr qpage 1 in
    let limit := parseIntOr qlimit 10 in
    let skip := ((page - 1) * limit)%Z in
    posts <- findSorted PostM (fun p => Post.author p =? userId)
               Post.createdAt skip limit ;;
    count <- countDocuments PostM (fun p => Post.author p =? userId) ;;
    json 200 (mkPaginated true posts count page (Math_ceil_div count limit))).

Definition createPost (userId : ObjectId) (body : PostBody)
    (newId : ObjectId) (now : Z) : Handler (Envelope Post.t) :=
  handle (
    validate true [("content", body_content body, 3, 2000);
                   ("title", body_title body, 3, 120)] ;;;
    post <- create PostM
              (Post.mk newId
                 (trim (match body_title body with Some s => s | None => [] end))
                 (trim (match body_content body with Some s => s | None => [] end))
                 userId [] [] now) ;;
    findByIdAndUpdate UserM userId (User.set_posts (addToSet (Post._id post))) ;;;
    json 201 (mkEnvelope true post [])).

(** [req.body] applied as an update: the fields present replace the stored
    ones. *)
Definition applyPostBody (body : PostBody) (p : Post.t) : Post.t :=
  Post.mk (Post._id p)
    (match body_title body with Some s => trim s | None => Post.title p end)
    (match body_content body with Some s => trim s | None => Post.content p end)
    (Post.author p) (Post.likedBy p) (Post.comments p) (Post.createdAt p).

Definition updatePost (userId id : ObjectId) (body : PostBody)
    : Handler (Envelope (option Post.t)) :=
  handle (
    post <- findById PostM id ;;
    match post with
    | None => raise (AppError "Post not found" 404)
    | Some post =>
        if negb (Post.author post =? userId) then
          raise (AppError "You are not authorized to update this post" 401)
        else
          validate false [("content", body_content body, 3, 2000);
                          ("title", body_title body, 3, 120)] ;;;
          updatedPost <- findByIdAndUpdateNew PostM id (applyPostBody body) ;;
          json 200 (mkEnvelope true updatedPost [])
    end).

Definition deletePost (userId id : ObjectId) : Handler (Envelope Post.t) :=
  handle (
    post <- findById PostM id ;;
    match post with
    | None => raise (AppError "Post not found" 404)
    | Some post =>
        if negb (Post.author post =? userId) then
          raise (AppError "You are not authorized to delete this post" 401)
        else
          findByIdAndDelete PostM (Post._id post) ;;;
          findByIdAndUpdate UserM userId (User.set_posts (pull (Post._id post))) ;;;
          deleteMany CommentM (fun c => Comment.post c =? Post._id post) ;;;
          json 200 (mkEnvelope true post [])
    end).

Definition toggleLikePost (userId id : ObjectId) : Handler (Envelope Post.t) :=
  handle (
    post <- findById PostM id ;;
    match post with
    | None => raise (AppError "Post not found" 404)
    | Some post =>
        let hasLiked := includes userId (Post.likedBy post) in
        let post :=
          if hasLiked then Post.set_likedBy (pull userId) post
          else Post.set_likedBy (push userId) post in
        save PostM postSchema post ;;;
        json 200 (mkEnvelope true post
                    [("message", if hasLiked then "Like removed" else "Like added")])
    end).

Definition createComment (userId id : ObjectId) (content : option JSString)
    (newId : ObjectId) (now : Z) : Handler (Envelope Comment.t) :=
  handle (
    validate true [("content", content, 3, 2000)] ;;;
    comment <- create CommentM
                 (Comment.mk newId
                    (trim (match content with Some s => s | None => [] end))
                    userId id [] now) ;;
    findByIdAndUpdate PostM id
      (Post.set_comments (addToSet (Comment._id comment))) ;;;
    json 201 (mkEnvelope true comment [])).

Definition deleteComment (userId id commentId : ObjectId)
    : Handler (Envelope Comment.t) :=
  handle (
    post <- findById PostM id ;;
    comment <- findById CommentM commentId ;;
    match comment, post with
    | Some comment, Some _ =>
        if negb (Comment.author comment =? userId) then
          raise (AppError "You are not authorized to update this comment" 401)
        else
          findByIdAndUpdate PostM (Comment.post comment)
            (Post.set_comments (pull (Comment._id comment))) ;;;
          findByIdAndDelete CommentM commentId ;;;
          json 200 (mkEnvelope true comment [])
    | _, _ => raise (AppError "Comment not found" 404)
    end).

Definition applyCommentBody (content : option JSString) (c : Comment.t)
    : Comment.t :=
  Comment.mk (Comment._id c)
    (match content with Some s => trim s | None => Comment.content c end)
    (Comment.author c) (Comment.post c) (Comment.likedBy c)
    (Comment.createdAt c).

Definition updateComment (userId commentId : ObjectId)
    (content : option JSString) : Handler (Envelope (option Comment.t)) :=
  handle (
    comment <- findById CommentM commentId ;;
    match comment with
    | None => raise (AppError "Comment not found" 404)
    | Some comment =>
        if negb (Comment.author comment =? userId) then
          raise (AppError "You are not authorized to update this comment" 401)
        else
          validate false [("content", content, 3, 2000)] ;;;
          updatedComment <-
            findByIdAndUpdateNew CommentM commentId (applyCommentBody content) ;;
          json 200 (mkEnvelope true updatedComment [])
    end).

Definition toggleLikeComment (userId commentId : ObjectId)
    : Handler (Envelope Comment.t) :=
  handle (
    comment <- findById CommentM commentId ;;
    match comment with
    | None => raise (AppError "Comment not found" 404)
    | Some comment =>
        let hasLiked := includes userId (Comment.likedBy comment) in
        let comment :=
          if hasLiked then Comment.set_likedBy (pull userId) comment
          else Comment.set_likedBy (push userId) comment in
        save CommentM commentSchema comment ;;;
        json 200 (mkEnvelope true comment
                    [("message", if hasLiked then "Like removed" else "Like added")])
    end).

(** ** src/controllers/feed.controller.js (unnamed/part_004) *)

(** A user document with [password] projected out
    ([populate(..., "-password")], [$project: { "author.password": 0 }]). *)
Module PublicUser.
Record t := mk {
  _id : ObjectId;
  username : JSString;
  email : JSString;
  name : JSString;
  bio : option JSString;
  posts : list ObjectId;
  friends : list ObjectId;
  avatar : JSString
}.
End PublicUser.

Definition withoutPassword (u : User.t) : PublicUser.t :=
  PublicUser.mk (User._id u) (User.username u) (User.email u) (User.name u)
    (User.bio u) (User.posts u) (User.friends u) (User.avatar u).

(** A post whose [author] has been populated: the user document, or null
    when no user has that identifier. *)
Module FeedPost.
Record t := mk {
  _id : ObjectId;
  title : JSString;
  content : JSString;
  author : option PublicUser.t;
  likedBy : list ObjectId;
  comments : list ObjectId;
  createdAt : Z
}.
End FeedPost.

Definition populateAuthor (us : list User.t) (p : Post.t) : FeedPost.t :=
  FeedPost.mk (Post._id p) (Post.title p) (Post.content p)
    (option_map withoutPassword
       (find (fun u => User._id u =? Post.author p) us))
    (Post.likedBy p) (Post.comments p) (Post.createdAt p).

(** [.populate("author", "-password")] *)
Definition populate (ps : list Post.t) : Action (list FeedPost.t) :=
  fun s => (s, Done (map (populateAuthor (users s)) ps)).

(** The feed controller never imports [AppError]: evaluating
    [new AppError("User not found", 404)] throws this error, which the
    handler's [catch] hands to [next]. *)
Definition AppError_undefined : Error :=
  ReferenceError "AppError is not defined".

Definition getFeed (userId : ObjectId) (qpage qlimit : option Z)
    : Handler (Paginated FeedPost.t) :=
  handle (
    let page := parseIntOr qpage 1 in
    let limit := parseIntOr qlimit 10 in
    let skip := ((page - 1) * limit)%Z in
    user <- findById UserM userId ;;
    match user with
    | None => raise AppError_undefined
    | Some user =>
        posts <-
          (found <- findSorted PostM
                      (fun p => op_in (Post.author p) (User.friends user))
                      Post.createdAt skip limit ;;
           populate found) ;;
        count <- countDocuments PostM
                   (fun p => op_in (Post.author p) (User.friends user)) ;;
        json 200 (mkPaginated true posts count page (Math_ceil_div count limit))
    end).

(** The document that leaves the [$group] stage of the friend-comment
    pipeline. *)
Module Grouped.
Record t := mk {
  _id : ObjectId;
  title : JSString;
  content : JSString;
  author : ObjectId;
  createdAt : Z;
  comments : list Comment.t
}.

(** The accumulators on the first row of a group. *)
Definition first (p : Post.t) (c : Comment.t) : t :=
  mk (Post._id p) (Post.title p) (Post.content p) (Post.author p)
     (Post.createdAt p) [c].

(** [comments: { $push: "$comments" }] on a later row. *)
Definition push (c : Comment.t) (g : t) : t :=
  mk (_id g) (title g) (content g) (author g) (createdAt g)
     (comments g ++ [c]).
End Grouped.

(** The document the friend-comment feed returns. *)
Module CommentedPost.
Record t := mk {
  _id : ObjectId;
  title : JSString;
  content : JSString;
  author : PublicUser.t;
  createdAt : Z;
  comments : list Comment.t
}.
End CommentedPost.

(** [$lookup] from "comments" with [localField: "comments"] and
    [foreignField: "_id"]: the comment documents whose identifier is in the
    post's [comments] array, in the order of the comment collection. *)
Definition lookupComments (cs : list Comment.t) (p : Post.t)
    : Post.t * list Comment.t :=
  (p, filter (fun c => includes (Comment._id c) (Post.comments p)) cs).

(** [$unwind]: one row per element of the array; a document with an empty
    array yields no row. *)
Definition unwind {A B} (l : list (A * list B)) : list (A * B) :=
  flat_map (fun r => map (pair (fst r)) (snd r)) l.

Fixpoint pushGroup (p : Post.t) (c : Comment.t) (gs : list Grouped.t)
    : list Grouped.t :=
  match gs with
  | [] => [Grouped.first p c]
  | g :: r =>
      if Grouped._id g =? Post._id p then Grouped.push c g :: r
      else g :: pushGroup p c r
  end.

(** [$group] by [_id] with [$first] and [$push] accumulators; the groups
    come out in the order in which their first row came in. *)
Definition group (rows : list (Post.t * Comment.t)) : list Grouped.t :=
  fold_left (fun gs r => pushGroup (fst r) (snd r) gs) rows [].

(** [$group: { _id: "$_id" }] of the count pipeline. *)
Definition groupIds (rows : list (Post.t * Comment.t)) : list ObjectId :=
  fold_left (fun ids r => addToSet (Post._id (fst r)) ids) rows [].

(** [$count]: no document at all on an empty input. *)
Definition countStage {A} (l : list A) : list Z :=
  match l with
  | [] => []
  | _ => [Z.of_nat (List.length l)]
  end.

(** [$lookup] from "users" on [author]. *)
Definition lookupAuthor (us : list User.t) (g : Grouped.t)
    : Grouped.t * list User.t :=
  (g, filter (fun u => User._id u =? Grouped.author g) us).

(** [$project: { "author.password": 0 }] after the author has been
    unwound. *)
Definition project (r : Grouped.t * User.t) : CommentedPost.t :=
  CommentedPost.mk (Grouped._id (fst r)) (Grouped.title (fst r))
    (Grouped.content (fst r)) (withoutPassword (snd r))
    (Grouped.createdAt (fst r)) (Grouped.comments (fst r)).

(** The stages shared by the two pipelines: strangers' posts, joined with
    their comments, one row per comment, rows of friends' comments only. *)
Definition friendCommentRows (friends : list ObjectId) (s : Store)
    : list (Post.t * Comment.t) :=
  filter (fun r => op_in (Comment.author (snd r)) friends)
    (unwind
       (map (lookupComments (comments s))
          (filter (fun p => op_nin (Post.author p) friends) (posts s)))).

(** [Post.aggregate(pipeline)]; the store refuses a negative [$skip] and a
    [$limit] that is not positive. *)
Definition pipeline (user : User.t) (skip limit : Z)
    : Action (list CommentedPost.t) :=
  fun s =>
    if (skip <? 0)%Z then
      (s, Threw (MongoServerError "$skip must be non-negative"))
    else if (limit <=? 0)%Z then
      (s, Threw (MongoServerError "the limit must be positive"))
    else
      (s, Done
            (map project
               (unwind
                  (map (lookupAuthor (users s))
                     (window skip limit
                        (sortDesc Grouped.createdAt
                           (group (friendCommentRows (User.friends user) s)))))))).

(** [Post.aggregate(countPipeline)] *)
Definition countPipeline (user : User.t) : Action (list Z) :=
  fun s =>
    (s, Done (countStage (groupIds (friendCommentRows (User.friends user) s)))).

Definition getFriendCommentFeed (userId : ObjectId) (qpage qlimit : option Z)
    : Handler (Paginated CommentedPost.t) :=
  handle (
    let page := parseIntOr qpage 1 in
    let limit := parseIntOr qlimit 10 in
    let skip := ((page - 1) * limit)%Z in
    user <- findById UserM userId ;;
    match user with
    | None => raise AppError_undefined
    | Some user =>
        posts <- pipeline user skip limit ;;
        countResult <- countPipeline user ;;
        let count := match countResult with c :: _ => c | [] => 0%Z end in
        json 200 (mkPaginated true posts count page (Math_ceil_div count limit))
    end).

(** The query of the friend-liked feed. *)
Definition friendLikedQuery (user : User.t) (p : Post.t) : bool :=
  op_in_array (Post.likedBy p) (User.friends user)
  && op_nin (Post.author p) (User.friends user).

Definition getFriendLikedPosts (userId : ObjectId) (qpage qlimit : option Z)
    : Handler (Paginated FeedPost.t) :=
  handle (
    let page := parseIntOr qpage 1 in
    let limit := parseIntOr qlimit 10 in
    let skip := ((page - 1) * limit)%Z in
    user <- findById UserM userId ;;
    match user with
    | None => raise AppError_undefined
    | Some user =>
        let query := friendLikedQuery user in
        posts <-
          (found <- findSorted PostM query Post.createdAt skip limit ;;
           populate found) ;;
        count <- countDocuments PostM query ;;
        json 200 (mkPaginated true posts count page (Math_ceil_div count limit))
    end).

(** ** src/controllers/user.controller.js (unnamed/part_005) *)

Definition deleteUser (userId id : ObjectId) : Handler (Envelope unit) :=
  handle (
    user <- findById UserM id ;;
    match user with
    | None => raise (AppError "User not found" 404)
    | Some user =>
        if negb (User._id user =? userId) then
          raise (AppError "You are not authorized to delete this user" 403)
        else
          deletedUser <- findByIdAndDelete UserM id ;;
          match deletedUser with
          | None => raise (AppError "User not found" 404)
          | Some _ =>
              deleteMany PostM (fun p => Post.author p =? User._id user) ;;;
              updateMany PostM (Post.set_likedBy (pull (User._id user))) ;;;
              updateMany UserM (User.set_friends (pull (User._id user))) ;;;
              deleteMany FriendRequestM
                (fun r => (FriendRequest.sender r =? User._id user)
                          || (FriendRequest.receiver r =? User._id user)) ;;;
              deleteMany CommentM (fun c => Comment.author c =? User._id user) ;;;
              json 200 (mkEnvelope true tt
                          [("message", "User deleted successfully")])
          end
    end).

Definition unfriend (userId id : ObjectId) : Handler (Envelope User.t) :=
  handle (
    user <- findByIdAndUpdateNew UserM userId (User.set_friends (pull id)) ;;
    match user with
    | None => raise (AppError "User not found" 404)
    | Some user =>
        findByIdAndUpdate UserM id (User.set_friends (pull (User._id user))) ;;;
        json 200 (mkEnvelope true user [("message", "Unfriended successfully")])
    end).

(** ** The read handlers and [updateUser] *)

(** [Model.find(query)] *)
Definition findMany {D} (M : Model D) (q : D -> bool) : Action (list D) :=
  fun s => (s, Done (filter q (docs M s))).

(** [.populate(path, "-password")] on an array of user identifiers: the
    documents found, in the order of the array; an identifier without a
    user record yields nothing. *)
Definition populateUsers (us : list User.t) (ids : list ObjectId)
    : list PublicUser.t :=
  flat_map
    (fun i =>
       match find (fun u => User._id u =? i) us with
       | Some u => [withoutPassword u]
       | None => []
       end)
    ids.

(** [.populate("posts")] on an array of post identifiers. *)
Definition populatePosts (ps : list Post.t) (ids : list ObjectId)
    : list Post.t :=
  flat_map
    (fun i =>
       match find (fun p => Post._id p =? i) ps with
       | Some p => [p]
       | None => []
       end)
    ids.

Definition Status_eqb (a b : Status) : bool :=
  match a, b with
  | pending, pending | accepted, accepted | rejected, rejected => true
  | _, _ => false
  end.

(** A friend request whose [sender] has been populated. *)
Module ReceivedRequest.
Record t := mk {
  _id : ObjectId;
  sender : option PublicUser.t;
  receiver : ObjectId;
  status : Status;
  createdAt : Z
}.
End ReceivedRequest.

Definition populateSender (us : list User.t) (r : FriendRequest.t)
    : ReceivedRequest.t :=
  ReceivedRequest.mk (FriendRequest._id r)
    (option_map withoutPassword
       (find (fun u => User._id u =? FriendRequest.sender r) us))
    (FriendRequest.receiver r) (FriendRequest.status r)
    (FriendRequest.createdAt r).

(** src/controllers/friend.controller.js *)
Definition getFriendRequests (userId : ObjectId)
    : Handler (Envelope (list ReceivedRequest.t)) :=
  handle (
    friendRequests <-
      (found <- findMany FriendRequestM
                  (fun r => (FriendRequest.receiver r =? userId)
                            && Status_eqb (FriendRequest.status r) pending) ;;
       fun s => (s, Done (map (populateSender (users s)) found))) ;;
    json 200 (mkEnvelope true friendRequests [])).

(** A post whose [author] and [likedBy] have been populated. *)
Module PostView.
Record t := mk {
  _id : ObjectId;
  title : JSString;
  content : JSString;
  author : option PublicUser.t;
  likedBy : list PublicUser.t;
  comments : list ObjectId;
  createdAt : Z
}.
End PostView.

Definition viewPost (us : list User.t) (p : Post.t) : PostView.t :=
  PostView.mk (Post._id p) (Post.title p) (Post.content p)
    (option_map withoutPassword
       (find (fun u => User._id u =? Post.author p) us))
    (populateUsers us (Post.likedBy p)) (Post.comments p) (Post.createdAt p).

(** src/controllers/post.controller.js *)
Definition getPost (id : ObjectId) : Handler (Envelope PostView.t) :=
  handle (
    post <- (found <- findById PostM id ;;
             fun s => (s, Done (option_map (viewPost (users s)) found))) ;;
    match post with
    | None => raise (AppError "Post not found" 404)
    | Some post => json 200 (mkEnvelope true post [])
    end).

(** A comment whose [author] and [likedBy] have been populated. *)
Module CommentView.
Record t := mk {
  _id : ObjectId;
  content : JSString;
  author : option PublicUser.t;
  post : ObjectId;
  likedBy : list PublicUser.t;
  createdAt : Z
}.
End CommentView.

Definition viewComment (us : list User.t) (c : Comment.t) : CommentView.t :=
  CommentView.mk (Comment._id c) (Comment.content c)
    (option_map withoutPassword
       (find (fun u => User._id u =? Comment.author c) us))
    (Comment.post c) (populateUsers us (Comment.likedBy c))
    (Comment.createdAt c).

(** [!value] on an array: an array, even an empty one, is truthy. *)
Definition notArray {A} (value : list A) : bool := false.

Definition getPostComments (id : ObjectId)
    : Handler (Envelope (list CommentView.t)) :=
  handle (
    comments <-
      (found <- findMany CommentM (fun c => Comment.post c =? id) ;;
       fun s => (s, Done (map (viewComment (users s)) found))) ;;
    if notArray comments then raise (AppError "Post not found" 404)
    else json 200 (mkEnvelope true comments [])).

(** A user without the password and with [posts] populated. *)
Module UserView.
Record t := mk {
  _id : ObjectId;
  username : JSString;
  email : JSString;
  name : JSString;
  bio : option JSString;
  posts : list Post.t;
  friends : list ObjectId;
  avatar : JSString
}.
End UserView.

Definition viewUser (ps : list Post.t) (u : User.t) : UserView.t :=
  UserView.mk (User._id u) (User.username u) (User.email u) (User.name u)
    (User.bio u) (populatePosts ps (User.posts u)) (User.friends u)
    (User.avatar u).

(** src/controllers/user.controller.js *)
Definition getUser (id : ObjectId) : Handler (Envelope UserView.t) :=
  handle (
    user <- (found <- findById UserM id ;;
             fun s => (s, Done (option_map (viewUser (posts s)) found))) ;;
    match user with
    | None => raise (AppError "User not found" 404)
    | Some user => json 200 (mkEnvelope true user [])
    end).

(** The fields of [req.body] that the route of [updateUser] validates. *)
Record UserBody := mkUserBody {
  body_name : option JSString;
  body_bio : option JSString
}.

Definition applyUserBody (body : UserBody) (u : User.t) : User.t :=
  User.mk (User._id u) (User.username u) (User.email u) (User.password u)
    (match body_name body with Some n => trim n | None => User.name u end)
    (match body_bio body with Some b => Some (trim b) | None => User.bio u end)
    (User.posts u) (User.friends u) (User.avatar u).

Definition updateUser (userId id : ObjectId) (body : UserBody)
    : Handler (Envelope PublicUser.t) :=
  handle (
    user <- findById UserM id ;;
    match user with
    | None => raise (AppError "User not found" 404)
    | Some user =>
        if negb (User._id user =? userId) then
          raise (AppError "You are not authorized to update this user" 403)
        else
          validate false [("bio", body_bio body, 0, 200);
                          ("name", body_name body, 3, 120)] ;;;
          updatedUser <- findByIdAndUpdateNew UserM id (applyUserBody body) ;;
          match updatedUser with
          | None => raise (AppError "User not found" 404)
          | Some updatedUser =>
              json 200 (mkEnvelope true (withoutPassword updatedUser) [])
          end
    end).

Definition getFriends (userId : ObjectId)
    : Handler (Envelope (list PublicUser.t)) :=
  handle (
    user <- findById UserM userId ;;
    match user with
    | None => raise (AppError "User not found" 404)
    | Some user =>
        friends <- (fun s => (s, Done (populateUsers (users s) (User.friends user)))) ;;
        json 200 (mkEnvelope true friends [])
    end).

(** ** src/middlewares/errorHandler.js *)

(** The HTTP status the error-handling middleware answers with. *)
Definition ErrorHandler (err : Error) : Z :=
  match err with
  | ValidationError _ => 400
  | AppError _ statusCode => if (statusCode =? 0)%Z then 500 else statusCode
  | ReferenceError _ | TypeError _ | MongoServerError _ => 500
  end.

(** The failure kinds of section 7 of the specification, as the handlers
    raise them. *)
Definition NotFound (e : Error) : Prop := exists m, e = AppError m 404.

Definition Unauthorized (e : Error) : Prop := exists m, e = AppError m 401.

(** ** Observations used by the statements *)

(** The friends array of the user [u], empty when there is no such user. *)
Definition friendsOf (s : Store) (u : ObjectId) : list ObjectId :=
  match find (hasId UserM u) (users s) with
  | Some x => User.friends x
  | None => []
  end.

Definition userExists (s : Store) (u : ObjectId) : Prop :=
  exists x, find (hasId UserM u) (users s) = Some x.

Definition requestStatus (s : Store) (i : ObjectId) : option Status :=
  option_map FriendRequest.status (find (hasId FriendRequestM i) (friendrequests s)).

(** The [likedBy] array of a post or a comment, empty when it is missing. *)
Definition postLikedBy (s : Store) (i : ObjectId) : list ObjectId :=
  match find (hasId PostM i) (posts s) with
  | Some p => Post.likedBy p
  | None => []
  end.

Definition commentLikedBy (s : Store) (i : ObjectId) : list ObjectId :=
  match find (hasId CommentM i) (comments s) with
  | Some c => Comment.likedBy c
  | None => []
  end.

(** What one call of a like toggle by [u] makes of a [likedBy] array. *)
Definition toggled (u : ObjectId) (l : list ObjectId) : list ObjectId :=
  if includes u l then pull u l else push u l.

(** The text the response carries under the key [message]. *)
Definition messageOf {A} (o : Outcome (Envelope A)) : option string :=
  match o with
  | Json _ body =>
      option_map snd (find (fun kv => String.eqb (fst kv) "message") (texts body))
  | Next _ => None
  end.

(** The full ordered result of each feed for the requester [x], before
    [skip] and [limit]. *)
Definition feedQuery (x : User.t) (p : Post.t) : bool :=
  op_in (Post.author p) (User.friends x).

Definition directFeed (s : Store) (x : User.t) : list Post.t :=
  sortDesc Post.createdAt (filter (feedQuery x) (posts s)).

Definition friendLikedFeed (s : Store) (x : User.t) : list Post.t :=
  sortDesc Post.createdAt (filter (friendLikedQuery x) (posts s)).

Definition friendCommentFeed (s : Store) (x : User.t) : list Grouped.t :=
  sortDesc Grouped.createdAt (group (friendCommentRows (User.friends x) s)).

Definition ownPosts (s : Store) (u : ObjectId) : list Post.t :=
  sortDesc Post.createdAt (filter (fun p => Post.author p =? u) (posts s)).

(** The comments the store joins to a post: those listed in its [comments]
    array. *)
Definition commentsOf (s : Store) (p : Post.t) : list Comment.t :=
  snd (lookupComments (comments s) p).

(** A group as the friend-comment feed shows it: its author replaced by the
    user document without the password. *)
Definition showGroup (us : list User.t) (g : Grouped.t) (c : CommentedPost.t)
    : Prop :=
  exists u, find (fun u => User._id u =? Grouped.author g) us = Some u /\
            c = project (g, u).

Definition showPost (us : list User.t) (p : Post.t) (f : FeedPost.t) : Prop :=
  f = populateAuthor us p.

(** Decreasing creation time along a list. *)
Definition descending {D} (key : D -> Z) (l : list D) : Prop :=
  StronglySorted (fun a b => (key b <= key a)%Z) l.

(** [body] is page number [page], of size [limit], of the ordered result
    [full], each item shown through [show]. *)
Definition pageOf {A B} (show : A -> B -> Prop) (full : list A)
    (page limit : Z) (body : Paginated B) : Prop :=
  pg_success body = true /\
  pg_page body = page /\
  pg_count body = Z.of_nat (List.length full) /\
  ((pg_totalPages body - 1) * limit < pg_count body
   /\ pg_count body <= pg_totalPages body * limit)%Z /\
  Forall2 show
    (firstn (Z.to_nat limit) (skipn (Z.to_nat ((page - 1) * limit)) full))
    (pg_data body) /\
  ((pg_totalPages body < page)%Z -> pg_data body = []).

(** Identifiers are unique inside a collection: the store guarantees it
    for [_id]. *)
Definition uniqueIds (s : Store) : Prop :=
  NoDup (map User._id (users s)) /\ NoDup (map Post._id (posts s)).

(** The invariant section 3 of the specification gives for a post: its
    author references an existing user. *)
Definition authorsExist (s : Store) : Prop :=
  forall p, In p (posts s) -> userExists s (Post.author p).

(** The items of a paginated answer and the data of a plain one; nothing
    when the handler failed. *)
Definition pageItems {A} (o : Outcome (Paginated A)) : list A :=
  match o with
  | Json _ body => pg_data body
  | Next _ => []
  end.

Definition dataOf {A} (o : Outcome (Envelope A)) : option A :=
  match o with
  | Json _ body => Some (data body)
  | Next _ => None
  end.

(** The status the client sees: the one of [res.status], or the one the
    error middleware derives from the error. *)
Definition statusOf {B} (o : Outcome B) : Z :=
  match o with
  | Json code _ => code
  | Next err => ErrorHandler err
  end.

(** The friends relation read as a graph on identifiers. *)
Definition symmetricFriends (s : Store) : Prop :=
  forall a b, In a (friendsOf s b) <-> In b (friendsOf s a).

(** Arrays used as sets hold no identifier twice. *)
Definition tidyUser (u : User.t) : Prop :=
  NoDup (User.friends u) /\ NoDup (User.posts u).

Definition tidyPost (p : Post.t) : Prop :=
  NoDup (Post.likedBy p) /\ NoDup (Post.comments p).

Definition tidyComment (c : Comment.t) : Prop := NoDup (Comment.likedBy c).

Definition tidy (s : Store) : Prop :=
  Forall tidyUser (users s) /\ Forall tidyPost (posts s)
  /\ Forall tidyComment (comments s).

(** [a], started in a store that satisfies [P], ends in one that satisfies
    [P], and a value it yields satisfies [Q]. *)
Definition triple {A} (P : Store -> Prop) (a : Action A) (Q : A -> Prop)
    : Prop :=
  forall s, P s ->
    P (fst (a s)) /\ forall x, snd (a s) = Done x -> Q x.

(** Stored text satisfies the schema: the title and the content of every
    post and the content of every comment pass the validators as they are
    stored. *)
Definition validPost (p : Post.t) : Prop := invalidPaths (postSchema p) = [].

Definition validComment (c : Comment.t) : Prop :=
  invalidPaths (commentSchema c) = [].

Definition wellFormed (s : Store) : Prop :=
  Forall validPost (posts s) /\ Forall validComment (comments s).

(** A collection under a property [P] of the store that speaks of its
    documents one by one: they satisfy [ok] in every store that satisfies
    [P], and replacing them by documents that satisfy [ok] keeps [P]. *)
Class Collection (P : Store -> Prop) {D} (M : Model D) (ok : D -> Prop)
    : Prop := {
  collection_docs : forall s, P s -> Forall ok (docs M s);
  collection_setDocs :
    forall s l, P s -> Forall ok l -> P (setDocs M l s)
}.

(** The identifiers of the friend requests [getFriendRequests] lists for
    the user [u]. *)
Definition listedRequests (s : Store) (u : ObjectId) : list ObjectId :=
  match dataOf (snd (getFriendRequests u s)) with
  | Some items => map ReceivedRequest._id items
  | None => []
  end.

(** The schema validators on the body of a new post, and on the content of
    a new comment. *)
Definition validPostBody (body : PostBody) : bool :=
  match body_title body, body_content body with
  | Some t, Some c =>
      lengthBetween 3 120 (trim t) && lengthBetween 3 2000 (trim c)
  | _, _ => false
  end.

Definition validContent (content : option JSString) : bool :=
  match content with
  | Some c => lengthBetween 3 2000 (trim c)
  | None => false
  end.

(** The identifiers of the comments [getPostComments] lists for a post. *)
Definition listedComments (s : Store) (id : ObjectId) : list ObjectId :=
  match dataOf (snd (getPostComments id s)) with
  | Some items => map CommentView._id items
  | None => []
  end.

(** The page count a paginated answer announces; 0 when the handler
    failed. *)
Definition totalPagesOf {A} (o : Outcome (Paginated A)) : Z :=
  match o with
  | Json _ body => pg_totalPages body
  | Next _ => 0%Z
  end.

(** The items of pages 1 to [totalPages] of a paginated handler, one page
    after the other; [totalPages] is read off the first page. *)
Definition allPages {A} (h : option Z -> option Z -> Handler (Paginated A))
    (limit : Z) (s : Store) : list A :=
  flat_map
    (fun k => pageItems (snd (h (Some (Z.of_nat (S k))) (Some limit) s)))
    (seq 0 (Z.to_nat (totalPagesOf (snd (h (Some 1%Z) (Some limit) s))))).

(** ** Scenarios *)

Definition newUser (i : ObjectId) (uname : string) (fs : list ObjectId)
    : User.t :=
  User.mk i (js uname) (js (uname ++ "@example.org")) (js "$2b$12$hash")
    (js uname) None [] fs
    (js "https://www.gravatar.com/avatar/00000000000000000000000000000000?d=mp&f=y").

(** Two users who are not friends yet. *)
Definition twoStrangers : Store :=
  mkStore [newUser 1 "alice" []; newUser 2 "bob" []] [] [] [].

(** Alice asks Bob, and Bob declines. *)
Definition afterReject : Store :=
  fst (rejectFriendRequest 10
         (fst (sendFriendRequest 1 (Some (canonical 2)) 10 1000 twoStrangers))).

(** Alice asks Bob, and Bob accepts. *)
Definition afterAccept : Store :=
  fst (acceptFriendRequest 10
         (fst (sendFriendRequest 1 (Some (canonical 2)) 10 1000 twoStrangers))).

(** Alice alone, asking a user 2 who has no account. *)
Definition aliceAlone : Store := mkStore [newUser 1 "alice" []] [] [] [].

Definition requestToNobody : Store :=
  fst (sendFriendRequest 1 (Some (canonical 2)) 10 1000 aliceAlone).

(** Bob's post 20, liked by Alice, and Alice's comment 30 on it, liked by
    nobody. *)
Definition likedPost : Post.t :=
  Post.mk 20 (js "Hello") (js "First post") 2 [1] [30] 2000.

Definition plainComment : Comment.t :=
  Comment.mk 30 (js "Welcome") 1 20 [] 3000.

Definition withLikes : Store :=
  mkStore [newUser 1 "alice" [2]; newUser 2 "bob" [1]]
    [likedPost] [plainComment] [].

(** Alice and Bob are friends; Carol is a stranger to Alice. *)
Definition threeUsers : Store :=
  mkStore [newUser 1 "alice" [2]; newUser 2 "bob" [1]; newUser 3 "carol" []]
    [] [] [].

(** Bob writes post 20; Carol writes post 21, which Bob likes and comments
    on (31) and Carol comments on herself (32); then Carol writes
    post 22. *)
Definition town : Store :=
  fst (createPost 3 (mkPostBody (Some (js "Carol again")) (Some (js "Nobody reacts"))) 22 2600
  (fst (createComment 3 21 (Some (js "Thanks Bob")) 32 2520
  (fst (createComment 2 21 (Some (js "Nice one")) 31 2510
  (fst (toggleLikePost 2 21
  (fst (createPost 3 (mkPostBody (Some (js "Carol here")) (Some (js " A stranger "))) 21 2500
  (fst (createPost 2 (mkPostBody (Some (js "Bob here")) (Some (js "Hello all"))) 20 2000
          threeUsers))))))))))).

Definition alice : User.t := newUser 1 "alice" [2].

Definition bob : User.t := User.set_posts (fun _ => [20]) (newUser 2 "bob" [1]).

(** Carol deletes her account and, her token still being accepted, writes
    post 21, on which Bob comments. *)
Definition orphaned : Store :=
  fst (createComment 2 21 (Some (js "Nice one")) 31 2510
  (fst (createPost 3 (mkPostBody (Some (js "Carol here")) (Some (js "A stranger"))) 21 2500
  (fst (deleteUser 3 3 threeUsers))))).

Definition fourUsers : Store :=
  mkStore [newUser 1 "alice" [2]; newUser 2 "bob" [1]; newUser 3 "carol" [];
           newUser 4 "dave" []]
    [] [] [].

(** Dave, a stranger to Alice, writes post 23 and Bob comments on it. Carol
    deletes her account and then, her token still being accepted, writes
    post 24, on which Bob comments too. *)
Definition busy : Store :=
  fst (createComment 2 24 (Some (js "Me too")) 34 2810
  (fst (createPost 3 (mkPostBody (Some (js "Carol is back")) (Some (js "Still here"))) 24 2800
  (fst (deleteUser 3 3
  (fst (createComment 2 23 (Some (js "Nice one")) 33 2710
  (fst (createPost 4 (mkPostBody (Some (js "Dave here")) (Some (js "Hello all"))) 23 2700
          fourUsers))))))))).


(** The text ab between white space that is not ASCII: a no-break space
    and an em space before it, a byte-order mark and a paragraph separator
    after it. *)
Definition padded : JSString :=
  ([160%N; 8195%N] ++ js "ab" ++ [65279%N; 8233%N])%list.

(** * Properties *)

(** ** Facts about the store calls *)

Lemma store_eta (s : Store) :
  mkStore (users s) (posts s) (comments s) (friendrequests s) = s.
Proof. now destruct s. Qed.

Section QueryFacts.
Variable D : Type.
Variable M : Model D.

Lemma find_hasId i l d : find (hasId M i) l = Some d -> idOf M d = i.
Proof.
  intros H. apply find_some in H. destruct H as [_ H].
  unfold hasId in H. now apply Nat.eqb_eq in H.
Qed.

Lemma updateOne_absent i f l :
  find (hasId M i) l = None -> updateOne M i f l = l.
Proof.
  induction l as [|d r IH]; simpl; [reflexivity|].
  destruct (hasId M i d); [discriminate|].
  intros H. now rewrite IH.
Qed.

Section KeepsId.
Variable f : D -> D.
Hypothesis f_id : forall d, idOf M (f d) = idOf M d.

Lemma find_updateOne_same i l :
  find (hasId M i) (updateOne M i f l) = option_map f (find (hasId M i) l).
Proof.
  induction l as [|d r IH]; simpl; [reflexivity|].
  destruct (hasId M i d) eqn:E; simpl.
  - unfold hasId in *. now rewrite f_id, E.
  - now rewrite E.
Qed.

Lemma find_updateOne_other i j l :
  i <> j ->
  find (hasId M j) (updateOne M i f l) = find (hasId M j) l.
Proof.
  intros Hij. induction l as [|d r IH]; simpl; [reflexivity|].
  destruct (hasId M i d) eqn:E; simpl.
  - unfold hasId in *. rewrite f_id.
    apply Nat.eqb_eq in E. rewrite E.
    destruct (i =? j) eqn:E'; [apply Nat.eqb_eq in E'; contradiction|].
    reflexivity.
  - now rewrite IH.
Qed.

End KeepsId.
End QueryFacts.

(** ** Facts about the array operators *)

Lemma includes_In x l : includes x l = true <-> In x l.
Proof.
  unfold includes. rewrite existsb_exists. split.
  - intros [y [Hy E]]. apply Nat.eqb_eq in E. now subst.
  - intros H. exists x. split; [assumption|apply Nat.eqb_refl].
Qed.

Lemma includes_not_In x l : includes x l = false <-> ~ In x l.
Proof.
  rewrite <- includes_In. destruct (includes x l); split; congruence.
Qed.

Lemma In_addToSet x y l : In y (addToSet x l) <-> y = x \/ In y l.
Proof.
  unfold addToSet. destruct (includes x l) eqn:E.
  - apply includes_In in E. split; [now right|]. intros [->|H]; assumption.
  - rewrite in_app_iff. simpl. intuition.
Qed.

Lemma addToSet_present x l : In x l -> addToSet x l = l.
Proof.
  intros H. unfold addToSet. apply includes_In in H. now rewrite H.
Qed.

Lemma NoDup_addToSet x l : NoDup l -> NoDup (addToSet x l).
Proof.
  intros H. unfold addToSet. destruct (includes x l) eqn:E; [assumption|].
  apply includes_not_In in E.
  apply NoDup_rev in H. rewrite <- (rev_involutive (l ++ [x])).
  apply NoDup_rev. rewrite rev_app_distr. simpl. constructor.
  - now rewrite <- in_rev.
  - assumption.
Qed.

Lemma In_pull x y l : In y (pull x l) <-> In y l /\ y <> x.
Proof.
  unfold pull. rewrite filter_In. split; intros [H1 H2]; split; try assumption.
  - apply negb_true_iff in H2. now apply Nat.eqb_neq in H2.
  - apply negb_true_iff. now apply Nat.eqb_neq.
Qed.

Lemma pull_absent x l : ~ In x l -> pull x l = l.
Proof.
  intros H. unfold pull. induction l as [|y r IH]; simpl; [reflexivity|].
  destruct (y =? x) eqn:E; simpl.
  - apply Nat.eqb_eq in E. subst. exfalso. apply H. now left.
  - rewrite IH; [reflexivity|]. intros H'. apply H. now right.
Qed.

Lemma pull_push_absent x l : ~ In x l -> pull x (push x l) = l.
Proof.
  intros H. unfold pull, push. rewrite filter_app. simpl.
  rewrite Nat.eqb_refl. simpl. rewrite app_nil_r. now apply pull_absent.
Qed.

(** ** Friend requests *)

Ltac run_handler :=
  unfold handle, bind, ret, raise, json, findById, findByIdAndUpdate,
    findByIdAndUpdateNew, findByIdAndDelete, create, deleteMany, updateMany,
    save; simpl.

Lemma set_friends_id f u : User._id (User.set_friends f u) = User._id u.
Proof. reflexivity. Qed.

Lemma set_status_id st r :
  FriendRequest._id (FriendRequest.set_status st r) = FriendRequest._id r.
Proof. reflexivity. Qed.

Lemma acceptFriendRequest_found s id r :
  find (hasId FriendRequestM id) (friendrequests s) = Some r ->
  acceptFriendRequest id s =
    (mkStore
       (updateOne UserM (FriendRequest.receiver r)
          (User.set_friends (addToSet (FriendRequest.sender r)))
          (updateOne UserM (FriendRequest.sender r)
             (User.set_friends (addToSet (FriendRequest.receiver r)))
             (users s)))
       (posts s) (comments s)
       (updateOne FriendRequestM id (FriendRequest.set_status accepted)
          (friendrequests s)),
     Json 200 (mkEnvelope true (FriendRequest.set_status accepted r)
                 [("message", "Accepted friend request")])).
Proof.
  intros H. unfold acceptFriendRequest. run_handler. now rewrite H.
Qed.

Lemma acceptFriendRequest_missing s id :
  find (hasId FriendRequestM id) (friendrequests s) = None ->
  acceptFriendRequest id s =
    (s, Next (AppError "Friend request not found" 404)).
Proof.
  intros H. unfold acceptFriendRequest. run_handler. rewrite H. simpl.
  rewrite (updateOne_absent FriendRequestM _ _ _ H). now rewrite store_eta.
Qed.

Lemma rejectFriendRequest_found s id r :
  find (hasId FriendRequestM id) (friendrequests s) = Some r ->
  rejectFriendRequest id s =
    (mkStore (users s) (posts s) (comments s)
       (updateOne FriendRequestM id (FriendRequest.set_status rejected)
          (friendrequests s)),
     Json 200 (mkEnvelope true (FriendRequest.set_status rejected r)
                 [("message", "Rejected friend request")])).
Proof.
  intros H. unfold rejectFriendRequest. run_handler. now rewrite H.
Qed.

Lemma rejectFriendRequest_missing s id :
  find (hasId FriendRequestM id) (friendrequests s) = None ->
  rejectFriendRequest id s =
    (s, Next (AppError "Friend request not found" 404)).
Proof.
  intros H. unfold rejectFriendRequest. run_handler. rewrite H. simpl.
  rewrite (updateOne_absent FriendRequestM _ _ _ H). now rewrite store_eta.
Qed.

Lemma requestStatus_updated s id r st us :
  find (hasId FriendRequestM id) (friendrequests s) = Some r ->
  requestStatus
    (mkStore us (posts s) (comments s)
       (updateOne FriendRequestM id (FriendRequest.set_status st)
          (friendrequests s))) id = Some st.
Proof.
  intros H. unfold requestStatus. simpl.
  rewrite (find_updateOne_same FriendRequestM _ (set_status_id st)), H.
  reflexivity.
Qed.

(** The friends array of [u] after the two [$addToSet] updates of an
    acceptance between [a] and [b]. *)
Lemma friendsOf_after_accept us a b u :
  match find (hasId UserM u)
          (updateOne UserM b (User.set_friends (addToSet a))
             (updateOne UserM a (User.set_friends (addToSet b)) us)) with
  | Some x => User.friends x
  | None => []
  end =
  match find (hasId UserM u) us with
  | Some x =>
      (if b =? u then addToSet a else fun l => l)
        ((if a =? u then addToSet b else fun l => l) (User.friends x))
  | None => []
  end.
Proof.
  destruct (Nat.eqb_spec b u) as [Eb|Eb]; destruct (Nat.eqb_spec a u) as [Ea|Ea];
    subst.
  - rewrite !(find_updateOne_same UserM _ (set_friends_id _)).
    now destruct (find (hasId UserM u) us).
  - rewrite (find_updateOne_same UserM _ (set_friends_id _)).
    rewrite (find_updateOne_other UserM _ (set_friends_id _)) by assumption.
    now destruct (find (hasId UserM u) us).
  - rewrite (find_updateOne_other UserM _ (set_friends_id _)) by assumption.
    rewrite (find_updateOne_same UserM _ (set_friends_id _)).
    now destruct (find (hasId UserM u) us).
  - rewrite !(find_updateOne_other UserM _ (set_friends_id _)) by assumption.
    reflexivity.
Qed.

Lemma friendsOf_accept s id r u :
  find (hasId FriendRequestM id) (friendrequests s) = Some r ->
  friendsOf (fst (acceptFriendRequest id s)) u =
  match find (hasId UserM u) (users s) with
  | Some x =>
      (if FriendRequest.receiver r =? u
       then addToSet (FriendRequest.sender r) else fun l => l)
        ((if FriendRequest.sender r =? u
          then addToSet (FriendRequest.receiver r) else fun l => l)
           (User.friends x))
  | None => []
  end.
Proof.
  intros H. rewrite (acceptFriendRequest_found _ _ H). unfold friendsOf. simpl.
  apply friendsOf_after_accept.
Qed.

(** C1, as amended. Neither handler looks at the current status: on every
    existing friend request, whatever its status, [acceptFriendRequest]
    stores the status accepted and makes each existing party a friend of the
    other, and [rejectFriendRequest] stores the status rejected and leaves
    the users alone. A request keeps a terminal status only under the
    handler that writes that same status. *)
Theorem friend_request_status_overwritten s id r :
  find (hasId FriendRequestM id) (friendrequests s) = Some r ->
  requestStatus (fst (acceptFriendRequest id s)) id = Some accepted /\
  requestStatus (fst (rejectFriendRequest id s)) id = Some rejected /\
  users (fst (rejectFriendRequest id s)) = users s /\
  (userExists s (FriendRequest.sender r) ->
   In (FriendRequest.receiver r)
      (friendsOf (fst (acceptFriendRequest id s)) (FriendRequest.sender r))) /\
  (userExists s (FriendRequest.receiver r) ->
   In (FriendRequest.sender r)
      (friendsOf (fst (acceptFriendRequest id s)) (FriendRequest.receiver r))).
Proof.
  intros H. repeat split.
  - rewrite (acceptFriendRequest_found _ _ H). simpl.
    now apply requestStatus_updated with (r := r).
  - rewrite (rejectFriendRequest_found _ _ H). simpl.
    now apply requestStatus_updated with (r := r).
  - now rewrite (rejectFriendRequest_found _ _ H).
  - intros [x Hx]. rewrite (friendsOf_accept _ _ _ H), Hx, Nat.eqb_refl.
    destruct (FriendRequest.receiver r =? FriendRequest.sender r);
      cbv beta; rewrite !In_addToSet; auto.
  - intros [x Hx]. rewrite (friendsOf_accept _ _ _ H), Hx, Nat.eqb_refl.
    apply In_addToSet. now left.
Qed.

Lemma friend_request_status_overwritten_witness :
  find (hasId FriendRequestM 10) (friendrequests afterReject)
    = Some (FriendRequest.mk 10 1 2 rejected 1000) /\
  requestStatus (fst (acceptFriendRequest 10 afterReject)) 10 = Some accepted /\
  requestStatus (fst (rejectFriendRequest 10 afterReject)) 10 = Some rejected.
Proof.
  split; [reflexivity|].
  pose proof (@friend_request_status_overwritten afterReject 10
                (FriendRequest.mk 10 1 2 rejected 1000) eq_refl) as H.
  split; [exact (proj1 H)|exact (proj1 (proj2 H))].
Defined.

(** C1, refuted as stated. Alice's request to Bob was rejected, a terminal
    status; accepting it afterwards stores accepted and makes the two
    friends. Likewise an accepted request becomes rejected. *)
Lemma terminal_status_is_left :
  requestStatus afterReject 10 = Some rejected /\
  friendsOf afterReject 1 = [] /\
  friendsOf afterReject 2 = [] /\
  requestStatus (fst (acceptFriendRequest 10 afterReject)) 10 = Some accepted /\
  friendsOf (fst (acceptFriendRequest 10 afterReject)) 1 = [2] /\
  friendsOf (fst (acceptFriendRequest 10 afterReject)) 2 = [1] /\
  requestStatus afterAccept 10 = Some accepted /\
  requestStatus (fst (rejectFriendRequest 10 afterAccept)) 10 = Some rejected.
Proof. repeat split. Qed.

(** C2, as amended. For every existing friend request whose sender A and
    receiver B both reference existing users, [acceptFriendRequest] answers
    200 with the request in status accepted, stores that status, and adds B
    to A's friends and A to B's friends if absent: the arrays gain exactly
    that member, stay duplicate-free, and are untouched when it was already
    there (for A different from B each array becomes its [$addToSet]
    image); afterwards A is in B's friends and B is in A's friends, the
    other users are unchanged, and a friends relation that was symmetric
    over all pairs of users is symmetric still. When no request has the identifier the
    handler fails with the 404 error and changes nothing. *)
Theorem acceptFriendRequest_befriends s id r :
  find (hasId FriendRequestM id) (friendrequests s) = Some r ->
  userExists s (FriendRequest.sender r) ->
  userExists s (FriendRequest.receiver r) ->
  let A := FriendRequest.sender r in
  let B := FriendRequest.receiver r in
  let s' := fst (acceptFriendRequest id s) in
  snd (acceptFriendRequest id s)
    = Json 200 (mkEnvelope true (FriendRequest.set_status accepted r)
                  [("message", "Accepted friend request")]) /\
  requestStatus s' id = Some accepted /\
  (forall x, In x (friendsOf s' A) <-> x = B \/ In x (friendsOf s A)) /\
  (forall x, In x (friendsOf s' B) <-> x = A \/ In x (friendsOf s B)) /\
  (A <> B -> friendsOf s' A = addToSet B (friendsOf s A)
             /\ friendsOf s' B = addToSet A (friendsOf s B)) /\
  (NoDup (friendsOf s A) -> NoDup (friendsOf s' A)) /\
  (NoDup (friendsOf s B) -> NoDup (friendsOf s' B)) /\
  (In A (friendsOf s' B) <-> In B (friendsOf s' A)) /\
  (forall u, u <> A -> u <> B -> friendsOf s' u = friendsOf s u) /\
  ((forall a b, In a (friendsOf s b) <-> In b (friendsOf s a)) ->
   (forall a b, In a (friendsOf s' b) <-> In b (friendsOf s' a))) /\
  (forall j, find (hasId FriendRequestM j) (friendrequests s) = None ->
     exists m, acceptFriendRequest j s = (s, Next (AppError m 404))).
Proof.
  intros H [a Ha] [b Hb] A B s'. fold A in Ha. fold B in Hb.
  assert (FA : friendsOf s' A =
               (if B =? A then addToSet A else fun l => l)
                 (addToSet B (friendsOf s A))).
  { unfold s', friendsOf at 2. rewrite (friendsOf_accept _ _ _ H).
    fold A B. rewrite Ha, Nat.eqb_refl. reflexivity. }
  assert (FB : friendsOf s' B =
               addToSet A ((if A =? B then addToSet B else fun l => l)
                             (friendsOf s B))).
  { unfold s', friendsOf at 2. rewrite (friendsOf_accept _ _ _ H).
    fold A B. rewrite Hb, Nat.eqb_refl. reflexivity. }
  assert (MA : forall x, In x (friendsOf s' A) <-> x = B \/ In x (friendsOf s A)).
  { intros x. rewrite FA. destruct (Nat.eqb_spec B A) as [E|E].
    - rewrite !In_addToSet, E. tauto.
    - apply In_addToSet. }
  assert (MB : forall x, In x (friendsOf s' B) <-> x = A \/ In x (friendsOf s B)).
  { intros x. rewrite FB. destruct (Nat.eqb_spec A B) as [E|E].
    - rewrite !In_addToSet, E. tauto.
    - apply In_addToSet. }
  assert (Mem : forall a b,
             In a (friendsOf s' b) <->
             (b = A /\ a = B) \/ (b = B /\ a = A) \/ In a (friendsOf s b)).
  { intros p q. destruct (Nat.eq_dec q A) as [->|NA].
    - rewrite MA. intuition congruence.
    - destruct (Nat.eq_dec q B) as [->|NB].
      + rewrite MB. intuition congruence.
      + assert (E : friendsOf s' q = friendsOf s q).
        { unfold s', friendsOf at 2. rewrite (friendsOf_accept _ _ _ H).
          fold A B.
          destruct (Nat.eqb_spec B q); [congruence|].
          destruct (Nat.eqb_spec A q); [congruence|].
          reflexivity. }
        rewrite E. intuition congruence. }
  assert (SymP : (forall p q, In p (friendsOf s q) <-> In q (friendsOf s p)) ->
                 forall p q, In p (friendsOf s' q) <-> In q (friendsOf s' p)).
  { intros Sym p q. rewrite (Mem p q), (Mem q p), (Sym p q). tauto. }
  repeat split.
  - now rewrite (acceptFriendRequest_found _ _ H).
  - unfold s'. rewrite (acceptFriendRequest_found _ _ H). simpl.
    now apply requestStatus_updated with (r := r).
  - apply MA.
  - apply MA.
  - apply MB.
  - apply MB.
  - rewrite FA. destruct (Nat.eqb_spec B A); [congruence|reflexivity].
  - rewrite FB. destruct (Nat.eqb_spec A B); [congruence|reflexivity].
  - intros ND. rewrite FA.
    destruct (B =? A); repeat apply NoDup_addToSet; assumption.
  - intros ND. rewrite FB.
    destruct (A =? B); repeat apply NoDup_addToSet; assumption.
  - intros _. apply MA. now left.
  - intros _. apply MB. now left.
  - intros u HA HB. unfold s', friendsOf at 2.
    rewrite (friendsOf_accept _ _ _ H). fold A B.
    destruct (Nat.eqb_spec B u); [congruence|].
    destruct (Nat.eqb_spec A u); [congruence|].
    reflexivity.
  - now apply SymP.
  - now apply SymP.
  - intros j Hj. eexists. now apply acceptFriendRequest_missing.
Qed.

Lemma acceptFriendRequest_befriends_witness :
  find (hasId FriendRequestM 10) (friendrequests afterReject)
    = Some (FriendRequest.mk 10 1 2 rejected 1000) /\
  userExists afterReject 1 /\ userExists afterReject 2 /\
  requestStatus (fst (acceptFriendRequest 10 afterReject)) 10 = Some accepted /\
  (In 1 (friendsOf (fst (acceptFriendRequest 10 afterReject)) 2) <->
   In 2 (friendsOf (fst (acceptFriendRequest 10 afterReject)) 1)).
Proof.
  assert (H1 : userExists afterReject 1) by (eexists; reflexivity).
  assert (H2 : userExists afterReject 2) by (eexists; reflexivity).
  pose proof (@acceptFriendRequest_befriends afterReject 10
                (FriendRequest.mk 10 1 2 rejected 1000) eq_refl H1 H2) as H.
  simpl in H.
  split; [reflexivity|]. split; [exact H1|]. split; [exact H2|].
  split; [exact (proj1 (proj2 H))|].
  exact (proj1 (proj2 (proj2 (proj2 (proj2 (proj2 (proj2 (proj2 H)))))))).
Defined.

(** C2, refuted as stated. Alice's request names a receiver 2 who has no
    user record. Accepting it puts 2 into Alice's friends, while no friends
    array holds Alice: the friendship is one-sided. *)
Lemma accept_one_sided :
  find (hasId FriendRequestM 10) (friendrequests requestToNobody)
    = Some (FriendRequest.mk 10 1 2 pending 1000) /\
  find (hasId UserM 2) (users requestToNobody) = None /\
  In 2 (friendsOf (fst (acceptFriendRequest 10 requestToNobody)) 1) /\
  ~ In 1 (friendsOf (fst (acceptFriendRequest 10 requestToNobody)) 2) /\
  users (fst (acceptFriendRequest 10 requestToNobody))
    = [newUser 1 "alice" [2]].
Proof.
  repeat split; try reflexivity.
  - simpl. now left.
  - simpl. tauto.
Qed.

(** C10. With a receiver that is present and whose identifier differs from
    the sender and is not in the sender's friends, however the client spells
    it, [sendFriendRequest] appends a pending request from the sender to
    that identifier and answers 201 with it; nothing in the handler depends
    on a user with the receiver's identifier being in the store. *)
Theorem sendFriendRequest_unchecked_receiver s userId receiver newId now u :
  find (hasId UserM userId) (users s) = Some u ->
  castId receiver <> userId ->
  ~ In (castId receiver) (User.friends u) ->
  let friendRequest :=
    FriendRequest.mk newId userId (castId receiver) pending now in
  sendFriendRequest userId (Some receiver) newId now s =
    (mkStore (users s) (posts s) (comments s)
       (friendrequests s ++ [friendRequest]),
     Json 201 (mkEnvelope true friendRequest
                 [("mesage", "Friend request sent")])).
Proof.
  intros Hu Hne Hnf. unfold sendFriendRequest. run_handler.
  destruct (Nat.eqb_spec (castId receiver) userId) as [E|_]; [contradiction|].
  rewrite andb_false_r.
  rewrite Hu. simpl. apply includes_not_In in Hnf. rewrite Hnf, andb_false_r.
  simpl. pose proof (find_hasId UserM _ _ Hu) as E. simpl in E.
  unfold FriendRequest.create. now rewrite E.
Qed.

Lemma sendFriendRequest_unchecked_receiver_witness :
  find (hasId UserM 1) (users aliceAlone) = Some (newUser 1 "alice" []) /\
  find (hasId UserM 2) (users aliceAlone) = None /\
  sendFriendRequest 1 (Some (canonical 2)) 10 1000 aliceAlone =
    (mkStore (users aliceAlone) [] []
       [FriendRequest.mk 10 1 2 pending 1000],
     Json 201 (mkEnvelope true (FriendRequest.mk 10 1 2 pending 1000)
                 [("mesage", "Friend request sent")])).
Proof.
  split; [reflexivity|]. split; [reflexivity|].
  refine (@sendFriendRequest_unchecked_receiver aliceAlone 1 (canonical 2)
            10 1000%Z (newUser 1 "alice" []) eq_refl _ _).
  - discriminate.
  - simpl. tauto.
Defined.

(** ** The like toggle *)

Section SaveFacts.
Variable D : Type.
Variable M : Model D.

Lemma find_updateOne_const i d' l d :
  idOf M d' = i ->
  find (hasId M i) l = Some d ->
  find (hasId M i) (updateOne M i (fun _ => d') l) = Some d'.
Proof.
  intros Hid. induction l as [|x r IH]; simpl; [discriminate|].
  destruct (hasId M i x) eqn:E; simpl.
  - intros _. unfold hasId. now rewrite Hid, Nat.eqb_refl.
  - rewrite E. exact IH.
Qed.
End SaveFacts.

Lemma In_push x y l : In y (push x l) <-> y = x \/ In y l.
Proof. unfold push. rewrite in_app_iff. simpl. intuition. Qed.

Lemma push_pull_Permutation u l :
  NoDup l -> In u l -> Permutation (push u (pull u l)) l.
Proof.
  induction l as [|y r IH]; intros ND Hu; [destruct Hu|].
  inversion ND as [|? ? Hy NDr]; subst.
  unfold pull, push in *. simpl.
  destruct (Nat.eqb_spec y u) as [->|N]; simpl.
  - fold (pull u r). rewrite (pull_absent _ _ Hy).
    apply Permutation_sym, Permutation_cons_append.
  - constructor. apply IH; [assumption|].
    destruct Hu as [E|Hu]; [congruence|assumption].
Qed.

Lemma toggled_flips u l : In u (toggled u l) <-> ~ In u l.
Proof.
  unfold toggled. destruct (includes u l) eqn:E.
  - apply includes_In in E. rewrite In_pull. tauto.
  - apply includes_not_In in E. rewrite In_push. tauto.
Qed.

Lemma toggled_others u x l : x <> u -> (In x (toggled u l) <-> In x l).
Proof.
  intros N. unfold toggled. destruct (includes u l).
  - rewrite In_pull. tauto.
  - rewrite In_push. tauto.
Qed.

Lemma toggled_twice u x l : In x (toggled u (toggled u l)) <-> In x l.
Proof.
  destruct (Nat.eq_dec x u) as [->|N].
  - rewrite !toggled_flips. destruct (in_dec Nat.eq_dec u l); tauto.
  - now rewrite !toggled_others.
Qed.

Lemma toggled_twice_absent u l : ~ In u l -> toggled u (toggled u l) = l.
Proof.
  intros H. unfold toggled at 2. pose proof H as H'.
  apply includes_not_In in H'. rewrite H'. unfold toggled.
  assert (E : includes u (push u l) = true).
  { apply includes_In, In_push. now left. }
  rewrite E. now apply pull_push_absent.
Qed.

Lemma toggled_twice_Permutation u l :
  NoDup l -> Permutation (toggled u (toggled u l)) l.
Proof.
  intros ND. destruct (in_dec Nat.eq_dec u l) as [H|H].
  - unfold toggled at 2. pose proof H as H'. apply includes_In in H'.
    rewrite H'. unfold toggled.
    assert (E : includes u (pull u l) = false).
    { apply includes_not_In. rewrite In_pull. tauto. }
    rewrite E. now apply push_pull_Permutation.
  - now rewrite toggled_twice_absent.
Qed.

Arguments invalidPaths : simpl never.
Arguments postSchema : simpl never.
Arguments commentSchema : simpl never.

Lemma postSchema_set_likedBy f p :
  postSchema (Post.set_likedBy f p) = postSchema p.
Proof. reflexivity. Qed.

Lemma commentSchema_set_likedBy f c :
  commentSchema (Comment.set_likedBy f c) = commentSchema c.
Proof. reflexivity. Qed.

Lemma toggleLikePost_found s userId id p :
  find (hasId PostM id) (posts s) = Some p ->
  invalidPaths (postSchema p) = [] ->
  toggleLikePost userId id s =
    (mkStore (users s)
       (updateOne PostM id
          (fun _ => Post.set_likedBy (fun _ => toggled userId (Post.likedBy p)) p)
          (posts s))
       (comments s) (friendrequests s),
     Json 200
       (mkEnvelope true
          (Post.set_likedBy (fun _ => toggled userId (Post.likedBy p)) p)
          [("message", if includes userId (Post.likedBy p)
                       then "Like removed" else "Like added")])).
Proof.
  intros H V. unfold toggleLikePost, save. run_handler. rewrite H.
  pose proof (find_hasId PostM _ _ H) as E. simpl in E.
  unfold toggled. destruct (includes userId (Post.likedBy p));
    rewrite postSchema_set_likedBy, V; simpl; now rewrite E.
Qed.

Lemma toggleLikePost_refused s userId id p :
  find (hasId PostM id) (posts s) = Some p ->
  invalidPaths (postSchema p) <> [] ->
  toggleLikePost userId id s
    = (s, Next (ValidationError (invalidPaths (postSchema p)))).
Proof.
  intros H V. unfold toggleLikePost, save. run_handler. rewrite H.
  destruct (includes userId (Post.likedBy p));
    rewrite postSchema_set_likedBy;
    destruct (invalidPaths (postSchema p)); try congruence; reflexivity.
Qed.

Lemma toggleLikeComment_found s userId id c :
  find (hasId CommentM id) (comments s) = Some c ->
  invalidPaths (commentSchema c) = [] ->
  toggleLikeComment userId id s =
    (mkStore (users s) (posts s)
       (updateOne CommentM id
          (fun _ => Comment.set_likedBy
                      (fun _ => toggled userId (Comment.likedBy c)) c)
          (comments s))
       (friendrequests s),
     Json 200
       (mkEnvelope true
          (Comment.set_likedBy (fun _ => toggled userId (Comment.likedBy c)) c)
          [("message", if includes userId (Comment.likedBy c)
                       then "Like removed" else "Like added")])).
Proof.
  intros H V. unfold toggleLikeComment, save. run_handler. rewrite H.
  pose proof (find_hasId CommentM _ _ H) as E. simpl in E.
  unfold toggled. destruct (includes userId (Comment.likedBy c));
    rewrite commentSchema_set_likedBy, V; simpl; now rewrite E.
Qed.

Lemma toggleLikeComment_refused s userId id c :
  find (hasId CommentM id) (comments s) = Some c ->
  invalidPaths (commentSchema c) <> [] ->
  toggleLikeComment userId id s
    = (s, Next (ValidationError (invalidPaths (commentSchema c)))).
Proof.
  intros H V. unfold toggleLikeComment, save. run_handler. rewrite H.
  destruct (includes userId (Comment.likedBy c));
    rewrite commentSchema_set_likedBy;
    destruct (invalidPaths (commentSchema c)); try congruence; reflexivity.
Qed.

Lemma postLikedBy_toggle s userId id p :
  find (hasId PostM id) (posts s) = Some p ->
  invalidPaths (postSchema p) = [] ->
  find (hasId PostM id) (posts (fst (toggleLikePost userId id s)))
    = Some (Post.set_likedBy (fun _ => toggled userId (Post.likedBy p)) p).
Proof.
  intros H V. rewrite (toggleLikePost_found _ _ _ H V). simpl.
  apply find_updateOne_const with (d := p); [|assumption].
  exact (find_hasId PostM _ _ H).
Qed.

Lemma commentLikedBy_toggle s userId id c :
  find (hasId CommentM id) (comments s) = Some c ->
  invalidPaths (commentSchema c) = [] ->
  find (hasId CommentM id) (comments (fst (toggleLikeComment userId id s)))
    = Some (Comment.set_likedBy
              (fun _ => toggled userId (Comment.likedBy c)) c).
Proof.
  intros H V. rewrite (toggleLikeComment_found _ _ _ H V). simpl.
  apply find_updateOne_const with (d := c); [|assumption].
  exact (find_hasId CommentM _ _ H).
Qed.

(** C3. On an existing post whose stored title and content satisfy the
    schema (3 to 120 and 3 to 2000 code units, the entity of section 3 of
    the specification), and likewise on an existing comment whose stored
    content does, one call of the toggle by [u] removes [u] from [likedBy]
    and reports "Like removed" when [u] was there, appends [u] and reports
    "Like added" when it was not, so the membership of [u] always flips; two
    calls in a row give back the original set of likers (the very same
    array when [u] was absent, a rearrangement of a duplicate-free array
    otherwise). On a stored document that fails its schema [save] refuses:
    the toggle answers 400 with the failing paths and writes nothing. *)
Theorem like_toggle_involution s u :
  (forall id p,
     find (hasId PostM id) (posts s) = Some p ->
     invalidPaths (postSchema p) = [] ->
     let s1 := fst (toggleLikePost u id s) in
     let s2 := fst (toggleLikePost u id s1) in
     statusOf (snd (toggleLikePost u id s)) = 200%Z /\
     statusOf (snd (toggleLikePost u id s1)) = 200%Z /\
     (In u (postLikedBy s id) ->
        postLikedBy s1 id = pull u (postLikedBy s id) /\
        messageOf (snd (toggleLikePost u id s)) = Some "Like removed") /\
     (~ In u (postLikedBy s id) ->
        postLikedBy s1 id = push u (postLikedBy s id) /\
        messageOf (snd (toggleLikePost u id s)) = Some "Like added") /\
     (In u (postLikedBy s1 id) <-> ~ In u (postLikedBy s id)) /\
     (forall x, In x (postLikedBy s2 id) <-> In x (postLikedBy s id)) /\
     (~ In u (postLikedBy s id) -> postLikedBy s2 id = postLikedBy s id) /\
     (NoDup (postLikedBy s id) ->
        Permutation (postLikedBy s2 id) (postLikedBy s id))) /\
  (forall id c,
     find (hasId CommentM id) (comments s) = Some c ->
     invalidPaths (commentSchema c) = [] ->
     let s1 := fst (toggleLikeComment u id s) in
     let s2 := fst (toggleLikeComment u id s1) in
     statusOf (snd (toggleLikeComment u id s)) = 200%Z /\
     statusOf (snd (toggleLikeComment u id s1)) = 200%Z /\
     (In u (commentLikedBy s id) ->
        commentLikedBy s1 id = pull u (commentLikedBy s id) /\
        messageOf (snd (toggleLikeComment u id s)) = Some "Like removed") /\
     (~ In u (commentLikedBy s id) ->
        commentLikedBy s1 id = push u (commentLikedBy s id) /\
        messageOf (snd (toggleLikeComment u id s)) = Some "Like added") /\
     (In u (commentLikedBy s1 id) <-> ~ In u (commentLikedBy s id)) /\
     (forall x, In x (commentLikedBy s2 id) <-> In x (commentLikedBy s id)) /\
     (~ In u (commentLikedBy s id) ->
        commentLikedBy s2 id = commentLikedBy s id) /\
     (NoDup (commentLikedBy s id) ->
        Permutation (commentLikedBy s2 id) (commentLikedBy s id))) /\
  (forall id p,
     find (hasId PostM id) (posts s) = Some p ->
     invalidPaths (postSchema p) <> [] ->
     toggleLikePost u id s
       = (s, Next (ValidationError (invalidPaths (postSchema p)))) /\
     statusOf (snd (toggleLikePost u id s)) = 400%Z) /\
  (forall id c,
     find (hasId CommentM id) (comments s) = Some c ->
     invalidPaths (commentSchema c) <> [] ->
     toggleLikeComment u id s
       = (s, Next (ValidationError (invalidPaths (commentSchema c)))) /\
     statusOf (snd (toggleLikeComment u id s)) = 400%Z).
Proof.
  split; [|split; [|split]].
  - intros id p H V s1 s2.
    pose proof (postLikedBy_toggle s u id H V) as H1. fold s1 in H1.
    assert (V1 : invalidPaths
                   (postSchema
                      (Post.set_likedBy (fun _ => toggled u (Post.likedBy p)) p))
                 = []) by exact V.
    pose proof (postLikedBy_toggle s1 u id H1 V1) as H2. fold s2 in H2.
    unfold postLikedBy. rewrite H, H1, H2. simpl.
    rewrite (toggleLikePost_found _ _ _ H1 V1).
    rewrite (toggleLikePost_found _ _ _ H V). simpl.
    repeat split.
    + unfold toggled. apply includes_In in H0. now rewrite H0.
    + apply includes_In in H0. now rewrite H0.
    + unfold toggled. apply includes_not_In in H0. now rewrite H0.
    + apply includes_not_In in H0. now rewrite H0.
    + apply toggled_flips.
    + apply toggled_flips.
    + apply toggled_twice.
    + apply toggled_twice.
    + apply toggled_twice_absent.
    + apply toggled_twice_Permutation.
  - intros id c H V s1 s2.
    pose proof (commentLikedBy_toggle s u id H V) as H1. fold s1 in H1.
    assert (V1 : invalidPaths
                   (commentSchema
                      (Comment.set_likedBy
                         (fun _ => toggled u (Comment.likedBy c)) c))
                 = []) by exact V.
    pose proof (commentLikedBy_toggle s1 u id H1 V1) as H2. fold s2 in H2.
    unfold commentLikedBy. rewrite H, H1, H2. simpl.
    rewrite (toggleLikeComment_found _ _ _ H1 V1).
    rewrite (toggleLikeComment_found _ _ _ H V). simpl.
    repeat split.
    + unfold toggled. apply includes_In in H0. now rewrite H0.
    + apply includes_In in H0. now rewrite H0.
    + unfold toggled. apply includes_not_In in H0. now rewrite H0.
    + apply includes_not_In in H0. now rewrite H0.
    + apply toggled_flips.
    + apply toggled_flips.
    + apply toggled_twice.
    + apply toggled_twice.
    + apply toggled_twice_absent.
    + apply toggled_twice_Permutation.
  - intros id p H V. rewrite (toggleLikePost_refused _ _ _ H V).
    now split.
  - intros id c H V. rewrite (toggleLikeComment_refused _ _ _ H V).
    now split.
Qed.

Lemma like_toggle_involution_witness :
  find (hasId PostM 20) (posts withLikes) = Some likedPost /\
  invalidPaths (postSchema likedPost) = [] /\
  find (hasId CommentM 30) (comments withLikes) = Some plainComment /\
  invalidPaths (commentSchema plainComment) = [] /\
  (forall x,
     In x (postLikedBy
             (fst (toggleLikePost 1 20 (fst (toggleLikePost 1 20 withLikes)))) 20)
     <-> In x (postLikedBy withLikes 20)) /\
  (forall x,
     In x (commentLikedBy
             (fst (toggleLikeComment 1 30
                     (fst (toggleLikeComment 1 30 withLikes)))) 30)
     <-> In x (commentLikedBy withLikes 30)).
Proof.
  split; [reflexivity|]. split; [reflexivity|].
  split; [reflexivity|]. split; [reflexivity|].
  pose proof (like_toggle_involution withLikes 1) as [HP [HC _]].
  split.
  - exact (proj1 (proj2 (proj2 (proj2 (proj2 (proj2
             (HP 20 likedPost eq_refl eq_refl))))))).
  - exact (proj1 (proj2 (proj2 (proj2 (proj2 (proj2
             (HC 30 plainComment eq_refl eq_refl))))))).
Defined.

(** ** Deleting a user *)

Lemma deleteUser_done s u x :
  find (hasId UserM u) (users s) = Some x ->
  deleteUser u u s =
    (mkStore
       (map (User.set_friends (pull u)) (removeOne UserM u (users s)))
       (map (Post.set_likedBy (pull u))
          (filter (fun p => negb (Post.author p =? u)) (posts s)))
       (filter (fun c => negb (Comment.author c =? u)) (comments s))
       (filter (fun r => negb ((FriendRequest.sender r =? u)
                               || (FriendRequest.receiver r =? u)))
          (friendrequests s)),
     Json 200 (mkEnvelope true tt [("message", "User deleted successfully")])).
Proof.
  intros H. unfold deleteUser. run_handler. rewrite H.
  pose proof (find_hasId UserM _ _ H) as E. simpl in E.
  rewrite E, Nat.eqb_refl. simpl. now rewrite H.
Qed.

(** C8. When a user deletes their own account [u], the store afterwards
    holds no post authored by [u], no post with [u] in [likedBy], no user
    with [u] in [friends], no friend request sent by or to [u] and no
    comment authored by [u]; the collections are exactly the former ones
    with those documents and references taken out. *)
Theorem deleteUser_cascade s u x :
  find (hasId UserM u) (users s) = Some x ->
  let s' := fst (deleteUser u u s) in
  snd (deleteUser u u s)
    = Json 200 (mkEnvelope true tt [("message", "User deleted successfully")]) /\
  (forall p, In p (posts s') -> Post.author p <> u /\ ~ In u (Post.likedBy p)) /\
  (forall y, In y (users s') -> ~ In u (User.friends y)) /\
  (forall r, In r (friendrequests s') ->
     FriendRequest.sender r <> u /\ FriendRequest.receiver r <> u) /\
  (forall c, In c (comments s') -> Comment.author c <> u) /\
  posts s' = map (Post.set_likedBy (pull u))
               (filter (fun p => negb (Post.author p =? u)) (posts s)) /\
  users s' = map (User.set_friends (pull u)) (removeOne UserM u (users s)) /\
  friendrequests s'
    = filter (fun r => negb ((FriendRequest.sender r =? u)
                             || (FriendRequest.receiver r =? u)))
        (friendrequests s) /\
  comments s' = filter (fun c => negb (Comment.author c =? u)) (comments s).
Proof.
  intros H s'. unfold s'. rewrite (deleteUser_done _ _ H). simpl.
  split; [reflexivity|]. split; [|split; [|split; [|split]]].
  - intros p Hp. apply in_map_iff in Hp. destruct Hp as [q [<- Hq]].
    apply filter_In in Hq. destruct Hq as [_ Hq]. simpl. split.
    + apply negb_true_iff in Hq. now apply Nat.eqb_neq in Hq.
    + rewrite In_pull. tauto.
  - intros y Hy. apply in_map_iff in Hy. destruct Hy as [z [<- _]]. simpl.
    rewrite In_pull. tauto.
  - intros r Hr. apply filter_In in Hr. destruct Hr as [_ Hr].
    apply negb_true_iff, orb_false_iff in Hr. destruct Hr as [H1 H2].
    split; now apply Nat.eqb_neq.
  - intros c Hc. apply filter_In in Hc. destruct Hc as [_ Hc].
    apply negb_true_iff in Hc. now apply Nat.eqb_neq in Hc.
  - repeat split.
Qed.

(** ** Ownership *)

Lemma updatePost_foreign s actor id p body :
  find (hasId PostM id) (posts s) = Some p ->
  Post.author p <> actor ->
  updatePost actor id body s =
    (s, Next (AppError "You are not authorized to update this post" 401)).
Proof.
  intros H N. unfold updatePost. run_handler. rewrite H.
  apply Nat.eqb_neq in N. now rewrite N.
Qed.

Lemma deletePost_foreign s actor id p :
  find (hasId PostM id) (posts s) = Some p ->
  Post.author p <> actor ->
  deletePost actor id s =
    (s, Next (AppError "You are not authorized to delete this post" 401)).
Proof.
  intros H N. unfold deletePost. run_handler. rewrite H.
  apply Nat.eqb_neq in N. now rewrite N.
Qed.

Lemma updateComment_foreign s actor cid c content :
  find (hasId CommentM cid) (comments s) = Some c ->
  Comment.author c <> actor ->
  updateComment actor cid content s =
    (s, Next (AppError "You are not authorized to update this comment" 401)).
Proof.
  intros H N. unfold updateComment. run_handler. rewrite H.
  apply Nat.eqb_neq in N. now rewrite N.
Qed.

Lemma deleteComment_foreign s actor id cid c :
  find (hasId CommentM cid) (comments s) = Some c ->
  Comment.author c <> actor ->
  deleteComment actor id cid s =
    (s, Next (match find (hasId PostM id) (posts s) with
              | Some _ =>
                  AppError "You are not authorized to update this comment" 401
              | None => AppError "Comment not found" 404
              end)).
Proof.
  intros H N. unfold deleteComment. run_handler. rewrite H.
  destruct (find (hasId PostM id) (posts s)); [|reflexivity].
  apply Nat.eqb_neq in N. now rewrite N.
Qed.

(** C9, as amended. For an existing post and an actor who is not its author,
    [updatePost] and [deletePost] fail with the 401 error and leave the
    store as it was; so does [updateComment] for an existing comment. For
    [deleteComment] the store is left as it was too, and the failure is the
    401 error when the post identifier of the request references an existing
    post; when it does not, the handler's earlier guard answers with the 404
    error "Comment not found". *)
Theorem ownership_enforced s actor :
  (forall id p body,
     find (hasId PostM id) (posts s) = Some p ->
     Post.author p <> actor ->
     (exists e, updatePost actor id body s = (s, Next e) /\ Unauthorized e) /\
     (exists e, deletePost actor id s = (s, Next e) /\ Unauthorized e)) /\
  (forall cid c content,
     find (hasId CommentM cid) (comments s) = Some c ->
     Comment.author c <> actor ->
     (exists e, updateComment actor cid content s = (s, Next e)
                /\ Unauthorized e) /\
     (forall id,
        exists e, deleteComment actor id cid s = (s, Next e) /\
          (find (hasId PostM id) (posts s) <> None -> Unauthorized e) /\
          (find (hasId PostM id) (posts s) = None -> NotFound e))).
Proof.
  split.
  - intros id p body H N. split; eexists; split.
    + now apply updatePost_foreign with (p := p).
    + now eexists.
    + now apply deletePost_foreign with (p := p).
    + now eexists.
  - intros cid c content H N. split.
    + eexists. split; [now apply updateComment_foreign with (c := c)|].
      now eexists.
    + intros id. eexists. split; [now apply deleteComment_foreign with (c := c)|].
      destruct (find (hasId PostM id) (posts s)); split;
        try congruence; intros _; now eexists.
Qed.

Lemma ownership_enforced_witness :
  find (hasId PostM 20) (posts withLikes) = Some likedPost /\
  Post.author likedPost <> 1 /\
  find (hasId CommentM 30) (comments withLikes) = Some plainComment /\
  Comment.author plainComment <> 2 /\
  (exists e, deletePost 1 20 withLikes = (withLikes, Next e) /\ Unauthorized e) /\
  (exists e, deleteComment 2 20 30 withLikes = (withLikes, Next e)
             /\ Unauthorized e).
Proof.
  assert (N1 : Post.author likedPost <> 1) by discriminate.
  assert (N2 : Comment.author plainComment <> 2) by discriminate.
  pose proof (ownership_enforced withLikes 1) as [HP _].
  pose proof (ownership_enforced withLikes 2) as [_ HC].
  split; [reflexivity|]. split; [exact N1|].
  split; [reflexivity|]. split; [exact N2|]. split.
  - exact (proj2 (HP 20 likedPost (mkPostBody None None) eq_refl N1)).
  - destruct (proj2 (HC 30 plainComment None eq_refl N2) 20) as [e [E [U _]]].
    exists e. split; [exact E|]. apply U. discriminate.
Defined.

(** C9, refuted as stated. Bob is not the author of Alice's comment 30; his
    request to delete it under a post identifier that references no post is
    answered with the 404 error, not with the 401 one. *)
Lemma deleteComment_foreign_not_found :
  find (hasId CommentM 30) (comments withLikes) = Some plainComment /\
  Comment.author plainComment <> 2 /\
  deleteComment 2 99 30 withLikes
    = (withLikes, Next (AppError "Comment not found" 404)) /\
  ~ Unauthorized (AppError "Comment not found" 404).
Proof.
  repeat split; try discriminate.
  intros [m E]. discriminate E.
Qed.

(** ** Sorting, paging and page counts *)

Section SortFacts.
Variable D : Type.
Variable key : D -> Z.

Lemma insertDesc_Permutation x l :
  Permutation (insertDesc key x l) (x :: l).
Proof.
  induction l as [|y r IH]; simpl; [reflexivity|].
  destruct (key y <=? key x)%Z; [reflexivity|].
  rewrite IH. apply perm_swap.
Qed.

Lemma sortDesc_Permutation l : Permutation (sortDesc key l) l.
Proof.
  induction l as [|x r IH]; simpl; [reflexivity|].
  rewrite insertDesc_Permutation. now constructor.
Qed.

Lemma In_sortDesc a l : In a (sortDesc key l) <-> In a l.
Proof.
  split; apply Permutation_in;
    [|apply Permutation_sym]; apply sortDesc_Permutation.
Qed.

Lemma length_sortDesc l : List.length (sortDesc key l) = List.length l.
Proof. apply Permutation_length, sortDesc_Permutation. Qed.

Lemma insertDesc_descending x l :
  descending key l -> descending key (insertDesc key x l).
Proof.
  unfold descending. induction l as [|y r IH]; intros S; simpl.
  - constructor; constructor.
  - inversion S as [|? ? Sr Fr]; subst.
    destruct (key y <=? key x)%Z eqn:E.
    + apply Z.leb_le in E. constructor; [assumption|].
      constructor; [assumption|].
      eapply Forall_impl; [|exact Fr]. simpl. intros b Hb. lia.
    + apply Z.leb_gt in E. constructor; [now apply IH|].
      eapply Permutation_Forall.
      * apply Permutation_sym, insertDesc_Permutation.
      * constructor; [lia|assumption].
Qed.

Lemma sortDesc_descending l : descending key (sortDesc key l).
Proof.
  induction l as [|x r IH]; simpl.
  - constructor.
  - now apply insertDesc_descending.
Qed.

Lemma descending_skipn n l : descending key l -> descending key (skipn n l).
Proof.
  unfold descending. revert l. induction n as [|n IH]; intros l S.
  - exact S.
  - destruct l as [|x r]; [constructor|].
    inversion S; subst. simpl. now apply IH.
Qed.

Lemma descending_firstn n l : descending key l -> descending key (firstn n l).
Proof.
  unfold descending. revert l. induction n as [|n IH]; intros l S.
  - constructor.
  - destruct l as [|x r]; [constructor|].
    inversion S as [|? ? Sr Fr]; subst. simpl. constructor.
    + now apply IH.
    + apply Forall_forall. intros b Hb.
      rewrite Forall_forall in Fr. apply Fr.
      eapply (In_nth_error (firstn n r)) in Hb. destruct Hb as [i Hi].
      apply nth_error_In with (n := i).
      destruct (Nat.lt_ge_cases i n) as [L|G].
      * now rewrite nth_error_firstn, (proj2 (Nat.ltb_lt _ _) L) in Hi.
      * assert (N : nth_error (firstn n r) i = None).
        { apply nth_error_None. rewrite length_firstn. lia. }
        congruence.
Qed.

Lemma descending_window skip limit l :
  descending key l -> descending key (window skip limit l).
Proof.
  intros S. unfold window. now apply descending_firstn, descending_skipn.
Qed.
End SortFacts.

Lemma Math_ceil_div_spec count limit :
  (0 < limit)%Z ->
  ((Math_ceil_div count limit - 1) * limit < count
   /\ count <= Math_ceil_div count limit * limit)%Z.
Proof.
  intros L. unfold Math_ceil_div.
  pose proof (Z.mul_div_le (- count) limit L).
  pose proof (Z.mul_succ_div_gt (- count) limit L).
  split; lia.
Qed.

(** A page past the last one starts at or after the end of the result. *)
Lemma skip_past_end count limit page :
  (0 < limit)%Z -> (0 <= count)%Z ->
  (Math_ceil_div count limit < page)%Z ->
  (count <= (page - 1) * limit)%Z.
Proof.
  intros L C P. pose proof (Math_ceil_div_spec count L) as [_ H]. nia.
Qed.

Lemma window_past_end {D} (l : list D) limit page :
  (0 < limit)%Z ->
  (Math_ceil_div (Z.of_nat (List.length l)) limit < page)%Z ->
  window ((page - 1) * limit) limit l = [].
Proof.
  intros L P. unfold window.
  rewrite skipn_all2; [apply firstn_nil|].
  pose proof (@skip_past_end (Z.of_nat (List.length l)) limit page L
                (Nat2Z.is_nonneg _) P).
  lia.
Qed.

Lemma parseIntOr_positive n dflt : (1 <= n)%Z -> parseIntOr (Some n) dflt = n.
Proof.
  intros H. unfold parseIntOr. destruct (Z.eqb_spec n 0); [lia|reflexivity].
Qed.

(** ** The [$group] stage *)

Lemma find_over_app {A} (f : A -> bool) l l' :
  find f (l ++ l') = match find f l with Some x => Some x | None => find f l' end.
Proof.
  induction l as [|x r IH]; simpl; [reflexivity|].
  now destruct (f x).
Qed.

Lemma group_snoc rows r :
  group (rows ++ [r]) = pushGroup (fst r) (snd r) (group rows).
Proof. unfold group. now rewrite fold_left_app. Qed.

Lemma groupIds_snoc rows r :
  groupIds (rows ++ [r]) = addToSet (Post._id (fst r)) (groupIds rows).
Proof. unfold groupIds. now rewrite fold_left_app. Qed.

Lemma map_id_pushGroup p c gs :
  map Grouped._id (pushGroup p c gs)
    = addToSet (Post._id p) (map Grouped._id gs).
Proof.
  induction gs as [|g r IH]; [reflexivity|].
  simpl. unfold addToSet, includes. simpl.
  rewrite (Nat.eqb_sym (Post._id p)).
  destruct (Grouped._id g =? Post._id p); simpl; [reflexivity|].
  rewrite IH. unfold addToSet, includes.
  now destruct (existsb (Nat.eqb (Post._id p)) (map Grouped._id r)).
Qed.

Lemma map_id_group rows : map Grouped._id (group rows) = groupIds rows.
Proof.
  induction rows as [|r rows IH] using rev_ind; [reflexivity|].
  now rewrite group_snoc, groupIds_snoc, map_id_pushGroup, IH.
Qed.

Lemma NoDup_groupIds rows : NoDup (groupIds rows).
Proof.
  induction rows as [|r rows IH] using rev_ind; [constructor|].
  rewrite groupIds_snoc. now apply NoDup_addToSet.
Qed.

Lemma In_groupIds i rows :
  In i (groupIds rows) <-> exists r, In r rows /\ Post._id (fst r) = i.
Proof.
  induction rows as [|r rows IH] using rev_ind.
  - simpl. split; [tauto|]. now intros [r [[] _]].
  - rewrite groupIds_snoc, In_addToSet, IH. split.
    + intros [->|[q [Hq E]]].
      * exists r. split; [apply in_or_app; right; now left|reflexivity].
      * exists q. split; [apply in_or_app; now left|assumption].
    + intros [q [Hq E]]. apply in_app_or in Hq. destruct Hq as [Hq|[->|[]]].
      * right. now exists q.
      * now left.
Qed.

Lemma length_group rows :
  List.length (group rows) = List.length (groupIds rows).
Proof. now rewrite <- map_id_group, length_map. Qed.

(** Where a member of [pushGroup p c gs] comes from, when the identifiers
    in [gs] are distinct. *)
Lemma In_pushGroup p c gs g :
  NoDup (map Grouped._id gs) ->
  In g (pushGroup p c gs) ->
  (In g gs /\ Grouped._id g <> Post._id p) \/
  (exists g0, In g0 gs /\ Grouped._id g0 = Post._id p /\ g = Grouped.push c g0) \/
  (g = Grouped.first p c /\ ~ In (Post._id p) (map Grouped._id gs)).
Proof.
  induction gs as [|h r IH]; simpl; intros ND Hg.
  - destruct Hg as [<-|[]]. right. right. split; [reflexivity|tauto].
  - inversion ND as [|? ? Hh NDr]; subst.
    destruct (Nat.eqb_spec (Grouped._id h) (Post._id p)) as [E|N].
    + destruct Hg as [<-|Hg].
      * right. left. exists h. auto.
      * left. split; [now right|]. intros E'. apply Hh.
        rewrite E, <- E'. now apply in_map.
    + destruct Hg as [<-|Hg].
      * left. split; [now left|assumption].
      * destruct (IH NDr Hg) as [[H1 H2]|[[g0 [H1 [H2 H3]]]|[H1 H2]]].
        -- left. split; [now right|assumption].
        -- right. left. exists g0. auto.
        -- right. right. split; [assumption|]. intros [E|H3]; auto.
Qed.

(** Every group is built from the rows of its identifier: the scalar fields
    come from the first such row, the comments from all of them, in order. *)
Lemma group_members rows g :
  In g (group rows) ->
  exists p c,
    find (fun r => Post._id (fst r) =? Grouped._id g) rows = Some (p, c) /\
    g = Grouped.mk (Post._id p) (Post.title p) (Post.content p)
          (Post.author p) (Post.createdAt p)
          (map snd (filter (fun r => Post._id (fst r) =? Post._id p) rows)).
Proof.
  revert g. induction rows as [|r rows IH] using rev_ind; intros g Hg.
  - destruct Hg.
  - rewrite group_snoc in Hg.
    apply In_pushGroup in Hg;
      [|rewrite map_id_group; apply NoDup_groupIds].
    destruct Hg as [[H1 H2]|[[g0 [H1 [H2 H3]]]|[H1 H2]]].
    + destruct (IH g H1) as [p [c [F G]]]. exists p, c.
      rewrite find_over_app, F. split; [reflexivity|].
      rewrite filter_app. simpl.
      assert (E : Grouped._id g = Post._id p) by (rewrite G; reflexivity).
      destruct (Nat.eqb_spec (Post._id (fst r)) (Post._id p)) as [E'|_];
        [congruence|].
      now rewrite app_nil_r.
    + destruct (IH g0 H1) as [p [c [F G]]]. exists p, c.
      assert (E : Grouped._id g0 = Post._id p) by (rewrite G; reflexivity).
      assert (E' : Grouped._id g = Grouped._id g0) by (rewrite H3; reflexivity).
      rewrite E', find_over_app, F. split; [reflexivity|].
      rewrite filter_app. simpl.
      destruct (Nat.eqb_spec (Post._id (fst r)) (Post._id p)) as [_|N];
        [|congruence].
      rewrite H3, G. unfold Grouped.push. simpl. now rewrite map_app.
    + rewrite map_id_group, In_groupIds in H2.
      assert (NR : forall q, In q rows -> Post._id (fst q) <> Post._id (fst r)).
      { intros q Hq E. apply H2. now exists q. }
      exists (fst r), (snd r). subst g. simpl.
      assert (F : find (fun q => Post._id (fst q) =? Post._id (fst r)) rows = None).
      { destruct (find _ rows) as [q|] eqn:F; [|reflexivity].
        apply find_some in F. destruct F as [Hq E].
        apply Nat.eqb_eq in E. now apply NR in Hq. }
      rewrite find_over_app, F. simpl. rewrite Nat.eqb_refl.
      split; [now destruct r|].
      rewrite filter_app. simpl. rewrite Nat.eqb_refl.
      assert (Z : filter (fun q => Post._id (fst q) =? Post._id (fst r)) rows = []).
      { clear -NR. induction rows as [|q rows IH]; [reflexivity|]. simpl.
        destruct (Nat.eqb_spec (Post._id (fst q)) (Post._id (fst r))) as [E|_].
        - exfalso. apply (NR q); [now left|assumption].
        - apply IH. intros q' Hq'. apply NR. now right. }
      now rewrite Z.
Qed.

(** ** Rows of the friend-comment pipeline *)

Lemma In_friendCommentRows fs s p c :
  In (p, c) (friendCommentRows fs s) <->
  In p (posts s) /\ ~ In (Post.author p) fs /\
  In c (commentsOf s p) /\ In (Comment.author c) fs.
Proof.
  unfold friendCommentRows, unwind, commentsOf, op_in, op_nin.
  rewrite filter_In, in_flat_map. simpl. split.
  - intros [[r [Hr Hpc]] Hc]. apply in_map_iff in Hr.
    destruct Hr as [q [<- Hq]]. apply filter_In in Hq. destruct Hq as [Hq Hn].
    simpl in Hpc. apply in_map_iff in Hpc. destruct Hpc as [c' [E Hc']].
    inversion E; subst.
    apply negb_true_iff, includes_not_In in Hn. apply includes_In in Hc.
    auto.
  - intros [Hp [Hn [Hc Hf]]]. split; [|now apply includes_In].
    exists (lookupComments (comments s) p). split.
    + apply in_map, filter_In. split; [assumption|].
      now apply negb_true_iff, includes_not_In.
    + simpl. now apply in_map.
Qed.

Lemma friendCommentRows_flat fs s :
  friendCommentRows fs s =
  flat_map
    (fun p => map (pair p)
                (filter (fun c => op_in (Comment.author c) fs) (commentsOf s p)))
    (filter (fun p => op_nin (Post.author p) fs) (posts s)).
Proof.
  unfold friendCommentRows, unwind, commentsOf.
  induction (filter (fun p => op_nin (Post.author p) fs) (posts s)) as [|p r IH];
    [reflexivity|].
  simpl. rewrite filter_app, IH. f_equal.
  induction (filter (fun c => includes (Comment._id c) (Post.comments p))
               (comments s)) as [|c cs IHc]; [reflexivity|].
  simpl. destruct (op_in (Comment.author c) fs); simpl; now rewrite IHc.
Qed.

Lemma NoDup_map_filter {A B} (f : A -> B) (q : A -> bool) l :
  NoDup (map f l) -> NoDup (map f (filter q l)).
Proof.
  induction l as [|x r IH]; simpl; intros ND; [constructor|].
  inversion ND as [|? ? Hx NDr]; subst.
  destruct (q x); simpl; [|now apply IH].
  constructor; [|now apply IH].
  intros H. apply Hx. apply in_map_iff in H. destruct H as [y [E Hy]].
  apply filter_In in Hy. rewrite <- E. apply in_map. tauto.
Qed.

Section RowsOfPost.
Variable F : Post.t -> list Comment.t.

Lemma rows_filter_one i q :
  filter (fun r : Post.t * Comment.t => Post._id (fst r) =? i)
    (map (pair q) (F q))
  = if Post._id q =? i then map (pair q) (F q) else [].
Proof.
  induction (F q) as [|c cs IH]; simpl.
  - now destruct (Post._id q =? i).
  - rewrite IH. now destruct (Post._id q =? i).
Qed.

Lemma rows_filter_none i ps :
  ~ In i (map Post._id ps) ->
  filter (fun r : Post.t * Comment.t => Post._id (fst r) =? i)
    (flat_map (fun q => map (pair q) (F q)) ps) = [].
Proof.
  induction ps as [|q r IH]; simpl; intros H; [reflexivity|].
  rewrite filter_app, rows_filter_one.
  destruct (Nat.eqb_spec (Post._id q) i) as [E|_]; [exfalso; auto|].
  apply IH. auto.
Qed.

Lemma rows_of_post p ps :
  NoDup (map Post._id ps) -> In p ps ->
  filter (fun r : Post.t * Comment.t => Post._id (fst r) =? Post._id p)
    (flat_map (fun q => map (pair q) (F q)) ps)
  = map (pair p) (F p).
Proof.
  induction ps as [|q r IH]; simpl; intros ND Hp; [destruct Hp|].
  inversion ND as [|? ? Hq NDr]; subst.
  rewrite filter_app, rows_filter_one. destruct Hp as [->|Hp].
  - rewrite Nat.eqb_refl, rows_filter_none by assumption.
    apply app_nil_r.
  - destruct (Nat.eqb_spec (Post._id q) (Post._id p)) as [E|_].
    + exfalso. apply Hq. rewrite E. now apply in_map.
    + now apply IH.
Qed.
End RowsOfPost.

Lemma map_snd_pair {A B} (a : A) (l : list B) : map snd (map (pair a) l) = l.
Proof. rewrite map_map. simpl. apply map_id. Qed.

(** Under unique post identifiers a group of the feed is one stranger's
    post with exactly its comments written by friends. *)
Lemma friendCommentFeed_member s x g :
  NoDup (map Post._id (posts s)) ->
  In g (friendCommentFeed s x) ->
  exists p,
    In p (posts s) /\ ~ In (Post.author p) (User.friends x) /\
    Grouped.comments g <> [] /\
    g = Grouped.mk (Post._id p) (Post.title p) (Post.content p)
          (Post.author p) (Post.createdAt p)
          (filter (fun c => op_in (Comment.author c) (User.friends x))
             (commentsOf s p)).
Proof.
  intros ND Hg. unfold friendCommentFeed in Hg. apply In_sortDesc in Hg.
  destruct (group_members _ _ Hg) as [p [c [F G]]].
  apply find_some in F. destruct F as [Hpc _].
  pose proof Hpc as Hrow.
  apply In_friendCommentRows in Hpc. destruct Hpc as [Hp [Hn [Hc Hf]]].
  rewrite friendCommentRows_flat in G.
  rewrite rows_of_post in G.
  - rewrite map_snd_pair in G. exists p. repeat split; try assumption.
    rewrite G. simpl. intros E.
    assert (Hin : In c (filter (fun c => op_in (Comment.author c) (User.friends x))
                          (commentsOf s p))).
    { apply filter_In. split; [assumption|now apply includes_In]. }
    rewrite E in Hin. destruct Hin.
  - now apply NoDup_map_filter.
  - apply filter_In. split; [assumption|].
    now apply negb_true_iff, includes_not_In.
Qed.

(** The identifiers in the feed are those of the qualifying posts, each
    once. *)
Lemma friendCommentFeed_ids s x i :
  In i (map Grouped._id (friendCommentFeed s x)) <->
  exists p c,
    In p (posts s) /\ Post._id p = i /\ ~ In (Post.author p) (User.friends x) /\
    In c (commentsOf s p) /\ In (Comment.author c) (User.friends x).
Proof.
  unfold friendCommentFeed.
  assert (P : Permutation
                (map Grouped._id
                   (sortDesc Grouped.createdAt
                      (group (friendCommentRows (User.friends x) s))))
                (groupIds (friendCommentRows (User.friends x) s))).
  { rewrite <- map_id_group. apply Permutation_map, sortDesc_Permutation. }
  split.
  - intros H. apply (Permutation_in _ P) in H. apply In_groupIds in H.
    destruct H as [[p c] [Hr E]]. apply In_friendCommentRows in Hr.
    exists p, c. simpl in E. tauto.
  - intros [p [c [Hp [E H]]]]. apply (Permutation_in _ (Permutation_sym P)).
    apply In_groupIds. exists (p, c). split; [|assumption].
    apply In_friendCommentRows. tauto.
Qed.

Lemma friendCommentFeed_NoDup s x :
  NoDup (map Grouped._id (friendCommentFeed s x)).
Proof.
  unfold friendCommentFeed.
  eapply Permutation_NoDup.
  - apply Permutation_sym, Permutation_map, sortDesc_Permutation.
  - rewrite map_id_group. apply NoDup_groupIds.
Qed.

(** ** The author join of the friend-comment pipeline *)

Lemma filter_unique_user us a u :
  NoDup (map User._id us) ->
  find (fun u => User._id u =? a) us = Some u ->
  filter (fun u => User._id u =? a) us = [u].
Proof.
  induction us as [|y r IH]; simpl; intros ND F; [discriminate|].
  inversion ND as [|? ? Hy NDr]; subst.
  destruct (Nat.eqb_spec (User._id y) a) as [E|N].
  - inversion F; subst. f_equal.
    clear -Hy. induction r as [|z r IH]; [reflexivity|]. simpl.
    destruct (Nat.eqb_spec (User._id z) (User._id u)) as [E|_].
    + exfalso. apply Hy. left. assumption.
    + apply IH. intros H. apply Hy. now right.
  - now apply IH.
Qed.

Lemma shown_groups us W :
  NoDup (map User._id us) ->
  (forall g, In g W ->
     exists u, find (fun u => User._id u =? Grouped.author g) us = Some u) ->
  Forall2 (showGroup us) W (map project (unwind (map (lookupAuthor us) W))).
Proof.
  intros ND. induction W as [|g W IH]; intros HA; [constructor|].
  destruct (HA g (or_introl eq_refl)) as [u Hu].
  unfold unwind. simpl. rewrite (filter_unique_user _ _ ND Hu). simpl.
  constructor.
  - exists u. auto.
  - apply IH. intros g' Hg'. apply HA. now right.
Qed.

(** ** The feeds *)

Lemma In_window {D} (a : D) skip limit l : In a (window skip limit l) -> In a l.
Proof.
  unfold window. intros H.
  rewrite <- (firstn_skipn (Z.to_nat skip) l). apply in_or_app. right.
  rewrite <- (firstn_skipn (Z.to_nat limit) (skipn (Z.to_nat skip) l)).
  apply in_or_app. now left.
Qed.

Lemma window_first_page {D} (l : list D) limit :
  (Z.of_nat (List.length l) <= limit)%Z -> window ((1 - 1) * limit) limit l = l.
Proof.
  intros H. unfold window. simpl. apply firstn_all2. lia.
Qed.

Lemma shown_posts us l : Forall2 (showPost us) l (map (populateAuthor us) l).
Proof. induction l; simpl; constructor; [reflexivity|assumption]. Qed.

Lemma Forall2_eq_refl {A} (l : list A) : Forall2 eq l l.
Proof. induction l; constructor; auto. Qed.

Lemma pageOf_window {A B} (show : A -> B -> Prop) full items page limit :
  (1 <= page)%Z -> (1 <= limit)%Z ->
  Forall2 show (window ((page - 1) * limit) limit full) items ->
  pageOf show full page limit
    (mkPaginated true items (Z.of_nat (List.length full)) page
       (Math_ceil_div (Z.of_nat (List.length full)) limit)).
Proof.
  intros P L F. unfold pageOf. simpl.
  split; [reflexivity|]. split; [reflexivity|]. split; [reflexivity|].
  split; [apply Math_ceil_div_spec; lia|]. split; [exact F|].
  intros Past. rewrite window_past_end in F by (assumption || lia).
  now inversion F.
Qed.

Ltac run_feed H :=
  rewrite !parseIntOr_positive by assumption; run_handler;
  unfold findSorted, countDocuments, populate, pipeline, countPipeline;
  try rewrite H; simpl.

Lemma getFeed_page s u x page limit :
  find (hasId UserM u) (users s) = Some x ->
  (1 <= page)%Z -> (1 <= limit)%Z ->
  getFeed u (Some page) (Some limit) s =
    (s, Json 200
          (mkPaginated true
             (map (populateAuthor (users s))
                (window ((page - 1) * limit) limit (directFeed s x)))
             (Z.of_nat (List.length (directFeed s x))) page
             (Math_ceil_div (Z.of_nat (List.length (directFeed s x))) limit))).
Proof.
  intros H P L. unfold getFeed. run_feed H.
  destruct (Z.ltb_spec ((page - 1) * limit) 0); [nia|].
  rewrite Z.abs_eq by lia. unfold directFeed, feedQuery.
  now rewrite length_sortDesc.
Qed.

Lemma getFriendLikedPosts_page s u x page limit :
  find (hasId UserM u) (users s) = Some x ->
  (1 <= page)%Z -> (1 <= limit)%Z ->
  getFriendLikedPosts u (Some page) (Some limit) s =
    (s, Json 200
          (mkPaginated true
             (map (populateAuthor (users s))
                (window ((page - 1) * limit) limit (friendLikedFeed s x)))
             (Z.of_nat (List.length (friendLikedFeed s x))) page
             (Math_ceil_div (Z.of_nat (List.length (friendLikedFeed s x)))
                limit))).
Proof.
  intros H P L. unfold getFriendLikedPosts. run_feed H.
  destruct (Z.ltb_spec ((page - 1) * limit) 0); [nia|].
  rewrite Z.abs_eq by lia. unfold friendLikedFeed.
  now rewrite length_sortDesc.
Qed.

Lemma getAllPosts_page s u page limit :
  (1 <= page)%Z -> (1 <= limit)%Z ->
  getAllPosts u (Some page) (Some limit) s =
    (s, Json 200
          (mkPaginated true
             (window ((page - 1) * limit) limit (ownPosts s u))
             (Z.of_nat (List.length (ownPosts s u))) page
             (Math_ceil_div (Z.of_nat (List.length (ownPosts s u))) limit))).
Proof.
  intros P L. unfold getAllPosts. run_feed P.
  destruct (Z.ltb_spec ((page - 1) * limit) 0); [nia|].
  rewrite Z.abs_eq by lia. unfold ownPosts.
  now rewrite length_sortDesc.
Qed.

Lemma getFriendCommentFeed_page s u x page limit :
  find (hasId UserM u) (users s) = Some x ->
  (1 <= page)%Z -> (1 <= limit)%Z ->
  getFriendCommentFeed u (Some page) (Some limit) s =
    (s, Json 200
          (mkPaginated true
             (map project
                (unwind
                   (map (lookupAuthor (users s))
                      (window ((page - 1) * limit) limit
                         (friendCommentFeed s x)))))
             (Z.of_nat (List.length (friendCommentFeed s x))) page
             (Math_ceil_div (Z.of_nat (List.length (friendCommentFeed s x)))
                limit))).
Proof.
  intros H P L. unfold getFriendCommentFeed. run_feed H.
  destruct (Z.ltb_spec ((page - 1) * limit) 0); [nia|].
  destruct (Z.leb_spec limit 0); [lia|]. simpl.
  unfold friendCommentFeed. rewrite length_sortDesc, length_group.
  unfold countStage.
  now destruct (groupIds (friendCommentRows (User.friends x) s)).
Qed.

(** The requester is looked up before anything else; when the lookup finds
    nobody the three handlers stop on the undefined [AppError], with the
    store as it was. *)
Lemma feeds_without_requester s u qpage qlimit :
  find (hasId UserM u) (users s) = None ->
  getFeed u qpage qlimit s = (s, Next AppError_undefined) /\
  getFriendCommentFeed u qpage qlimit s = (s, Next AppError_undefined) /\
  getFriendLikedPosts u qpage qlimit s = (s, Next AppError_undefined).
Proof.
  intros H. unfold getFeed, getFriendCommentFeed, getFriendLikedPosts.
  run_handler. now rewrite H.
Qed.

(** C5, evaluated at a failing input. No user has identifier 9. Each feed
    handler then stops with the ReferenceError raised by the name [AppError],
    which the feed controller never imports; the error middleware answers
    500 to it, not the 404 of "User not found". The store is unchanged. *)
Theorem feeds_raise_ReferenceError :
  find (hasId UserM 9) (users town) = None /\
  getFeed 9 None None town
    = (town, Next (ReferenceError "AppError is not defined")) /\
  getFriendCommentFeed 9 None None town
    = (town, Next (ReferenceError "AppError is not defined")) /\
  getFriendLikedPosts 9 None None town
    = (town, Next (ReferenceError "AppError is not defined")) /\
  ErrorHandler (ReferenceError "AppError is not defined") = 500%Z /\
  ~ NotFound (ReferenceError "AppError is not defined").
Proof.
  split; [reflexivity|].
  destruct (@feeds_without_requester town 9 None None eq_refl) as [H1 [H2 H3]].
  repeat split; try assumption.
  intros [m E]. discriminate E.
Qed.

Lemma friendCommentFeed_authors s x g :
  authorsExist s ->
  In g (friendCommentFeed s x) ->
  exists u,
    find (fun u => User._id u =? Grouped.author g) (users s) = Some u.
Proof.
  intros AE Hg. unfold friendCommentFeed in Hg. apply In_sortDesc in Hg.
  destruct (group_members _ _ Hg) as [p [c [F G]]].
  apply find_some in F. destruct F as [Hpc _].
  apply In_friendCommentRows in Hpc. destruct Hpc as [Hp _].
  destruct (AE p Hp) as [a Ha]. exists a. rewrite G. exact Ha.
Qed.

Lemma friendCommentFeed_shown s x skip limit :
  uniqueIds s -> authorsExist s ->
  Forall2 (showGroup (users s))
    (window skip limit (friendCommentFeed s x))
    (map project
       (unwind
          (map (lookupAuthor (users s))
             (window skip limit (friendCommentFeed s x))))).
Proof.
  intros [NU _] AE. apply shown_groups; [assumption|].
  intros g Hg. apply In_window in Hg.
  now apply friendCommentFeed_authors with (x := x).
Qed.

(** X26. Pagination of the feeds. For an existing requester, a page number and
    a page size of at least 1, each feed (and the list of one's own posts)
    answers 200 with an envelope whose [count] is the length of the full
    ordered result, whose [totalPages] is the ceiling of [count / limit]
    (the integer [t] with [(t - 1) * limit < count <= t * limit]), whose
    items are the documents at offsets [(page - 1) * limit] to
    [(page - 1) * limit + limit - 1] of that result, and whose item list is
    empty when [page] exceeds [totalPages]. For the friend-comment feed the
    count, the page count and the empty page past the end hold on every
    store; that the items are those of the offsets needs unique identifiers
    and every post's author to reference an existing user, since the author
    join at the end of the pipeline keeps a document only then. *)
Theorem feed_pagination s u x page limit :
  find (hasId UserM u) (users s) = Some x ->
  (1 <= page)%Z -> (1 <= limit)%Z ->
  (exists body,
     getFeed u (Some page) (Some limit) s = (s, Json 200 body) /\
     pageOf (showPost (users s)) (directFeed s x) page limit body) /\
  (exists body,
     getFriendLikedPosts u (Some page) (Some limit) s = (s, Json 200 body) /\
     pageOf (showPost (users s)) (friendLikedFeed s x) page limit body) /\
  (exists body,
     getFriendCommentFeed u (Some page) (Some limit) s = (s, Json 200 body) /\
     pg_page body = page /\
     pg_count body = Z.of_nat (List.length (friendCommentFeed s x)) /\
     ((pg_totalPages body - 1) * limit < pg_count body
      /\ pg_count body <= pg_totalPages body * limit)%Z /\
     ((pg_totalPages body < page)%Z -> pg_data body = []) /\
     (uniqueIds s -> authorsExist s ->
      pageOf (showGroup (users s)) (friendCommentFeed s x) page limit body)) /\
  (exists body,
     getAllPosts u (Some page) (Some limit) s = (s, Json 200 body) /\
     pageOf eq (ownPosts s u) page limit body).
Proof.
  intros H P L. split; [|split; [|split]].
  - eexists. split; [exact (@getFeed_page s u x page limit H P L)|].
    apply pageOf_window; try assumption. apply shown_posts.
  - eexists. split; [exact (@getFriendLikedPosts_page s u x page limit H P L)|].
    apply pageOf_window; try assumption. apply shown_posts.
  - eexists. split; [exact (@getFriendCommentFeed_page s u x page limit H P L)|]. simpl.
    split; [reflexivity|]. split; [reflexivity|].
    split; [apply Math_ceil_div_spec; lia|]. split.
    + intros Past. rewrite window_past_end by (assumption || lia).
      reflexivity.
    + intros U AE. apply pageOf_window; try assumption.
      now apply friendCommentFeed_shown.
  - eexists. split; [exact (@getAllPosts_page s u page limit P L)|].
    apply pageOf_window; try assumption. apply Forall2_eq_refl.
Qed.

Lemma In_friendLikedFeed s x p :
  In p (friendLikedFeed s x) <->
  In p (posts s) /\
  (exists f, In f (Post.likedBy p) /\ In f (User.friends x)) /\
  ~ In (Post.author p) (User.friends x).
Proof.
  unfold friendLikedFeed, friendLikedQuery, op_in_array, op_nin.
  rewrite In_sortDesc, filter_In, andb_true_iff, existsb_exists,
    negb_true_iff, includes_not_In.
  split.
  - intros [Hp [[f [Hf Hi]] Hn]]. apply includes_In in Hi. eauto 6.
  - intros [Hp [[f [Hf Hi]] Hn]]. apply includes_In in Hi. eauto 6.
Qed.


Lemma In_unwind {A B} (a : A) (b : B) l :
  In (a, b) (unwind l) <-> exists bs, In (a, bs) l /\ In b bs.
Proof.
  unfold unwind. rewrite in_flat_map. split.
  - intros [[a' bs] [Hl Hb]]. simpl in Hb. apply in_map_iff in Hb.
    destruct Hb as [b' [E Hb']]. inversion E; subst. now exists bs.
  - intros [bs [Hl Hb]]. exists (a, bs). split; [assumption|].
    simpl. now apply in_map.
Qed.

Lemma NoDup_window {D} (l : list D) skip limit :
  NoDup l -> NoDup (window skip limit l).
Proof.
  intros ND. unfold window.
  rewrite <- (firstn_skipn (Z.to_nat skip) l) in ND.
  apply NoDup_app_remove_l in ND.
  rewrite <- (firstn_skipn (Z.to_nat limit) (skipn (Z.to_nat skip) l)) in ND.
  now apply NoDup_app_remove_r in ND.
Qed.

Lemma map_window {A B} (f : A -> B) skip limit l :
  map f (window skip limit l) = window skip limit (map f l).
Proof. unfold window. now rewrite <- firstn_map, <- skipn_map. Qed.

Lemma filter_of_find_none {A} (f : A -> bool) l :
  find f l = None -> filter f l = [].
Proof.
  induction l as [|y r IH]; simpl; [reflexivity|].
  destruct (f y); [discriminate|exact IH].
Qed.

Lemma joined_ids_from us W i :
  In i (map CommentedPost._id (map project (unwind (map (lookupAuthor us) W)))) ->
  In i (map Grouped._id W).
Proof.
  rewrite map_map. intros H. apply in_map_iff in H.
  destruct H as [[g a] [<- Hga]]. apply In_unwind in Hga.
  destruct Hga as [l [Hl _]]. apply in_map_iff in Hl.
  destruct Hl as [g' [E Hg]]. inversion E; subst. simpl. now apply in_map.
Qed.

(** With unique user identifiers the author join yields at most one
    document per group. *)
Lemma joined_ids_NoDup us W :
  NoDup (map User._id us) -> NoDup (map Grouped._id W) ->
  NoDup (map CommentedPost._id
           (map project (unwind (map (lookupAuthor us) W)))).
Proof.
  intros NU. induction W as [|g W IH]; simpl; intros ND; [constructor|].
  inversion ND as [|? ? Hg NDW]; subst.
  unfold unwind. simpl. fold (unwind (map (lookupAuthor us) W)).
  rewrite !map_app.
  destruct (find (fun u => User._id u =? Grouped.author g) us) as [a|] eqn:F.
  - rewrite (filter_unique_user _ _ NU F). simpl. constructor; [|now apply IH].
    intros H. apply Hg. now apply joined_ids_from with (us := us).
  - rewrite (filter_of_find_none _ _ F). simpl. now apply IH.
Qed.

(** X27. The friend-comment feed on a store with unique identifiers, for an
    existing requester. The feed ranges over exactly the posts whose author
    is not a friend of the requester and that are joined to at least one
    comment written by a friend; each such post occurs once, carries the
    comments joined to it that friends wrote and no other, and the list is
    ordered by decreasing creation time of the posts. Every post the
    handler returns is one of these, returned once, with its friend-written
    comments only and its author's document. When moreover the author of
    every post references an existing user, the handler returns the
    requested page of that list in full, and the whole list when it fits
    the first page. *)
Theorem friend_comment_feed s u x page limit :
  find (hasId UserM u) (users s) = Some x ->
  uniqueIds s ->
  (1 <= page)%Z -> (1 <= limit)%Z ->
  let friend := fun c => op_in (Comment.author c) (friendsOf s u) in
  (forall i,
     In i (map Grouped._id (friendCommentFeed s x)) <->
     exists p c,
       In p (posts s) /\ Post._id p = i /\
       ~ In (Post.author p) (friendsOf s u) /\
       In c (commentsOf s p) /\ In (Comment.author c) (friendsOf s u)) /\
  NoDup (map Grouped._id (friendCommentFeed s x)) /\
  (forall g,
     In g (friendCommentFeed s x) ->
     exists p,
       In p (posts s) /\ ~ In (Post.author p) (friendsOf s u) /\
       Grouped.comments g <> [] /\
       g = Grouped.mk (Post._id p) (Post.title p) (Post.content p)
             (Post.author p) (Post.createdAt p)
             (filter friend (commentsOf s p))) /\
  descending Grouped.createdAt (friendCommentFeed s x) /\
  exists body,
    getFriendCommentFeed u (Some page) (Some limit) s = (s, Json 200 body) /\
    pg_count body = Z.of_nat (List.length (friendCommentFeed s x)) /\
    NoDup (map CommentedPost._id (pg_data body)) /\
    (forall item,
       In item (pg_data body) ->
       exists p,
         In p (posts s) /\ CommentedPost._id item = Post._id p /\
         ~ In (Post.author p) (friendsOf s u) /\
         PublicUser._id (CommentedPost.author item) = Post.author p /\
         CommentedPost.comments item = filter friend (commentsOf s p) /\
         CommentedPost.comments item <> []) /\
    (authorsExist s ->
     pageOf (showGroup (users s)) (friendCommentFeed s x) page limit body /\
     (page = 1%Z ->
      (Z.of_nat (List.length (friendCommentFeed s x)) <= limit)%Z ->
      Forall2 (showGroup (users s)) (friendCommentFeed s x) (pg_data body))).
Proof.
  intros H U P L friend.
  assert (FO : friendsOf s u = User.friends x) by (unfold friendsOf; now rewrite H).
  unfold friend. rewrite FO.
  split; [intros i; apply friendCommentFeed_ids|].
  split; [apply friendCommentFeed_NoDup|].
  split; [intros g; apply friendCommentFeed_member, U|].
  split; [apply sortDesc_descending|].
  eexists. split; [exact (@getFriendCommentFeed_page s u x page limit H P L)|].
  simpl. split; [reflexivity|]. split; [|split].
  - apply joined_ids_NoDup; [exact (proj1 U)|].
    rewrite map_window. apply NoDup_window, friendCommentFeed_NoDup.
  - intros item Hi. apply in_map_iff in Hi. destruct Hi as [[g a] [<- Hga]].
    apply In_unwind in Hga. destruct Hga as [us [Hl Ha]].
    apply in_map_iff in Hl. destruct Hl as [g' [E Hg]].
    unfold lookupAuthor in E. inversion E; subst. clear E.
    apply In_window in Hg.
    destruct (@friendCommentFeed_member s x g (proj2 U) Hg) as [p [Hp [Hn [Hc G]]]].
    apply filter_In in Ha. destruct Ha as [_ Ha]. apply Nat.eqb_eq in Ha.
    exists p. rewrite G in Ha, Hc |- *. simpl in *. auto 7.
  - intros AE.
    pose proof (friendCommentFeed_shown x ((page - 1) * limit) limit U AE) as F.
    split; [now apply pageOf_window|].
    intros -> Fit. rewrite window_first_page in F |- * by assumption. exact F.
Qed.

(** ** The scenarios meet the hypotheses *)

Lemma town_alice : find (hasId UserM 1) (users town) = Some alice.
Proof. reflexivity. Defined.

Lemma town_uniqueIds : uniqueIds town.
Proof.
  split; vm_compute; repeat constructor; simpl; intuition discriminate.
Defined.

Lemma town_authorsExist : authorsExist town.
Proof.
  intros p Hp. vm_compute in Hp.
  destruct Hp as [<-|[<-|[<-|[]]]]; eexists; reflexivity.
Defined.

Lemma feed_pagination_witness :
  find (hasId UserM 1) (users town) = Some alice /\
  (1 <= 1)%Z /\ (1 <= 10)%Z /\ uniqueIds town /\ authorsExist town /\
  (exists body,
     getFeed 1 (Some 1%Z) (Some 10%Z) town = (town, Json 200 body) /\
     pageOf (showPost (users town)) (directFeed town alice) 1 10 body) /\
  (exists body,
     getFriendCommentFeed 1 (Some 1%Z) (Some 10%Z) town = (town, Json 200 body) /\
     pageOf (showGroup (users town)) (friendCommentFeed town alice) 1 10 body).
Proof.
  assert (P : (1 <= 1)%Z) by lia. assert (L : (1 <= 10)%Z) by lia.
  pose proof (@feed_pagination town 1 alice 1%Z 10%Z town_alice P L)
    as [HF [_ [HC _]]].
  split; [exact town_alice|]. split; [exact P|]. split; [exact L|].
  split; [exact town_uniqueIds|]. split; [exact town_authorsExist|].
  split; [exact HF|].
  destruct HC as [body [E [_ [_ [_ [_ HP]]]]]].
  exists body. split; [exact E|].
  exact (HP town_uniqueIds town_authorsExist).
Defined.


Lemma friend_comment_feed_witness :
  find (hasId UserM 1) (users town) = Some alice /\
  uniqueIds town /\ authorsExist town /\ (1 <= 1)%Z /\ (1 <= 10)%Z /\
  (forall i,
     In i (map Grouped._id (friendCommentFeed town alice)) <->
     exists p c,
       In p (posts town) /\ Post._id p = i /\
       ~ In (Post.author p) (friendsOf town 1) /\
       In c (commentsOf town p) /\ In (Comment.author c) (friendsOf town 1)) /\
  NoDup (map Grouped._id (friendCommentFeed town alice)) /\
  (exists body,
     getFriendCommentFeed 1 (Some 1%Z) (Some 10%Z) town = (town, Json 200 body) /\
     pageOf (showGroup (users town)) (friendCommentFeed town alice) 1 10 body).
Proof.
  assert (P : (1 <= 1)%Z) by lia. assert (L : (1 <= 10)%Z) by lia.
  pose proof (@friend_comment_feed town 1 alice 1%Z 10%Z town_alice
                town_uniqueIds P L) as [HI [HN [_ [_ [body [E [_ [_ [_ HP]]]]]]]]].
  split; [exact town_alice|]. split; [exact town_uniqueIds|].
  split; [exact town_authorsExist|]. split; [exact P|]. split; [exact L|].
  split; [exact HI|]. split; [exact HN|].
  exists body. split; [exact E|]. exact (proj1 (HP town_authorsExist)).
Defined.

Lemma deleteUser_cascade_witness :
  find (hasId UserM 2) (users town) = Some bob /\
  (forall p, In p (posts (fst (deleteUser 2 2 town))) ->
     Post.author p <> 2 /\ ~ In 2 (Post.likedBy p)) /\
  (forall y, In y (users (fst (deleteUser 2 2 town))) ->
     ~ In 2 (User.friends y)) /\
  (forall r, In r (friendrequests (fst (deleteUser 2 2 town))) ->
     FriendRequest.sender r <> 2 /\ FriendRequest.receiver r <> 2) /\
  (forall c, In c (comments (fst (deleteUser 2 2 town))) ->
     Comment.author c <> 2).
Proof.
  assert (H : find (hasId UserM 2) (users town) = Some bob) by reflexivity.
  pose proof (@deleteUser_cascade town 2 bob H) as [_ [HP [HU [HR [HC _]]]]].
  split; [exact H|]. split; [exact HP|]. split; [exact HU|].
  split; [exact HR|exact HC].
Defined.

(** ** The scenarios of the specification, run *)

(** Section 8, first scenario: Alice, whose only friend Bob wrote post 20,
    asks for page 1 of her feed with limit 10. *)
Example alice_direct_feed :
  exists items,
    snd (getFeed 1 (Some 1%Z) (Some 10%Z) town)
      = Json 200 (mkPaginated true items 1 1 1) /\
    map FeedPost._id items = [20].
Proof. eexists. split; reflexivity. Qed.

(** Second scenario: Carol's post 21 comes with Bob's comment 31 only, and
    her post 22, which no friend commented on, is left out. *)
Example alice_friend_comment_feed :
  exists items,
    snd (getFriendCommentFeed 1 None None town)
      = Json 200 (mkPaginated true items 1 1 1) /\
    map (fun i => (CommentedPost._id i,
                   map Comment._id (CommentedPost.comments i))) items
      = [(21, [31])].
Proof. eexists. split; reflexivity. Qed.

(** Third scenario: post 21, liked by Bob, is in Alice's friend-liked feed,
    and leaves it once Carol has become her friend. *)
Example alice_friend_liked_feed :
  (exists items,
     snd (getFriendLikedPosts 1 None None town)
       = Json 200 (mkPaginated true items 1 1 1) /\
     map FeedPost._id items = [21]) /\
  snd (getFriendLikedPosts 1 None None
         (fst (acceptFriendRequest 40
                 (fst (sendFriendRequest 1 (Some (canonical 3)) 40 2700 town)))))
    = Json 200 (mkPaginated true [] 0 1 0).
Proof. split; [eexists; split; reflexivity|reflexivity]. Qed.

(** ** Posts whose author has no user record *)

(** Such a post comes about through the handlers: the authentication
    middleware only verifies the token, and [createPost] does not look the
    author up. Carol's deletion of her account and her later post are both
    answered with success. *)
Example orphaned_post_is_accepted :
  snd (deleteUser 3 3 threeUsers)
    = Json 200 (mkEnvelope true tt [("message", "User deleted successfully")]) /\
  snd (createPost 3 (mkPostBody (Some (js "Carol here")) (Some (js "A stranger"))) 21 2500
         (fst (deleteUser 3 3 threeUsers)))
    = Json 201 (mkEnvelope true
                  (Post.mk 21 (js "Carol here") (js "A stranger") 3 [] [] 2500) []).
Proof. split; reflexivity. Qed.

(** C7, evaluated at a failing input. Carol, no friend of Alice, has deleted
    her account and then written post 21; Bob, Alice's friend, has commented
    on it. The post has an author outside Alice's friends and a comment by a
    friend, the feed lists it and the count pipeline counts it, yet the
    handler returns no item: [$unwind: "$author"] drops the post, because
    the author lookup finds nobody. *)
Theorem orphaned_post_counted_not_listed :
  find (hasId UserM 1) (users orphaned) = Some alice /\
  ~ userExists orphaned 3 /\
  map (fun p => (Post._id p, Post.author p, Post.comments p)) (posts orphaned)
    = [(21, 3, [31])] /\
  map (fun c => (Comment._id c, Comment.author c)) (comments orphaned)
    = [(31, 2)] /\
  map Grouped._id (friendCommentFeed orphaned alice) = [21] /\
  snd (getFriendCommentFeed 1 None None orphaned)
    = Json 200 (mkPaginated true [] 1 1 1).
Proof.
  split; [reflexivity|]. split; [|repeat split].
  intros [y Hy]. discriminate Hy.
Qed.

(** C4, evaluated at a failing input. Two strangers' posts have a comment by
    Alice's friend Bob: post 24, the newer, whose author has no user record
    any more, and Dave's post 23. With limit 1 the envelope announces 2
    posts on 2 pages, but page 1 comes back empty instead of holding the
    document at offset 0 of the ordered result: [$skip] and [$limit] select
    post 24 and the author join that follows drops it. Page 2 holds
    post 23. *)
Theorem orphaned_post_empties_page :
  find (hasId UserM 1) (users busy) = Some alice /\
  ~ userExists busy 3 /\
  map (fun g => (Grouped._id g, Grouped.author g, Grouped.createdAt g))
      (friendCommentFeed busy alice)
    = [(24, 3, 2800%Z); (23, 4, 2700%Z)] /\
  snd (getFriendCommentFeed 1 (Some 1%Z) (Some 1%Z) busy)
    = Json 200 (mkPaginated true [] 2 1 2) /\
  exists items,
    snd (getFriendCommentFeed 1 (Some 2%Z) (Some 1%Z) busy)
      = Json 200 (mkPaginated true items 2 2 2) /\
    map CommentedPost._id items = [23].
Proof.
  split; [reflexivity|]. split; [|repeat split].
  - intros [y Hy]. discriminate Hy.
  - eexists. split; reflexivity.
Qed.

(** * Further properties of the controllers *)

(** ** More facts about the store calls *)

Section UpdateAlgebra.
Variable D : Type.
Variable M : Model D.

Lemma updateOne_ext i (f g : D -> D) l :
  (forall d, In d l -> f d = g d) -> updateOne M i f l = updateOne M i g l.
Proof.
  induction l as [|d r IH]; simpl; intros H; [reflexivity|].
  destruct (hasId M i d).
  - now rewrite (H d (or_introl eq_refl)).
  - rewrite IH; [reflexivity|]. intros d' Hd'. apply H. now right.
Qed.

Lemma updateOne_fix i (f : D -> D) l :
  (forall d, In d l -> f d = d) -> updateOne M i f l = l.
Proof.
  induction l as [|d r IH]; simpl; intros H; [reflexivity|].
  destruct (hasId M i d).
  - now rewrite (H d (or_introl eq_refl)).
  - rewrite IH; [reflexivity|]. intros d' Hd'. apply H. now right.
Qed.

Lemma In_updateOne i (f : D -> D) l d' :
  In d' (updateOne M i f l) -> In d' l \/ exists d, In d l /\ d' = f d.
Proof.
  induction l as [|d r IH]; simpl; [tauto|].
  destruct (hasId M i d); simpl.
  - intros [<-|H]; [right; exists d; auto|left; now right].
  - intros [<-|H]; [left; now left|].
    destruct (IH H) as [H'|[d0 [H1 H2]]]; [left; now right|].
    right. exists d0. auto.
Qed.

Lemma Forall_updateOne (ok : D -> Prop) i (f : D -> D) l :
  (forall d, ok d -> ok (f d)) -> Forall ok l -> Forall ok (updateOne M i f l).
Proof.
  intros Hf Hl. apply Forall_forall. intros d' Hd'.
  rewrite Forall_forall in Hl.
  destruct (In_updateOne _ _ _ _ Hd') as [H|[d [H ->]]]; auto.
Qed.

Lemma In_removeOne i l d : In d (removeOne M i l) -> In d l.
Proof.
  induction l as [|x r IH]; simpl; [tauto|].
  destruct (hasId M i x); simpl; [now right|].
  intros [<-|H]; [now left|right; now apply IH].
Qed.

Lemma find_removeOne_other i j l :
  i <> j -> find (hasId M j) (removeOne M i l) = find (hasId M j) l.
Proof.
  intros N. induction l as [|x r IH]; simpl; [reflexivity|].
  destruct (hasId M i x) eqn:E; simpl.
  - unfold hasId in *. apply Nat.eqb_eq in E. rewrite E.
    destruct (Nat.eqb_spec i j); [contradiction|reflexivity].
  - now rewrite IH.
Qed.

Lemma find_absent_of_id i l :
  ~ In i (map (idOf M) l) -> find (hasId M i) l = None.
Proof.
  induction l as [|x r IH]; simpl; intros H; [reflexivity|].
  unfold hasId at 1. destruct (Nat.eqb_spec (idOf M x) i) as [E|_].
  - exfalso. auto.
  - apply IH. auto.
Qed.

Lemma find_removeOne_same i l :
  NoDup (map (idOf M) l) -> find (hasId M i) (removeOne M i l) = None.
Proof.
  induction l as [|x r IH]; simpl; intros ND; [reflexivity|].
  inversion ND as [|? ? Hx NDr]; subst.
  destruct (hasId M i x) eqn:E; simpl.
  - unfold hasId in E. apply Nat.eqb_eq in E. subst i.
    now apply find_absent_of_id.
  - rewrite E. now apply IH.
Qed.

Lemma find_snoc_fresh i l d :
  find (hasId M i) l = None -> idOf M d = i ->
  find (hasId M i) (l ++ [d]) = Some d.
Proof.
  intros H E. rewrite find_over_app, H. simpl. unfold hasId.
  now rewrite E, Nat.eqb_refl.
Qed.

Lemma find_snoc_other i l d :
  idOf M d <> i -> find (hasId M i) (l ++ [d]) = find (hasId M i) l.
Proof.
  intros N. rewrite find_over_app. destruct (find (hasId M i) l); [reflexivity|].
  simpl. unfold hasId. destruct (Nat.eqb_spec (idOf M d) i); [contradiction|].
  reflexivity.
Qed.

Lemma removeOne_snoc_fresh i l d :
  find (hasId M i) l = None -> idOf M d = i -> removeOne M i (l ++ [d]) = l.
Proof.
  intros H E. induction l as [|x r IH]; simpl in *.
  - unfold hasId. now rewrite E, Nat.eqb_refl.
  - destruct (hasId M i x); [discriminate|]. now rewrite IH.
Qed.

Lemma updateOne_snoc i f l d :
  idOf M d <> i ->
  updateOne M i f (l ++ [d]) = (updateOne M i f l ++ [d])%list.
Proof.
  intros N. induction l as [|x r IH]; simpl.
  - unfold hasId. destruct (Nat.eqb_spec (idOf M d) i); [contradiction|].
    reflexivity.
  - destruct (hasId M i x); [reflexivity|]. now rewrite IH.
Qed.

Lemma same_id_same_doc l a b :
  NoDup (map (idOf M) l) -> In a l -> In b l -> idOf M a = idOf M b -> a = b.
Proof.
  induction l as [|x r IH]; simpl; intros ND Ha Hb E; [destruct Ha|].
  inversion ND as [|? ? Hx NDr]; subst.
  destruct Ha as [->|Ha]; destruct Hb as [->|Hb]; auto.
  - exfalso. apply Hx. rewrite E. now apply in_map.
  - exfalso. apply Hx. rewrite <- E. now apply in_map.
Qed.

Section KeepId.
Variables f g : D -> D.
Hypothesis f_id : forall d, idOf M (f d) = idOf M d.
Hypothesis g_id : forall d, idOf M (g d) = idOf M d.

Lemma updateOne_compose i l :
  updateOne M i g (updateOne M i f l) = updateOne M i (fun d => g (f d)) l.
Proof.
  induction l as [|d r IH]; simpl; [reflexivity|].
  destruct (hasId M i d) eqn:E; simpl.
  - unfold hasId in *. now rewrite f_id, E.
  - now rewrite E, IH.
Qed.

Lemma updateOne_comm i j l :
  i <> j ->
  updateOne M i f (updateOne M j g l) = updateOne M j g (updateOne M i f l).
Proof.
  intros N. induction l as [|d r IH]; simpl; [reflexivity|].
  destruct (hasId M j d) eqn:Ej; destruct (hasId M i d) eqn:Ei; simpl.
  - unfold hasId in *. apply Nat.eqb_eq in Ej, Ei. congruence.
  - unfold hasId in *. now rewrite g_id, Ei, Ej.
  - unfold hasId in *. now rewrite f_id, Ei, Ej.
  - now rewrite Ei, Ej, IH.
Qed.

(** With unique identifiers, the document of identifier [i] in an updated
    collection is the update of one that was there. *)
Lemma In_updateOne_unique i l d' :
  NoDup (map (idOf M) l) ->
  In d' (updateOne M i f l) -> idOf M d' = i ->
  exists d, In d l /\ d' = f d.
Proof.
  induction l as [|d r IH]; simpl; intros ND Hd' E; [destruct Hd'|].
  inversion ND as [|? ? Hd NDr]; subst.
  destruct (hasId M (idOf M d') d) eqn:Ei; simpl in Hd'.
  - destruct Hd' as [<-|Hd']; [exists d; auto|].
    exfalso. apply Hd. unfold hasId in Ei. apply Nat.eqb_eq in Ei.
    rewrite Ei. now apply in_map.
  - destruct Hd' as [<-|Hd'].
    + unfold hasId in Ei. now rewrite Nat.eqb_refl in Ei.
    + destruct (IH NDr Hd' eq_refl) as [d0 [H1 H2]]. exists d0. auto.
Qed.
End KeepId.
End UpdateAlgebra.

Lemma addToSet_twice x l : addToSet x (addToSet x l) = addToSet x l.
Proof. apply addToSet_present. apply In_addToSet. now left. Qed.

Lemma pull_addToSet_absent x l : ~ In x l -> pull x (addToSet x l) = l.
Proof.
  intros H. unfold addToSet. pose proof H as H'.
  apply includes_not_In in H'. rewrite H'. now apply pull_push_absent.
Qed.

Lemma NoDup_pull x l : NoDup l -> NoDup (pull x l).
Proof. apply NoDup_filter. Qed.

Lemma NoDup_push_absent x l : ~ In x l -> NoDup l -> NoDup (push x l).
Proof.
  intros H ND. pose proof (NoDup_addToSet x ND) as N. unfold addToSet in N.
  apply includes_not_In in H. now rewrite H in N.
Qed.

Lemma set_friends_set_friends f g u :
  User.set_friends g (User.set_friends f u)
    = User.set_friends (fun l => g (f l)) u.
Proof. reflexivity. Qed.

Lemma set_friends_same f u :
  f (User.friends u) = User.friends u -> User.set_friends f u = u.
Proof. destruct u. unfold User.set_friends. simpl. now intros ->. Qed.

(** ** Accepting twice *)

(** X1. [acceptFriendRequest] is idempotent in every field of the documents
    but [updatedAt], which each update refreshes and the embedding leaves
    out: a second call with the same identifier gives the same status,
    message and request document as the first and leaves the users, posts,
    comments and friend requests the first one produced (the status stays
    accepted and [$addToSet] adds nothing); on a missing request both calls
    fail alike. *)
Theorem acceptFriendRequest_idempotent s id :
  acceptFriendRequest id (fst (acceptFriendRequest id s))
    = acceptFriendRequest id s.
Proof.
  destruct (find (hasId FriendRequestM id) (friendrequests s)) as [r|] eqn:F.
  - rewrite (acceptFriendRequest_found _ _ F). simpl.
    set (A := FriendRequest.sender r). set (B := FriendRequest.receiver r).
    set (us := users s).
    assert (F1 : find (hasId FriendRequestM id)
                   (updateOne FriendRequestM id (FriendRequest.set_status accepted)
                      (friendrequests s))
                 = Some (FriendRequest.set_status accepted r)).
    { rewrite (find_updateOne_same FriendRequestM _ (set_status_id accepted)), F.
      reflexivity. }
    rewrite (@acceptFriendRequest_found
               (mkStore _ (posts s) (comments s) _) id _ F1).
    simpl. fold A B. f_equal. f_equal.
    + destruct (Nat.eq_dec A B) as [E|N].
      * rewrite <- E.
        rewrite !(updateOne_compose UserM _ _ (set_friends_id _)).
        apply updateOne_ext. intros d _.
        rewrite !set_friends_set_friends. destruct d.
        unfold User.set_friends. simpl. now rewrite !addToSet_twice.
      * rewrite (updateOne_comm UserM _ _ (set_friends_id _) (set_friends_id _)
                   (i := A) (j := B)) by assumption.
        rewrite (updateOne_compose UserM _ _ (set_friends_id _)).
        rewrite (updateOne_compose UserM _ _ (set_friends_id _)).
        rewrite (updateOne_ext UserM B
                   (fun d => User.set_friends (addToSet A)
                               (User.set_friends (addToSet A) d))
                   (User.set_friends (addToSet A))).
        -- f_equal. apply updateOne_ext. intros d _.
           rewrite set_friends_set_friends. destruct d.
           unfold User.set_friends. simpl. now rewrite addToSet_twice.
        -- intros d _. rewrite set_friends_set_friends. destruct d.
           unfold User.set_friends. simpl. now rewrite addToSet_twice.
    + rewrite (updateOne_compose FriendRequestM _ _ (set_status_id accepted)).
      apply updateOne_ext. intros d _. reflexivity.
  - rewrite (acceptFriendRequest_missing _ _ F). simpl.
    apply (acceptFriendRequest_missing _ _ F).
Qed.

(** ** Sending, listing and answering friend requests *)

(** X2. The guards of [sendFriendRequest]: without a receiver it fails with
    404; with the sender's own identifier as [toString()] prints it, with
    400 (whether or not the sender has a record); with the identifier of a
    friend so printed, with 400; each time leaving the store as it was. The
    guards compare strings: a receiver spelled otherwise, such as the same
    digits in upper case, passes both, and for a sender with a record a
    pending request is created with 201 even when it addresses the sender
    or one of the sender's friends. Whatever the input, the handler changes
    no user, post or comment, and the friend requests are the former ones,
    followed at most by one pending request sent by the requester. *)
Theorem sendFriendRequest_guards s userId receiver newId now :
  sendFriendRequest userId None newId now s
    = (s, Next (AppError "Reciever not found" 404)) /\
  sendFriendRequest userId (Some (canonical userId)) newId now s
    = (s, Next (AppError "You cannot send a friend request to yourself" 400)) /\
  (forall r u,
     r <> userId -> find (hasId UserM userId) (users s) = Some u ->
     In r (User.friends u) ->
     sendFriendRequest userId (Some (canonical r)) newId now s
       = (s, Next (AppError "You are already friends" 400))) /\
  (forall r u,
     find (hasId UserM userId) (users s) = Some u ->
     sendFriendRequest userId (Some (respelled r)) newId now s
       = (mkStore (users s) (posts s) (comments s)
            (friendrequests s
               ++ [FriendRequest.mk newId userId r pending now]),
          Json 201 (mkEnvelope true
                      (FriendRequest.mk newId userId r pending now)
                      [("mesage", "Friend request sent")]))) /\
  users (fst (sendFriendRequest userId receiver newId now s)) = users s /\
  posts (fst (sendFriendRequest userId receiver newId now s)) = posts s /\
  comments (fst (sendFriendRequest userId receiver newId now s)) = comments s /\
  (friendrequests (fst (sendFriendRequest userId receiver newId now s))
     = friendrequests s
   \/ exists r,
        receiver = Some r /\
        friendrequests (fst (sendFriendRequest userId receiver newId now s))
          = (friendrequests s
               ++ [FriendRequest.mk newId userId (castId r) pending now])%list).
Proof.
  split; [reflexivity|]. split.
  { unfold sendFriendRequest. run_handler. now rewrite Nat.eqb_refl. }
  split.
  { intros r u N F I. unfold sendFriendRequest. run_handler.
    destruct (Nat.eqb_spec r userId); [contradiction|]. rewrite F. simpl.
    apply includes_In in I. now rewrite I. }
  split.
  { intros r u F. unfold sendFriendRequest. run_handler. rewrite F. simpl.
    pose proof (find_hasId UserM _ _ F) as E. simpl in E.
    unfold FriendRequest.create. now rewrite E. }
  unfold sendFriendRequest. run_handler.
  destruct receiver as [r|]; simpl; [|tauto].
  destruct (isCanonical r && (castId r =? userId)); simpl; [tauto|].
  destruct (find (hasId UserM userId) (users s)) as [u|] eqn:F; simpl; [|tauto].
  destruct (isCanonical r && includes (castId r) (User.friends u)); simpl;
    [tauto|].
  repeat split. right. exists r. split; [reflexivity|].
  pose proof (find_hasId UserM _ _ F) as E. simpl in E.
  unfold FriendRequest.create. now rewrite E.
Qed.

Lemma sendFriendRequest_guards_witness :
  2 <> 1 /\
  find (hasId UserM 1) (users afterAccept) = Some (newUser 1 "alice" [2]) /\
  In 2 (User.friends (newUser 1 "alice" [2])) /\
  sendFriendRequest 1 (Some (canonical 2)) 11 2000 afterAccept
    = (afterAccept, Next (AppError "You are already friends" 400)) /\
  statusOf (snd (sendFriendRequest 1 (Some (respelled 2)) 11 2000 afterAccept))
    = 201%Z /\
  statusOf (snd (sendFriendRequest 1 (Some (respelled 1)) 11 2000 afterAccept))
    = 201%Z.
Proof.
  assert (N : 2 <> 1) by discriminate.
  assert (I : In 2 (User.friends (newUser 1 "alice" [2]))) by (simpl; tauto).
  destruct (sendFriendRequest_guards afterAccept 1 None 11 2000)
    as [_ [_ [G [B _]]]].
  split; [exact N|]. split; [reflexivity|]. split; [exact I|].
  split; [exact (G 2 (newUser 1 "alice" [2]) N eq_refl I)|].
  split.
  - now rewrite (B 2 (newUser 1 "alice" [2]) eq_refl).
  - now rewrite (B 1 (newUser 1 "alice" [2]) eq_refl).
Defined.

Lemma friendrequests_after_accept s id :
  friendrequests (fst (acceptFriendRequest id s))
    = updateOne FriendRequestM id (FriendRequest.set_status accepted)
        (friendrequests s).
Proof.
  destruct (find (hasId FriendRequestM id) (friendrequests s)) as [r|] eqn:F.
  - now rewrite (acceptFriendRequest_found _ _ F).
  - rewrite (acceptFriendRequest_missing _ _ F). simpl.
    now rewrite (updateOne_absent FriendRequestM _ _ _ F).
Qed.

Lemma friendrequests_after_reject s id :
  friendrequests (fst (rejectFriendRequest id s))
    = updateOne FriendRequestM id (FriendRequest.set_status rejected)
        (friendrequests s).
Proof.
  destruct (find (hasId FriendRequestM id) (friendrequests s)) as [r|] eqn:F.
  - now rewrite (rejectFriendRequest_found _ _ F).
  - rewrite (rejectFriendRequest_missing _ _ F). simpl.
    now rewrite (updateOne_absent FriendRequestM _ _ _ F).
Qed.

Lemma In_listedRequests s u i :
  In i (listedRequests s u) <->
  exists r, In r (friendrequests s) /\ FriendRequest._id r = i /\
            FriendRequest.receiver r = u /\ FriendRequest.status r = pending.
Proof.
  unfold listedRequests, getFriendRequests. run_handler. unfold findMany.
  simpl. rewrite map_map. simpl. rewrite in_map_iff. split.
  - intros [r [E H]]. apply filter_In in H. destruct H as [H Q].
    apply andb_true_iff in Q. destruct Q as [Q1 Q2].
    apply Nat.eqb_eq in Q1. exists r. repeat split; try assumption.
    now destruct (FriendRequest.status r).
  - intros [r [H [E [Q1 Q2]]]]. exists r. split; [assumption|].
    apply filter_In. split; [assumption|].
    rewrite Q1, Q2, Nat.eqb_refl. reflexivity.
Qed.

Lemma friendrequests_after_send s userId receiver newId now u :
  find (hasId UserM userId) (users s) = Some u ->
  castId receiver <> userId ->
  ~ In (castId receiver) (User.friends u) ->
  fst (sendFriendRequest userId (Some receiver) newId now s)
    = mkStore (users s) (posts s) (comments s)
        (friendrequests s
           ++ [FriendRequest.mk newId userId (castId receiver) pending now]).
Proof.
  intros F N I. unfold sendFriendRequest. run_handler.
  destruct (Nat.eqb_spec (castId receiver) userId); [contradiction|].
  rewrite andb_false_r. rewrite F. simpl.
  apply includes_not_In in I. rewrite I, andb_false_r. simpl.
  pose proof (find_hasId UserM _ _ F) as E. simpl in E.
  unfold FriendRequest.create. now rewrite E.
Qed.

(** X3. [getFriendRequests] lists exactly the requests addressed to the
    requester that are still pending. A request that [sendFriendRequest]
    has just created under a fresh identifier is listed for its receiver
    and for nobody else, and the other entries of every list are as
    before. *)
Theorem sent_request_is_listed s userId receiver newId now u :
  find (hasId UserM userId) (users s) = Some u ->
  castId receiver <> userId ->
  ~ In (castId receiver) (User.friends u) ->
  ~ In newId (map FriendRequest._id (friendrequests s)) ->
  let s1 := fst (sendFriendRequest userId (Some receiver) newId now s) in
  (forall v, In newId (listedRequests s1 v) <-> v = castId receiver) /\
  (forall v i, i <> newId ->
     (In i (listedRequests s1 v) <-> In i (listedRequests s v))) /\
  forall v i,
    In i (listedRequests s v) <->
    exists r, In r (friendrequests s) /\ FriendRequest._id r = i /\
              FriendRequest.receiver r = v /\ FriendRequest.status r = pending.
Proof.
  intros F N I Fresh s1.
  assert (E : friendrequests s1
              = (friendrequests s
                   ++ [FriendRequest.mk newId userId (castId receiver)
                         pending now])%list).
  { unfold s1.
    now rewrite (@friendrequests_after_send s userId receiver newId now u F N I). }
  split; [|split; [|intros v i; apply In_listedRequests]].
  - intros v. rewrite In_listedRequests, E. split.
    + intros [r [H [Ei [Ev _]]]]. apply in_app_or in H.
      destruct H as [H|[<-|[]]]; [|now rewrite <- Ev].
      exfalso. apply Fresh. rewrite <- Ei. now apply in_map.
    + intros ->. exists (FriendRequest.mk newId userId (castId receiver)
                          pending now).
      repeat split. apply in_or_app. right. now left.
  - intros v i Ni. rewrite !In_listedRequests, E. split.
    + intros [r [H Q]]. apply in_app_or in H.
      destruct H as [H|[<-|[]]]; [now exists r|].
      simpl in Q. destruct Q as [Q _]. congruence.
    + intros [r [H Q]]. exists r. split; [|assumption].
      apply in_or_app. now left.
Qed.

Lemma sent_request_is_listed_witness :
  find (hasId UserM 1) (users twoStrangers) = Some (newUser 1 "alice" []) /\
  2 <> 1 /\ ~ In 2 (User.friends (newUser 1 "alice" [])) /\
  ~ In 10 (map FriendRequest._id (friendrequests twoStrangers)) /\
  In 10 (listedRequests
           (fst (sendFriendRequest 1 (Some (canonical 2)) 10 1000 twoStrangers))
           2) /\
  ~ In 10 (listedRequests
             (fst (sendFriendRequest 1 (Some (canonical 2)) 10 1000
                     twoStrangers)) 1).
Proof.
  assert (N : 2 <> 1) by discriminate.
  assert (I : ~ In 2 (User.friends (newUser 1 "alice" []))) by (simpl; tauto).
  assert (Fr : ~ In 10 (map FriendRequest._id (friendrequests twoStrangers)))
    by (simpl; tauto).
  split; [reflexivity|]. split; [exact N|]. split; [exact I|].
  split; [exact Fr|].
  pose proof (proj1 (@sent_request_is_listed twoStrangers 1 (canonical 2) 10
                       1000%Z (newUser 1 "alice" []) eq_refl N I Fr)) as H.
  split.
  - now apply H.
  - intros L. apply H in L. discriminate L.
Defined.

(** X4. With unique request identifiers, a request that has been accepted
    or rejected is listed for nobody any more. *)
Theorem answered_request_not_listed s id v :
  NoDup (map FriendRequest._id (friendrequests s)) ->
  ~ In id (listedRequests (fst (acceptFriendRequest id s)) v) /\
  ~ In id (listedRequests (fst (rejectFriendRequest id s)) v).
Proof.
  intros ND. split; intros H; apply In_listedRequests in H;
    destruct H as [r [Hr [E [_ P]]]].
  - rewrite friendrequests_after_accept in Hr.
    destruct (@In_updateOne_unique _ FriendRequestM
                (FriendRequest.set_status accepted) _ _ _ ND Hr E) as [d [_ ->]].
    discriminate P.
  - rewrite friendrequests_after_reject in Hr.
    destruct (@In_updateOne_unique _ FriendRequestM
                (FriendRequest.set_status rejected) _ _ _ ND Hr E) as [d [_ ->]].
    discriminate P.
Qed.

Lemma answered_request_not_listed_witness :
  NoDup (map FriendRequest._id
           (friendrequests
              (fst (sendFriendRequest 1 (Some (canonical 2)) 10 1000 twoStrangers)))) /\
  In 10 (listedRequests
           (fst (sendFriendRequest 1 (Some (canonical 2)) 10 1000 twoStrangers)) 2) /\
  ~ In 10 (listedRequests afterAccept 2) /\
  ~ In 10 (listedRequests afterReject 2).
Proof.
  assert (ND : NoDup (map FriendRequest._id
                        (friendrequests
                           (fst (sendFriendRequest 1 (Some (canonical 2)) 10 1000
                                   twoStrangers))))).
  { simpl. constructor; [simpl; tauto|constructor]. }
  split; [exact ND|]. split; [simpl; tauto|].
  exact (@answered_request_not_listed
           (fst (sendFriendRequest 1 (Some (canonical 2)) 10 1000 twoStrangers)) 10 2 ND).
Defined.

(** ** Unfriending *)

Lemma updateOne_fix_found {D} (M : Model D) i (f : D -> D) l :
  (forall d, find (hasId M i) l = Some d -> f d = d) -> updateOne M i f l = l.
Proof.
  induction l as [|d r IH]; simpl; intros H; [reflexivity|].
  destruct (hasId M i d).
  - now rewrite (H d eq_refl).
  - now rewrite IH.
Qed.

(** The friends array of [u] after one update of the friends of [a] and
    then one of the friends of [b]. *)
Lemma friends_after_two_updates us a b fa fb u :
  match find (hasId UserM u)
          (updateOne UserM b (User.set_friends fb)
             (updateOne UserM a (User.set_friends fa) us)) with
  | Some x => User.friends x
  | None => []
  end =
  match find (hasId UserM u) us with
  | Some x =>
      (if b =? u then fb else fun l => l)
        ((if a =? u then fa else fun l => l) (User.friends x))
  | None => []
  end.
Proof.
  destruct (Nat.eqb_spec b u) as [Eb|Eb]; destruct (Nat.eqb_spec a u) as [Ea|Ea];
    subst.
  - rewrite !(find_updateOne_same UserM _ (set_friends_id _)).
    now destruct (find (hasId UserM u) us).
  - rewrite (find_updateOne_same UserM _ (set_friends_id _)).
    rewrite (find_updateOne_other UserM _ (set_friends_id _)) by assumption.
    now destruct (find (hasId UserM u) us).
  - rewrite (find_updateOne_other UserM _ (set_friends_id _)) by assumption.
    rewrite (find_updateOne_same UserM _ (set_friends_id _)).
    now destruct (find (hasId UserM u) us).
  - rewrite !(find_updateOne_other UserM _ (set_friends_id _)) by assumption.
    reflexivity.
Qed.

Lemma unfriend_found s userId id u :
  find (hasId UserM userId) (users s) = Some u ->
  unfriend userId id s =
    (mkStore
       (updateOne UserM id (User.set_friends (pull userId))
          (updateOne UserM userId (User.set_friends (pull id)) (users s)))
       (posts s) (comments s) (friendrequests s),
     Json 200 (mkEnvelope true (User.set_friends (pull id) u)
                 [("message", "Unfriended successfully")])).
Proof.
  intros F. unfold unfriend. run_handler. rewrite F. simpl.
  pose proof (find_hasId UserM _ _ F) as E. simpl in E. now rewrite E.
Qed.

Lemma unfriend_missing s userId id :
  find (hasId UserM userId) (users s) = None ->
  unfriend userId id s = (s, Next (AppError "User not found" 404)).
Proof.
  intros F. unfold unfriend. run_handler. rewrite F. simpl.
  rewrite (updateOne_absent UserM _ _ _ F). now rewrite store_eta.
Qed.

Lemma friendsOf_unfriend s userId id u a b :
  find (hasId UserM userId) (users s) = Some u ->
  In a (friendsOf (fst (unfriend userId id s)) b) <->
  In a (friendsOf s b)
  /\ ~ (b = userId /\ a = id) /\ ~ (b = id /\ a = userId).
Proof.
  intros F. rewrite (unfriend_found _ _ _ F). unfold friendsOf. simpl.
  rewrite friends_after_two_updates.
  destruct (find (hasId UserM b) (users s)) as [x|]; [|simpl; tauto].
  destruct (Nat.eqb_spec id b) as [E1|N1];
    destruct (Nat.eqb_spec userId b) as [E2|N2];
    rewrite ?In_pull; subst; intuition congruence.
Qed.

(** X5. [unfriend] by an existing requester removes the other user from the
    requester's friends and the requester from the other user's friends,
    and nothing else from any friends array, so a symmetric friends
    relation stays symmetric; posts, comments and friend requests are
    untouched. A requester without a record gets 404 and the store is left
    as it was. *)
Theorem unfriend_both_sides s userId id u :
  find (hasId UserM userId) (users s) = Some u ->
  let s' := fst (unfriend userId id s) in
  statusOf (snd (unfriend userId id s)) = 200%Z /\
  ~ In id (friendsOf s' userId) /\
  ~ In userId (friendsOf s' id) /\
  (forall a b,
     In a (friendsOf s' b) <->
     In a (friendsOf s b)
     /\ ~ (b = userId /\ a = id) /\ ~ (b = id /\ a = userId)) /\
  (symmetricFriends s -> symmetricFriends s') /\
  posts s' = posts s /\ comments s' = comments s /\
  friendrequests s' = friendrequests s /\
  (forall j, find (hasId UserM j) (users s) = None ->
     unfriend j id s = (s, Next (AppError "User not found" 404))).
Proof.
  intros F s'. pose proof (fun a b => friendsOf_unfriend s userId id a b F) as Mem.
  fold s' in Mem.
  split; [now rewrite (unfriend_found _ _ _ F)|].
  split; [rewrite Mem; tauto|]. split; [rewrite Mem; tauto|].
  split; [exact Mem|]. split.
  - intros Sym a b. rewrite (Mem a b), (Mem b a), (Sym a b). tauto.
  - unfold s'. rewrite (unfriend_found _ _ _ F). simpl. repeat split.
    intros j Fj. now apply unfriend_missing.
Qed.

Lemma unfriend_both_sides_witness :
  find (hasId UserM 1) (users afterAccept) = Some (newUser 1 "alice" [2]) /\
  ~ In 2 (friendsOf (fst (unfriend 1 2 afterAccept)) 1) /\
  ~ In 1 (friendsOf (fst (unfriend 1 2 afterAccept)) 2).
Proof.
  split; [reflexivity|].
  pose proof (@unfriend_both_sides afterAccept 1 2 (newUser 1 "alice" [2]) eq_refl)
    as H.
  simpl in H. split; [exact (proj1 (proj2 H))|exact (proj1 (proj2 (proj2 H)))].
Defined.

(** X6. Unfriending undoes an acceptance: when the sender A and the receiver
    B of a request are different, A has a record and neither was in the
    other's friends, then accepting the request and letting A unfriend B
    gives back the users of the start, in the same order and equal in every
    field but [updatedAt], which each update refreshes and the embedding
    leaves out; so does letting B unfriend A when B has a record. *)
Theorem unfriend_undoes_accept s id r :
  find (hasId FriendRequestM id) (friendrequests s) = Some r ->
  let A := FriendRequest.sender r in
  let B := FriendRequest.receiver r in
  A <> B ->
  userExists s A ->
  ~ In B (friendsOf s A) ->
  ~ In A (friendsOf s B) ->
  users (fst (unfriend A B (fst (acceptFriendRequest id s)))) = users s /\
  (userExists s B ->
   users (fst (unfriend B A (fst (acceptFriendRequest id s)))) = users s).
Proof.
  intros F A B N [a Fa] NB NA.
  rewrite (acceptFriendRequest_found _ _ F). cbn [fst]. fold A B.
  set (us := users s) in *.
  set (U1 := updateOne UserM B (User.set_friends (addToSet A))
               (updateOne UserM A (User.set_friends (addToSet B)) us)).
  assert (back :
    updateOne UserM B (fun d => User.set_friends (pull A)
                                  (User.set_friends (addToSet A) d))
      (updateOne UserM A (fun d => User.set_friends (pull B)
                                     (User.set_friends (addToSet B) d)) us)
    = us).
  { assert (E1 : updateOne UserM A
                   (fun d => User.set_friends (pull B)
                               (User.set_friends (addToSet B) d)) us = us).
    { apply updateOne_fix_found. intros d Fd.
      rewrite set_friends_set_friends. apply set_friends_same.
      apply pull_addToSet_absent. unfold friendsOf in NB. fold us in NB.
      now rewrite Fd in NB. }
    rewrite E1. apply updateOne_fix_found. intros d Fd.
    rewrite set_friends_set_friends. apply set_friends_same.
    apply pull_addToSet_absent.
    unfold friendsOf in NA. fold us in NA. now rewrite Fd in NA. }
  split.
  - assert (FA : find (hasId UserM A) U1
                 = Some (User.set_friends (addToSet B) a)).
    { unfold U1.
      rewrite (find_updateOne_other UserM _ (set_friends_id _)) by congruence.
      rewrite (find_updateOne_same UserM _ (set_friends_id _)).
      fold us in Fa. now rewrite Fa. }
    rewrite (@unfriend_found (mkStore U1 (posts s) (comments s) _) A B _ FA).
    simpl. unfold U1.
    rewrite (updateOne_comm UserM _ _ (set_friends_id _) (set_friends_id _)
               (i := A) (j := B)) by assumption.
    rewrite (updateOne_compose UserM _ _ (set_friends_id _)).
    rewrite (updateOne_compose UserM _ _ (set_friends_id _)).
    exact back.
  - intros [b Fb].
    assert (FB : find (hasId UserM B) U1
                 = Some (User.set_friends (addToSet A) b)).
    { unfold U1.
      rewrite (find_updateOne_same UserM _ (set_friends_id _)).
      rewrite (find_updateOne_other UserM _ (set_friends_id _)) by assumption.
      fold us in Fb. now rewrite Fb. }
    rewrite (@unfriend_found (mkStore U1 (posts s) (comments s) _) B A _ FB).
    simpl. unfold U1.
    rewrite (updateOne_compose UserM _ _ (set_friends_id _)).
    rewrite (updateOne_comm UserM (User.set_friends (pull B))
               (fun d => User.set_friends (pull A)
                           (User.set_friends (addToSet A) d))
               (set_friends_id _) (fun d => eq_refl) (i := A) (j := B))
      by assumption.
    rewrite (updateOne_compose UserM _ _ (set_friends_id _)).
    exact back.
Qed.

Lemma unfriend_undoes_accept_witness :
  find (hasId FriendRequestM 10)
    (friendrequests (fst (sendFriendRequest 1 (Some (canonical 2)) 10 1000 twoStrangers)))
    = Some (FriendRequest.mk 10 1 2 pending 1000) /\
  1 <> 2 /\
  userExists (fst (sendFriendRequest 1 (Some (canonical 2)) 10 1000 twoStrangers)) 1 /\
  users (fst (unfriend 1 2 afterAccept)) = users twoStrangers.
Proof.
  assert (N : 1 <> 2) by discriminate.
  assert (X : userExists (fst (sendFriendRequest 1 (Some (canonical 2)) 10 1000 twoStrangers)) 1)
    by (eexists; reflexivity).
  split; [reflexivity|]. split; [exact N|]. split; [exact X|].
  refine (proj1 (@unfriend_undoes_accept
                   (fst (sendFriendRequest 1 (Some (canonical 2)) 10 1000 twoStrangers))
                   10 (FriendRequest.mk 10 1 2 pending 1000) eq_refl N X _ _));
    simpl; tauto.
Defined.

(** ** Posts and comments: creation, deletion and missing documents *)

Lemma set_comments_id f p :
  idOf PostM (Post.set_comments f p) = idOf PostM p.
Proof. reflexivity. Qed.

Lemma set_posts_id f u : idOf UserM (User.set_posts f u) = idOf UserM u.
Proof. reflexivity. Qed.

Lemma set_comments_set_comments f g p :
  Post.set_comments g (Post.set_comments f p)
    = Post.set_comments (fun l => g (f l)) p.
Proof. reflexivity. Qed.

Lemma set_posts_set_posts f g u :
  User.set_posts g (User.set_posts f u) = User.set_posts (fun l => g (f l)) u.
Proof. reflexivity. Qed.

Lemma set_comments_same f p :
  f (Post.comments p) = Post.comments p -> Post.set_comments f p = p.
Proof. destruct p. unfold Post.set_comments. simpl. now intros ->. Qed.

Lemma set_posts_same f u :
  f (User.posts u) = User.posts u -> User.set_posts f u = u.
Proof. destruct u. unfold User.set_posts. simpl. now intros ->. Qed.

Lemma filter_all {A} (f : A -> bool) l :
  (forall x, In x l -> f x = true) -> filter f l = l.
Proof.
  induction l as [|x r IH]; simpl; intros H; [reflexivity|].
  rewrite (H x (or_introl eq_refl)). f_equal. apply IH. auto.
Qed.

Lemma createPost_valid s userId body newId now :
  validPostBody body = true ->
  exists t c,
    body_title body = Some t /\ body_content body = Some c /\
    createPost userId body newId now s =
      (mkStore
         (updateOne UserM userId (User.set_posts (addToSet newId)) (users s))
         (posts s ++ [Post.mk newId (trim t) (trim c) userId [] [] now])
         (comments s) (friendrequests s),
       Json 201 (mkEnvelope true
                   (Post.mk newId (trim t) (trim c) userId [] [] now) [])).
Proof.
  unfold validPostBody, createPost.
  destruct (body_title body) as [t|]; [|discriminate].
  destruct (body_content body) as [c|]; [|discriminate].
  intros V. apply andb_true_iff in V. destruct V as [V1 V2].
  exists t, c. split; [reflexivity|]. split; [reflexivity|].
  run_handler. unfold validate, failingPaths. simpl. rewrite V1, V2. reflexivity.
Qed.

Lemma createPost_invalid s userId body newId now :
  validPostBody body = false ->
  exists paths,
    createPost userId body newId now s = (s, Next (ValidationError paths)).
Proof.
  unfold validPostBody, createPost. run_handler.
  unfold validate, failingPaths. simpl.
  destruct (body_title body) as [t|]; destruct (body_content body) as [c|];
    simpl; intros V;
    try destruct (lengthBetween 3 120 (trim t));
    try destruct (lengthBetween 3 2000 (trim c));
    try discriminate; simpl; eexists; reflexivity.
Qed.

Lemma createComment_valid s userId id content newId now :
  validContent content = true ->
  exists c,
    content = Some c /\
    createComment userId id content newId now s =
      (mkStore (users s)
         (updateOne PostM id (Post.set_comments (addToSet newId)) (posts s))
         (comments s ++ [Comment.mk newId (trim c) userId id [] now])
         (friendrequests s),
       Json 201 (mkEnvelope true
                   (Comment.mk newId (trim c) userId id [] now) [])).
Proof.
  unfold validContent, createComment. destruct content as [c|]; [|discriminate].
  intros V. exists c. split; [reflexivity|].
  run_handler. unfold validate, failingPaths. simpl. now rewrite V.
Qed.

Lemma createComment_invalid s userId id content newId now :
  validContent content = false ->
  createComment userId id content newId now s
    = (s, Next (ValidationError ["content"])).
Proof.
  unfold validContent, createComment. run_handler.
  unfold validate, failingPaths. simpl.
  destruct content as [c|]; simpl; intros V; [now rewrite V|reflexivity].
Qed.

Lemma deleteComment_own s userId id cid p c :
  find (hasId PostM id) (posts s) = Some p ->
  find (hasId CommentM cid) (comments s) = Some c ->
  Comment.author c = userId ->
  deleteComment userId id cid s =
    (mkStore (users s)
       (updateOne PostM (Comment.post c)
          (Post.set_comments (pull (Comment._id c))) (posts s))
       (removeOne CommentM cid (comments s))
       (friendrequests s),
     Json 200 (mkEnvelope true c [])).
Proof.
  intros Fp Fc A. unfold deleteComment. run_handler. rewrite Fp, Fc.
  rewrite A, Nat.eqb_refl. reflexivity.
Qed.

Lemma deletePost_own s userId id p :
  find (hasId PostM id) (posts s) = Some p ->
  Post.author p = userId ->
  deletePost userId id s =
    (mkStore
       (updateOne UserM userId (User.set_posts (pull id)) (users s))
       (removeOne PostM id (posts s))
       (filter (fun c => negb (Comment.post c =? id)) (comments s))
       (friendrequests s),
     Json 200 (mkEnvelope true p [])).
Proof.
  intros F A. unfold deletePost. run_handler. rewrite F.
  rewrite A, Nat.eqb_refl. simpl.
  pose proof (find_hasId PostM _ _ F) as E. simpl in E. now rewrite E.
Qed.

(** X7. A post handler given an identifier that matches no post, and a
    comment handler given one that matches no comment, fails with 404 and
    leaves the store as it was. *)
Theorem missing_document_is_404 s userId :
  (forall id,
     find (hasId PostM id) (posts s) = None ->
     (forall body, updatePost userId id body s
                   = (s, Next (AppError "Post not found" 404))) /\
     deletePost userId id s = (s, Next (AppError "Post not found" 404)) /\
     toggleLikePost userId id s = (s, Next (AppError "Post not found" 404)) /\
     getPost id s = (s, Next (AppError "Post not found" 404)) /\
     (forall cid, deleteComment userId id cid s
                  = (s, Next (AppError "Comment not found" 404)))) /\
  (forall cid,
     find (hasId CommentM cid) (comments s) = None ->
     (forall content, updateComment userId cid content s
                      = (s, Next (AppError "Comment not found" 404))) /\
     toggleLikeComment userId cid s
       = (s, Next (AppError "Comment not found" 404)) /\
     (forall id, deleteComment userId id cid s
                 = (s, Next (AppError "Comment not found" 404)))).
Proof.
  split.
  - intros id F. repeat split; try intros ?;
      unfold updatePost, deletePost, toggleLikePost, getPost, deleteComment;
      run_handler; rewrite F; simpl; try reflexivity.
    now destruct (find (hasId CommentM cid) (comments s)).
  - intros cid F. repeat split; try intros ?;
      unfold updateComment, toggleLikeComment, deleteComment;
      run_handler; rewrite F; reflexivity.
Qed.

Lemma missing_document_is_404_witness :
  find (hasId PostM 99) (posts withLikes) = None /\
  find (hasId CommentM 98) (comments withLikes) = None /\
  toggleLikePost 1 99 withLikes
    = (withLikes, Next (AppError "Post not found" 404)) /\
  toggleLikeComment 1 98 withLikes
    = (withLikes, Next (AppError "Comment not found" 404)).
Proof.
  split; [reflexivity|]. split; [reflexivity|].
  pose proof (missing_document_is_404 withLikes 1) as [HP HC].
  split.
  - exact (proj1 (proj2 (proj2 (HP 99 eq_refl)))).
  - exact (proj1 (proj2 (HC 98 eq_refl))).
Defined.

(** X8. Creating a comment and deleting it again gives back the store: for
    an existing post, a content that passes the validators and an
    identifier that no comment has and the post does not list, the author's
    [deleteComment] after [createComment] restores every collection, each
    document equal in every field but the [updatedAt] of the post, which
    [$addToSet] and [$pull] refresh and the embedding leaves out; the two
    calls answer 201 and 200. *)
Theorem comment_created_then_deleted s userId id content newId now p :
  find (hasId PostM id) (posts s) = Some p ->
  validContent content = true ->
  find (hasId CommentM newId) (comments s) = None ->
  ~ In newId (Post.comments p) ->
  let s1 := fst (createComment userId id content newId now s) in
  statusOf (snd (createComment userId id content newId now s)) = 201%Z /\
  statusOf (snd (deleteComment userId id newId s1)) = 200%Z /\
  fst (deleteComment userId id newId s1) = s.
Proof.
  intros Fp V Fc Nc s1.
  destruct (createComment_valid s userId id content newId now V) as [c [-> E]].
  unfold s1. rewrite E. cbn [fst snd statusOf].
  set (cm := Comment.mk newId (trim c) userId id [] now).
  assert (Fp1 : find (hasId PostM id)
                  (updateOne PostM id (Post.set_comments (addToSet newId))
                     (posts s))
                = Some (Post.set_comments (addToSet newId) p)).
  { rewrite (find_updateOne_same PostM _ (set_comments_id _)), Fp. reflexivity. }
  assert (Fc1 : find (hasId CommentM newId) (comments s ++ [cm]) = Some cm).
  { now apply find_snoc_fresh. }
  rewrite (@deleteComment_own (mkStore _ _ _ _) userId id newId _ cm Fp1 Fc1 eq_refl).
  cbn [fst snd statusOf users posts comments friendrequests].
  split; [reflexivity|]. split; [reflexivity|].
  change (Comment.post cm) with id. change (Comment._id cm) with newId.
  rewrite (updateOne_compose PostM _ _ (set_comments_id _)).
  rewrite (removeOne_snoc_fresh CommentM (comments s) cm Fc eq_refl).
  rewrite updateOne_fix_found; [apply store_eta|].
  intros d Fd. rewrite Fp in Fd. inversion Fd; subst d.
  rewrite set_comments_set_comments. apply set_comments_same.
  now apply pull_addToSet_absent.
Qed.

Lemma comment_created_then_deleted_witness :
  find (hasId PostM 20) (posts withLikes) = Some likedPost /\
  validContent (Some (js "Well said")) = true /\
  find (hasId CommentM 31) (comments withLikes) = None /\
  ~ In 31 (Post.comments likedPost) /\
  fst (deleteComment 2 20 31
         (fst (createComment 2 20 (Some (js "Well said")) 31 4000 withLikes)))
    = withLikes.
Proof.
  assert (N : ~ In 31 (Post.comments likedPost)).
  { simpl. intros [H|[]]. discriminate H. }
  split; [reflexivity|]. split; [reflexivity|]. split; [reflexivity|].
  split; [exact N|].
  exact (proj2 (proj2 (@comment_created_then_deleted withLikes 2 20
                         (Some (js "Well said")) 31 4000%Z likedPost
                         eq_refl eq_refl eq_refl N))).
Defined.

(** X9. Creating a post and deleting it again gives back the store: for a
    body of a title and a content that pass the validators and an
    identifier that no post has, the
    author does not list and no comment points to, the author's
    [deletePost] after [createPost] restores every collection, each
    document equal in every field but the [updatedAt] of the author, which
    [$addToSet] and [$pull] refresh and the embedding leaves out; the two
    calls answer 201 and 200. *)
Theorem post_created_then_deleted s userId body newId now :
  validPostBody body = true ->
  find (hasId PostM newId) (posts s) = None ->
  (forall u, find (hasId UserM userId) (users s) = Some u ->
             ~ In newId (User.posts u)) ->
  (forall c, In c (comments s) -> Comment.post c <> newId) ->
  let s1 := fst (createPost userId body newId now s) in
  statusOf (snd (createPost userId body newId now s)) = 201%Z /\
  statusOf (snd (deletePost userId newId s1)) = 200%Z /\
  fst (deletePost userId newId s1) = s.
Proof.
  intros V Fp Nu Nc s1.
  destruct (createPost_valid s userId body newId now V) as [t [c [_ [_ E]]]].
  unfold s1. rewrite E. cbn [fst snd statusOf].
  set (p := Post.mk newId (trim t) (trim c) userId [] [] now).
  assert (Fp1 : find (hasId PostM newId) (posts s ++ [p]) = Some p).
  { now apply find_snoc_fresh. }
  rewrite (@deletePost_own (mkStore _ _ _ _) userId newId p Fp1 eq_refl).
  cbn [fst snd statusOf users posts comments friendrequests].
  split; [reflexivity|]. split; [reflexivity|].
  rewrite (updateOne_compose UserM _ _ (set_posts_id _)).
  rewrite (removeOne_snoc_fresh PostM (posts s) p Fp eq_refl).
  rewrite filter_all.
  2:{ intros x Hx. apply negb_true_iff, Nat.eqb_neq. now apply Nc. }
  rewrite updateOne_fix_found; [apply store_eta|].
  intros d Fd. rewrite set_posts_set_posts. apply set_posts_same.
  apply pull_addToSet_absent. now apply Nu.
Qed.

Lemma post_created_then_deleted_witness :
  fst (deletePost 1 25
         (fst (createPost 1 (mkPostBody (Some (js "  Hello  ")) (Some (js "A first post")))
                 25 5000 withLikes)))
    = withLikes.
Proof.
  refine (proj2 (proj2 (@post_created_then_deleted withLikes 1
                          (mkPostBody (Some (js "  Hello  ")) (Some (js "A first post")))
                          25 5000%Z eq_refl eq_refl _ _))).
  - intros u F. vm_compute in F. inversion F; subst u. simpl.
    intuition discriminate.
  - intros c H. simpl in H. destruct H as [<-|[]]. simpl. discriminate.
Defined.

(** X10. [createComment] never looks the post up: with a content that
    passes the validators and an identifier that matches no post, it
    answers 201 and stores a comment that points to the missing post; users,
    posts and friend requests are as before, and [getPost] on that
    identifier still answers 404. *)
Theorem createComment_unchecked_post s userId id content newId now :
  validContent content = true ->
  find (hasId PostM id) (posts s) = None ->
  let s1 := fst (createComment userId id content newId now s) in
  statusOf (snd (createComment userId id content newId now s)) = 201%Z /\
  (exists cm,
     comments s1 = (comments s ++ [cm])%list /\
     Comment._id cm = newId /\ Comment.post cm = id /\
     Comment.author cm = userId /\ Comment.likedBy cm = []) /\
  users s1 = users s /\ posts s1 = posts s /\
  friendrequests s1 = friendrequests s /\
  statusOf (snd (getPost id s1)) = 404%Z.
Proof.
  intros V F s1.
  destruct (createComment_valid s userId id content newId now V) as [c [-> E]].
  unfold s1. rewrite E. cbn [fst snd statusOf users posts comments friendrequests].
  rewrite (updateOne_absent PostM _ _ _ F).
  split; [reflexivity|]. split.
  { eexists. split; [reflexivity|]. now repeat split. }
  repeat split.
  unfold getPost. run_handler. rewrite F. reflexivity.
Qed.

Lemma createComment_unchecked_post_witness :
  find (hasId PostM 77) (posts withLikes) = None /\
  statusOf (snd (createComment 2 77 (Some (js "Into the void")) 31 4000 withLikes))
    = 201%Z.
Proof.
  split; [reflexivity|].
  exact (proj1 (@createComment_unchecked_post withLikes 2 77
                  (Some (js "Into the void")) 31 4000%Z eq_refl eq_refl)).
Defined.

(** X11. The author's [deletePost] on an existing post answers 200 with
    the post and cascades: no comment of the post is left while the comments
    of other posts stay; the author's [posts] array no longer holds the
    identifier; every other post is found as before, and the post itself is
    gone when post identifiers are unique; friend requests are untouched. *)
Theorem deletePost_cascade s userId id p :
  find (hasId PostM id) (posts s) = Some p ->
  Post.author p = userId ->
  let s1 := fst (deletePost userId id s) in
  snd (deletePost userId id s) = Json 200 (mkEnvelope true p []) /\
  (forall c, In c (comments s1) <-> In c (comments s) /\ Comment.post c <> id) /\
  (forall u, find (hasId UserM userId) (users s1) = Some u ->
             ~ In id (User.posts u)) /\
  (forall j, j <> id ->
             find (hasId PostM j) (posts s1) = find (hasId PostM j) (posts s)) /\
  (NoDup (map Post._id (posts s)) -> find (hasId PostM id) (posts s1) = None) /\
  friendrequests s1 = friendrequests s.
Proof.
  intros F A s1. unfold s1. rewrite (@deletePost_own s userId id p F A).
  cbn [fst snd users posts comments friendrequests].
  split; [reflexivity|]. split.
  { intros c. rewrite filter_In, negb_true_iff, Nat.eqb_neq. tauto. }
  split.
  { intros u. rewrite (find_updateOne_same UserM _ (set_posts_id _)).
    destruct (find (hasId UserM userId) (users s)) as [u0|]; [|discriminate].
    simpl. intros H. inversion H. simpl. intros I. apply In_pull in I. tauto. }
  split.
  { intros j N. apply find_removeOne_other. congruence. }
  split; [|reflexivity].
  intros ND. now apply find_removeOne_same.
Qed.

Lemma deletePost_cascade_witness :
  find (hasId PostM 20) (posts withLikes) = Some likedPost /\
  Post.author likedPost = 2 /\
  comments (fst (deletePost 2 20 withLikes)) = [].
Proof.
  split; [reflexivity|]. split; [reflexivity|].
  pose proof (proj1 (proj2 (@deletePost_cascade withLikes 2 20 likedPost
                              eq_refl eq_refl))) as H.
  destruct (comments (fst (deletePost 2 20 withLikes))) as [|c r] eqn:E;
    [reflexivity|].
  exfalso. destruct (proj1 (H c) (or_introl eq_refl)) as [I N].
  simpl in I. destruct I as [<-|[]]. now apply N.
Defined.

(** X12. Input that fails the schema validators is answered with 400 and
    nothing is written: [createPost] with a title or content that is
    missing or, once trimmed, outside its length bounds; [createComment]
    likewise; and the owner's [updatePost] and [updateComment] when a field
    they carry is outside its bounds. *)
Theorem rejected_input_changes_nothing s userId :
  (forall body newId now,
     validPostBody body = false ->
     fst (createPost userId body newId now s) = s /\
     statusOf (snd (createPost userId body newId now s)) = 400%Z) /\
  (forall id content newId now,
     validContent content = false ->
     fst (createComment userId id content newId now s) = s /\
     statusOf (snd (createComment userId id content newId now s)) = 400%Z) /\
  (forall id p body,
     find (hasId PostM id) (posts s) = Some p ->
     Post.author p = userId ->
     (exists t, body_title body = Some t /\
                lengthBetween 3 120 (trim t) = false) \/
     (exists c, body_content body = Some c /\
                lengthBetween 3 2000 (trim c) = false) ->
     fst (updatePost userId id body s) = s /\
     statusOf (snd (updatePost userId id body s)) = 400%Z) /\
  (forall cid c t,
     find (hasId CommentM cid) (comments s) = Some c ->
     Comment.author c = userId ->
     lengthBetween 3 2000 (trim t) = false ->
     fst (updateComment userId cid (Some t) s) = s /\
     statusOf (snd (updateComment userId cid (Some t) s)) = 400%Z).
Proof.
  split; [|split; [|split]].
  - intros body newId now V.
    destruct (createPost_invalid s userId body newId now V) as [paths ->].
    now split.
  - intros id content newId now V. rewrite (createComment_invalid _ _ _ _ _ _ V).
    now split.
  - intros id p body F A B. unfold updatePost. run_handler. rewrite F.
    rewrite A, Nat.eqb_refl. simpl. unfold validate, failingPaths. simpl.
    destruct B as [[t [-> L]]|[c [-> L]]]; rewrite L.
    + destruct (body_content body) as [c|];
        [destruct (lengthBetween 3 2000 (trim c))|]; simpl; now split.
    + simpl. now split.
  - intros cid c t F A L. unfold updateComment. run_handler. rewrite F.
    rewrite A, Nat.eqb_refl. simpl. unfold validate, failingPaths. simpl.
    rewrite L. simpl. now split.
Qed.

Example trim_padded : trim padded = js "ab".
Proof. reflexivity. Qed.

Lemma rejected_input_changes_nothing_witness :
  validPostBody (mkPostBody (Some padded) (Some (js "A first post"))) = false /\
  fst (createPost 1 (mkPostBody (Some padded) (Some (js "A first post")))
         25 5000 withLikes) = withLikes /\
  find (hasId CommentM 30) (comments withLikes) = Some plainComment /\
  Comment.author plainComment = 1 /\
  lengthBetween 3 2000 (trim (js "  x ")) = false /\
  fst (updateComment 1 30 (Some (js "  x ")) withLikes) = withLikes.
Proof.
  destruct (rejected_input_changes_nothing withLikes 1) as [H1 [_ [_ H4]]].
  split; [reflexivity|]. split.
  { exact (proj1 (H1 (mkPostBody (Some padded) (Some (js "A first post")))
                     25 5000%Z eq_refl)). }
  split; [reflexivity|]. split; [reflexivity|]. split; [reflexivity|].
  exact (proj1 (H4 30 plainComment (js "  x ") eq_refl eq_refl eq_refl)).
Defined.




(** ** Accounts *)

(** X14. Only the owner may change or delete an account: for an existing
    user other than the requester, [updateUser] and [deleteUser] fail with
    403 and leave the store as it was; for an identifier without a user
    record they, [getUser] and [getFriends] fail with 404 "User not
    found", again without writing. *)
Theorem account_ownership s actor id :
  (forall u,
     find (hasId UserM id) (users s) = Some u ->
     id <> actor ->
     (forall body,
        updateUser actor id body s
          = (s, Next (AppError "You are not authorized to update this user" 403))) /\
     deleteUser actor id s
       = (s, Next (AppError "You are not authorized to delete this user" 403))) /\
  (find (hasId UserM id) (users s) = None ->
     (forall body,
        updateUser actor id body s = (s, Next (AppError "User not found" 404))) /\
     deleteUser actor id s = (s, Next (AppError "User not found" 404)) /\
     getUser id s = (s, Next (AppError "User not found" 404)) /\
     getFriends id s = (s, Next (AppError "User not found" 404))).
Proof.
  split.
  - intros u F N.
    pose proof (find_hasId UserM _ _ F) as E. simpl in E.
    assert (B : negb (User._id u =? actor) = true).
    { apply negb_true_iff, Nat.eqb_neq. congruence. }
    split; [intros body|]; unfold updateUser, deleteUser; run_handler;
      rewrite F, B; reflexivity.
  - intros F. repeat split; try intros body;
      unfold updateUser, deleteUser, getUser, getFriends; run_handler;
      rewrite F; reflexivity.
Qed.

Lemma account_ownership_witness :
  deleteUser 1 2 withLikes
    = (withLikes,
       Next (AppError "You are not authorized to delete this user" 403)) /\
  getFriends 9 withLikes = (withLikes, Next (AppError "User not found" 404)).
Proof.
  split.
  - refine (proj2 (proj1 (account_ownership withLikes 1 2) _ eq_refl _)).
    discriminate.
  - exact (proj2 (proj2 (proj2 (proj2 (account_ownership withLikes 1 9)
                                        eq_refl)))).
Defined.

(** ** Reading *)

Lemma getPostComments_run s id :
  getPostComments id s =
    (s, Json 200
          (mkEnvelope true
             (map (viewComment (users s))
                (filter (fun c => Comment.post c =? id) (comments s))) [])).
Proof. reflexivity. Qed.

Lemma listedComments_filter s id :
  listedComments s id
    = map Comment._id (filter (fun c => Comment.post c =? id) (comments s)).
Proof.
  unfold listedComments. rewrite getPostComments_run. simpl.
  rewrite map_map. reflexivity.
Qed.

(** X15. [getPostComments] never answers 404: its guard tests an array,
    which is never falsy. For any identifier, of a post or not, it answers
    200 with the comments that point to the identifier, in store order; and
    after a [createComment] with a valid content the new comment is listed
    last. *)
Theorem getPostComments_always_answers s id :
  statusOf (snd (getPostComments id s)) = 200%Z /\
  (forall c, In c (listedComments s id) <->
             exists d, In d (comments s) /\ Comment.post d = id
                       /\ Comment._id d = c) /\
  (forall userId content newId now,
     validContent content = true ->
     listedComments (fst (createComment userId id content newId now s)) id
       = (listedComments s id ++ [newId])%list).
Proof.
  split; [reflexivity|]. split.
  - intros c. rewrite listedComments_filter, in_map_iff. split.
    + intros [d [E I]]. apply filter_In in I. destruct I as [I P].
      apply Nat.eqb_eq in P. now exists d.
    + intros [d [I [P E]]]. exists d. split; [assumption|].
      apply filter_In. split; [assumption|]. now apply Nat.eqb_eq.
  - intros userId content newId now V.
    destruct (createComment_valid s userId id content newId now V) as [c [-> E]].
    rewrite E. cbn [fst]. rewrite !listedComments_filter.
    cbn [comments]. rewrite filter_app, map_app. simpl.
    now rewrite Nat.eqb_refl.
Qed.

Lemma getPostComments_always_answers_witness :
  find (hasId PostM 77) (posts withLikes) = None /\
  statusOf (snd (getPostComments 77 withLikes)) = 200%Z /\
  listedComments
    (fst (createComment 2 77 (Some (js "Into the void")) 31 4000 withLikes)) 77
    = [31].
Proof.
  split; [reflexivity|].
  destruct (getPostComments_always_answers withLikes 77) as [H1 [_ H3]].
  split; [exact H1|].
  exact (H3 2 (Some (js "Into the void")) 31 4000%Z eq_refl).
Defined.

(** X16. The handlers behind the GET routes never write: whatever they
    answer, a page, a document or an error, the store they leave is the one
    they were given. *)
Theorem reads_leave_the_store s userId id qpage qlimit :
  fst (getFriendRequests userId s) = s /\
  fst (getAllPosts userId qpage qlimit s) = s /\
  fst (getPost id s) = s /\
  fst (getPostComments id s) = s /\
  fst (getFeed userId qpage qlimit s) = s /\
  fst (getFriendCommentFeed userId qpage qlimit s) = s /\
  fst (getFriendLikedPosts userId qpage qlimit s) = s /\
  fst (getUser id s) = s /\
  fst (getFriends userId s) = s.
Proof.
  repeat split;
    unfold getFriendRequests, getAllPosts, getPost, getPostComments, getFeed,
      getFriendCommentFeed, getFriendLikedPosts, getUser, getFriends;
    run_handler;
    unfold findMany, findSorted, countDocuments, populate, pipeline,
      countPipeline; simpl;
    repeat match goal with
           | |- context [find ?f (users s)] => destruct (find f (users s))
           | |- context [find ?f (posts s)] => destruct (find f (posts s))
           | |- context [if ?b then _ else _] => destruct b
           end; try reflexivity.
Qed.

(** ** Arrays used as sets stay free of duplicates *)

#[export] Instance users_collection : Collection tidy UserM tidyUser.
Proof.
  split.
  - intros s T. apply T.
  - intros s l [_ [P C]] H. now repeat split.
Qed.

#[export] Instance posts_collection : Collection tidy PostM tidyPost.
Proof.
  split.
  - intros s T. apply T.
  - intros s l [U [_ C]] H. now repeat split.
Qed.

#[export] Instance comments_collection :
  Collection tidy CommentM tidyComment.
Proof.
  split.
  - intros s T. apply T.
  - intros s l [U [P _]] H. now repeat split.
Qed.

#[export] Instance friendrequests_collection :
  Collection tidy FriendRequestM (fun _ => True).
Proof.
  split.
  - intros s _. apply Forall_forall. trivial.
  - intros s l [U [P C]] _. now repeat split.
Qed.

Lemma triple_ret {A} (P : Store -> Prop) (Q : A -> Prop) x :
  Q x -> triple P (ret x) Q.
Proof.
  intros H s Ps. split; [assumption|]. simpl. intros y E.
  inversion E; subst. exact H.
Qed.

Lemma triple_raise {A} (P : Store -> Prop) (Q : A -> Prop) e :
  triple P (raise e) Q.
Proof. intros s Ps. split; [assumption|]. simpl. discriminate. Qed.

Lemma triple_bind {A B} (P : Store -> Prop) (m : Action A) (k : A -> Action B)
    (Q : A -> Prop) (R : B -> Prop) :
  triple P m Q -> (forall x, Q x -> triple P (k x) R) -> triple P (bind m k) R.
Proof.
  intros Hm Hk s Ps. unfold bind. destruct (Hm s Ps) as [P1 Q1].
  destruct (m s) as [s1 [x|e]]; simpl in *.
  - apply (Hk x (Q1 x eq_refl) s1 P1).
  - split; [assumption|discriminate].
Qed.

Lemma triple_weaken {A} (P : Store -> Prop) (a : Action A) (Q R : A -> Prop) :
  triple P a Q -> (forall x, Q x -> R x) -> triple P a R.
Proof.
  intros H W s Ps. destruct (H s Ps) as [P1 Q1]. split; [assumption|].
  intros x E. auto.
Qed.

Lemma triple_validate (P : Store -> Prop) required checks :
  triple P (validate required checks)
    (fun _ => failingPaths required checks = []).
Proof.
  unfold validate. destruct (failingPaths required checks).
  - now apply triple_ret.
  - apply triple_raise.
Qed.

Lemma handle_keeps (P : Store -> Prop) {B} (body : Action (Z * B)) s :
  triple P body (fun _ => True) -> P s -> P (fst (handle body s)).
Proof.
  intros H T. unfold handle. destruct (H s T) as [T1 _].
  destruct (body s) as [s1 [[code b]|e]]; exact T1.
Qed.

Section KeptCollection.
Context {P : Store -> Prop} {D : Type} {M : Model D} {ok : D -> Prop}
  `{!Collection P M ok}.

Lemma found_ok i l d : Forall ok l -> find (hasId M i) l = Some d -> ok d.
Proof.
  intros F H. apply find_some in H. rewrite Forall_forall in F. now apply F.
Qed.

Lemma Forall_removeOne i l : Forall ok l -> Forall ok (removeOne M i l).
Proof.
  rewrite !Forall_forall. intros H d I. apply H.
  now apply (In_removeOne M i l).
Qed.

Lemma triple_findById i :
  triple P (findById M i) (fun o => forall d, o = Some d -> ok d).
Proof.
  intros s T. split; [exact T|]. simpl. intros x E d ->. inversion E as [F].
  eapply found_ok; [exact (collection_docs s T)|exact F].
Qed.

Lemma triple_findByIdAndUpdate i f :
  (forall d, ok d -> ok (f d)) ->
  triple P (findByIdAndUpdate M i f) (fun o => forall d, o = Some d -> ok d).
Proof.
  intros K s T. pose proof (collection_docs s T) as F. split.
  - simpl. apply collection_setDocs; [assumption|].
    now apply Forall_updateOne.
  - simpl. intros x E d ->. inversion E as [G]. eapply found_ok; [exact F|exact G].
Qed.

Lemma triple_findByIdAndUpdateNew i f :
  (forall d, ok d -> ok (f d)) ->
  triple P (findByIdAndUpdateNew M i f)
    (fun o => forall d, o = Some d -> ok d).
Proof.
  intros K s T. pose proof (collection_docs s T) as F. split.
  - simpl. apply collection_setDocs; [assumption|].
    now apply Forall_updateOne.
  - simpl. intros x E d ->. inversion E as [G].
    destruct (find (hasId M i) (docs M s)) as [d0|] eqn:G0; [|discriminate].
    simpl in G. inversion G. apply K. eapply found_ok; [exact F|exact G0].
Qed.

Lemma triple_findByIdAndDelete i :
  triple P (findByIdAndDelete M i) (fun o => forall d, o = Some d -> ok d).
Proof.
  intros s T. pose proof (collection_docs s T) as F. split.
  - simpl. apply collection_setDocs; [assumption|]. now apply Forall_removeOne.
  - simpl. intros x E d ->. inversion E as [G]. eapply found_ok; [exact F|exact G].
Qed.

Lemma triple_create d : ok d -> triple P (create M d) ok.
Proof.
  intros K s T. pose proof (collection_docs s T) as F. split.
  - simpl. apply collection_setDocs; [assumption|].
    apply Forall_app. split; [assumption|]. now constructor.
  - simpl. intros x E. now inversion E; subst.
Qed.

Lemma triple_deleteMany q : triple P (deleteMany M q) (fun _ => True).
Proof.
  intros s T. pose proof (collection_docs s T) as F. split; [|trivial].
  simpl. apply collection_setDocs; [assumption|].
  rewrite Forall_forall in *. intros d I. apply filter_In in I. now apply F.
Qed.

Lemma triple_updateMany f :
  (forall d, ok d -> ok (f d)) -> triple P (updateMany M f) (fun _ => True).
Proof.
  intros K s T. pose proof (collection_docs s T) as F. split; [|trivial].
  simpl. apply collection_setDocs; [assumption|].
  rewrite Forall_forall in *. intros d I. apply in_map_iff in I.
  destruct I as [d0 [<- I]]. auto.
Qed.

Lemma triple_save schema d :
  ok d -> triple P (save M schema d) (fun _ => True).
Proof.
  intros K. unfold save. destruct (invalidPaths (schema d)).
  - intros s T. pose proof (collection_docs s T) as F. split; [|trivial].
    simpl. apply collection_setDocs; [assumption|].
    apply Forall_updateOne; auto.
  - apply triple_raise.
Qed.
End KeptCollection.

Lemma tidyUser_set_friends g u :
  (forall l, NoDup l -> NoDup (g l)) ->
  tidyUser u -> tidyUser (User.set_friends g u).
Proof. intros G [F P]. split; simpl; auto. Qed.

Lemma tidyUser_set_posts g u :
  (forall l, NoDup l -> NoDup (g l)) ->
  tidyUser u -> tidyUser (User.set_posts g u).
Proof. intros G [F P]. split; simpl; auto. Qed.

Lemma tidyPost_set_likedBy g p :
  (NoDup (Post.likedBy p) -> NoDup (g (Post.likedBy p))) ->
  tidyPost p -> tidyPost (Post.set_likedBy g p).
Proof. intros G [L C]. split; simpl; auto. Qed.

Lemma tidyPost_set_comments g p :
  (forall l, NoDup l -> NoDup (g l)) ->
  tidyPost p -> tidyPost (Post.set_comments g p).
Proof. intros G [L C]. split; simpl; auto. Qed.

Lemma tidyComment_set_likedBy g c :
  (NoDup (Comment.likedBy c) -> NoDup (g (Comment.likedBy c))) ->
  tidyComment c -> tidyComment (Comment.set_likedBy g c).
Proof. intros G L. unfold tidyComment. simpl. auto. Qed.

Lemma tidyPost_applyPostBody body p :
  tidyPost p -> tidyPost (applyPostBody body p).
Proof. intros [L C]. now split. Qed.

Lemma tidyComment_applyCommentBody content c :
  tidyComment c -> tidyComment (applyCommentBody content c).
Proof. intros L. exact L. Qed.

Lemma tidyUser_applyUserBody body u :
  tidyUser u -> tidyUser (applyUserBody body u).
Proof. intros [F P]. now split. Qed.

Create HintDb tidy.
#[export] Hint Resolve NoDup_addToSet NoDup_pull NoDup_nil
  tidyUser_set_friends tidyUser_set_posts tidyPost_set_likedBy
  tidyPost_set_comments tidyComment_set_likedBy tidyPost_applyPostBody
  tidyComment_applyCommentBody tidyUser_applyUserBody : tidy.

(** One store call of a handler, then the rest. *)
Ltac call rule :=
  eapply triple_bind; [eapply rule; eauto with tidy|cbv beta; intros].

Ltac finish :=
  first [apply triple_raise | apply triple_ret; exact I].

Lemma sendFriendRequest_tidy userId receiver newId now s :
  tidy s -> tidy (fst (sendFriendRequest userId receiver newId now s)).
Proof.
  apply (handle_keeps (P := tidy)). destruct receiver as [receiver|]; [|finish].
  destruct (isCanonical receiver && (castId receiver =? userId)); [finish|].
  call (triple_findById (M := UserM)).
  destruct x as [user|]; [|finish].
  destruct (isCanonical receiver
            && includes (castId receiver) (User.friends user)); [finish|].
  call (triple_create (M := FriendRequestM)). finish.
Qed.

Lemma acceptFriendRequest_tidy id s :
  tidy s -> tidy (fst (acceptFriendRequest id s)).
Proof.
  apply (handle_keeps (P := tidy)).
  call (triple_findByIdAndUpdateNew (M := FriendRequestM)).
  destruct x as [r|]; [|finish].
  call (triple_findByIdAndUpdate (M := UserM)).
  call (triple_findByIdAndUpdate (M := UserM)).
  finish.
Qed.

Lemma rejectFriendRequest_tidy id s :
  tidy s -> tidy (fst (rejectFriendRequest id s)).
Proof.
  apply (handle_keeps (P := tidy)).
  call (triple_findByIdAndUpdateNew (M := FriendRequestM)).
  destruct x as [r|]; finish.
Qed.

Lemma createPost_tidy userId body newId now s :
  tidy s -> tidy (fst (createPost userId body newId now s)).
Proof.
  apply (handle_keeps (P := tidy)). call triple_validate.
  call (triple_create (M := PostM)).
  { split; constructor. }
  call (triple_findByIdAndUpdate (M := UserM)). finish.
Qed.

Lemma updatePost_tidy userId id body s :
  tidy s -> tidy (fst (updatePost userId id body s)).
Proof.
  apply (handle_keeps (P := tidy)). call (triple_findById (M := PostM)).
  destruct x as [p|]; [|finish].
  destruct (negb (Post.author p =? userId)); [finish|].
  call triple_validate.
  call (triple_findByIdAndUpdateNew (M := PostM)). finish.
Qed.

Lemma deletePost_tidy userId id s :
  tidy s -> tidy (fst (deletePost userId id s)).
Proof.
  apply (handle_keeps (P := tidy)). call (triple_findById (M := PostM)).
  destruct x as [p|]; [|finish].
  destruct (negb (Post.author p =? userId)); [finish|].
  call (triple_findByIdAndDelete (M := PostM)).
  call (triple_findByIdAndUpdate (M := UserM)).
  call (triple_deleteMany (M := CommentM)). finish.
Qed.

Lemma toggleLikePost_tidy userId id s :
  tidy s -> tidy (fst (toggleLikePost userId id s)).
Proof.
  apply (handle_keeps (P := tidy)). call (triple_findById (M := PostM)).
  destruct x as [p|]; [|finish].
  pose proof (H p eq_refl) as T. cbv zeta.
  call (triple_save (M := PostM)); [|finish].
  destruct (includes userId (Post.likedBy p)) eqn:E.
  - auto with tidy.
  - apply includes_not_In in E. apply tidyPost_set_likedBy; [|assumption].
    now apply NoDup_push_absent.
Qed.

Lemma createComment_tidy userId id content newId now s :
  tidy s -> tidy (fst (createComment userId id content newId now s)).
Proof.
  apply (handle_keeps (P := tidy)). call triple_validate.
  call (triple_create (M := CommentM)).
  { constructor. }
  call (triple_findByIdAndUpdate (M := PostM)). finish.
Qed.

Lemma deleteComment_tidy userId id commentId s :
  tidy s -> tidy (fst (deleteComment userId id commentId s)).
Proof.
  apply (handle_keeps (P := tidy)). call (triple_findById (M := PostM)).
  call (triple_findById (M := CommentM)).
  destruct x0 as [c|]; [|finish]. destruct x as [p|]; [|finish].
  destruct (negb (Comment.author c =? userId)); [finish|].
  call (triple_findByIdAndUpdate (M := PostM)).
  call (triple_findByIdAndDelete (M := CommentM)). finish.
Qed.

Lemma updateComment_tidy userId commentId content s :
  tidy s -> tidy (fst (updateComment userId commentId content s)).
Proof.
  apply (handle_keeps (P := tidy)). call (triple_findById (M := CommentM)).
  destruct x as [c|]; [|finish].
  destruct (negb (Comment.author c =? userId)); [finish|].
  call triple_validate.
  call (triple_findByIdAndUpdateNew (M := CommentM)). finish.
Qed.

Lemma toggleLikeComment_tidy userId commentId s :
  tidy s -> tidy (fst (toggleLikeComment userId commentId s)).
Proof.
  apply (handle_keeps (P := tidy)). call (triple_findById (M := CommentM)).
  destruct x as [c|]; [|finish].
  pose proof (H c eq_refl) as T. cbv zeta.
  call (triple_save (M := CommentM)); [|finish].
  destruct (includes userId (Comment.likedBy c)) eqn:E.
  - auto with tidy.
  - apply includes_not_In in E. apply tidyComment_set_likedBy; [|assumption].
    now apply NoDup_push_absent.
Qed.

Lemma updateUser_tidy userId id body s :
  tidy s -> tidy (fst (updateUser userId id body s)).
Proof.
  apply (handle_keeps (P := tidy)). call (triple_findById (M := UserM)).
  destruct x as [u|]; [|finish].
  destruct (negb (User._id u =? userId)); [finish|].
  call triple_validate.
  call (triple_findByIdAndUpdateNew (M := UserM)).
  destruct x0 as [u'|]; finish.
Qed.

Lemma deleteUser_tidy userId id s :
  tidy s -> tidy (fst (deleteUser userId id s)).
Proof.
  apply (handle_keeps (P := tidy)). call (triple_findById (M := UserM)).
  destruct x as [u|]; [|finish].
  destruct (negb (User._id u =? userId)); [finish|].
  call (triple_findByIdAndDelete (M := UserM)).
  destruct x as [u'|]; [|finish].
  call (triple_deleteMany (M := PostM)).
  call (triple_updateMany (M := PostM)).
  call (triple_updateMany (M := UserM)).
  call (triple_deleteMany (M := FriendRequestM)).
  call (triple_deleteMany (M := CommentM)).
  finish.
Qed.

Lemma unfriend_tidy userId id s :
  tidy s -> tidy (fst (unfriend userId id s)).
Proof.
  apply (handle_keeps (P := tidy)).
  call (triple_findByIdAndUpdateNew (M := UserM)).
  destruct x as [u|]; [|finish].
  call (triple_findByIdAndUpdate (M := UserM)). finish.
Qed.

(** X17. No handler introduces a duplicate: when the [friends] and [posts]
    arrays of every user, the [likedBy] and [comments] arrays of every post
    and the [likedBy] array of every comment hold no identifier twice, the
    same is true of the store each writing handler leaves, whether it
    succeeds or fails, for all identifiers and for request bodies that carry
    the validated text fields only (title and content, content, name and
    bio). The like toggles use [push], not [$addToSet]; it is their
    [includes] test that keeps the arrays sets. *)
Theorem handlers_keep_arrays_sets s :
  tidy s ->
  forall userId id,
    (forall receiver newId now,
       tidy (fst (sendFriendRequest userId receiver newId now s))) /\
    tidy (fst (acceptFriendRequest id s)) /\
    tidy (fst (rejectFriendRequest id s)) /\
    (forall body newId now, tidy (fst (createPost userId body newId now s))) /\
    (forall body, tidy (fst (updatePost userId id body s))) /\
    tidy (fst (deletePost userId id s)) /\
    tidy (fst (toggleLikePost userId id s)) /\
    (forall content newId now,
       tidy (fst (createComment userId id content newId now s))) /\
    (forall commentId, tidy (fst (deleteComment userId id commentId s))) /\
    (forall content, tidy (fst (updateComment userId id content s))) /\
    tidy (fst (toggleLikeComment userId id s)) /\
    (forall body, tidy (fst (updateUser userId id body s))) /\
    tidy (fst (deleteUser userId id s)) /\
    tidy (fst (unfriend userId id s)).
Proof.
  intros T userId id.
  repeat split; intros;
    first [ now apply sendFriendRequest_tidy
          | now apply acceptFriendRequest_tidy
          | now apply rejectFriendRequest_tidy
          | now apply createPost_tidy
          | now apply updatePost_tidy
          | now apply deletePost_tidy
          | now apply toggleLikePost_tidy
          | now apply createComment_tidy
          | now apply deleteComment_tidy
          | now apply updateComment_tidy
          | now apply toggleLikeComment_tidy
          | now apply updateUser_tidy
          | now apply deleteUser_tidy
          | now apply unfriend_tidy ].
Qed.

Lemma handlers_keep_arrays_sets_witness :
  tidy withLikes /\
  tidy (fst (toggleLikePost 2 20 withLikes)) /\
  tidy (fst (deleteUser 1 1 withLikes)).
Proof.
  assert (T : tidy withLikes).
  { unfold tidy, tidyUser, tidyPost, tidyComment, withLikes.
    simpl. repeat constructor; simpl; intuition discriminate. }
  split; [exact T|].
  destruct (handlers_keep_arrays_sets T 2 20)
    as [_ [_ [_ [_ [_ [_ [H _]]]]]]].
  destruct (handlers_keep_arrays_sets T 1 1)
    as [_ [_ [_ [_ [_ [_ [_ [_ [_ [_ [_ [_ [K _]]]]]]]]]]]]].
  split; assumption.
Defined.

(** ** The feeds *)

Lemma firstn_plus {A} a b (l : list A) :
  firstn (a + b) l = (firstn a l ++ firstn b (skipn a l))%list.
Proof.
  revert l. induction a as [|a IH]; intros l; [reflexivity|].
  destruct l as [|x r]; simpl.
  - now rewrite firstn_nil.
  - now rewrite IH.
Qed.

Lemma window_tiles {A} (l : list A) limit n :
  (1 <= limit)%Z ->
  flat_map (fun k => window ((Z.of_nat (S k) - 1) * limit) limit l) (seq 0 n)
    = firstn (n * Z.to_nat limit) l.
Proof.
  intros L. induction n as [|n IH]; [reflexivity|].
  rewrite seq_S, flat_map_app, IH. cbn [flat_map Nat.add].
  rewrite app_nil_r. unfold window.
  replace (Z.to_nat ((Z.of_nat (S n) - 1) * limit)) with (n * Z.to_nat limit)
    by nia.
  replace (S n * Z.to_nat limit) with (n * Z.to_nat limit + Z.to_nat limit)
    by lia.
  symmetry. apply firstn_plus.
Qed.

Lemma flat_map_hom {A B C} (h : list A -> list B) (W : C -> list A) ks :
  h [] = [] -> (forall a b, h (a ++ b) = h a ++ h b)%list ->
  flat_map (fun k => h (W k)) ks = h (flat_map W ks).
Proof.
  intros N H. induction ks as [|k r IH]; simpl; [now rewrite N|].
  now rewrite H, IH.
Qed.

Lemma unwind_app {A B} (a b : list (A * list B)) :
  unwind (a ++ b) = (unwind a ++ unwind b)%list.
Proof. unfold unwind. apply flat_map_app. Qed.

Lemma pages_cover {A} (l : list A) limit :
  (1 <= limit)%Z ->
  firstn (Z.to_nat (Math_ceil_div (Z.of_nat (List.length l)) limit)
          * Z.to_nat limit) l = l.
Proof.
  intros L. apply firstn_all2.
  assert (P : (0 < limit)%Z) by lia.
  destruct (Math_ceil_div_spec (Z.of_nat (List.length l)) P) as [_ S]. nia.
Qed.

Lemma allPages_window {A B} (h : option Z -> option Z -> Handler (Paginated B))
    (g : list A -> list B) (full : list A) limit s :
  (1 <= limit)%Z ->
  g [] = [] -> (forall a b, g (a ++ b) = g a ++ g b)%list ->
  (forall page, (1 <= page)%Z ->
     h (Some page) (Some limit) s =
       (s, Json 200
             (mkPaginated true (g (window ((page - 1) * limit) limit full))
                (Z.of_nat (List.length full)) page
                (Math_ceil_div (Z.of_nat (List.length full)) limit)))) ->
  allPages h limit s = g full.
Proof.
  intros L N H E. unfold allPages.
  rewrite (E 1%Z) by lia. cbn [snd totalPagesOf pg_totalPages].
  rewrite (flat_map_ext _
             (fun k => g (window ((Z.of_nat (S k) - 1) * limit) limit full))).
  2:{ intros k. rewrite E by lia. reflexivity. }
  rewrite (flat_map_hom g _ _ N H), window_tiles by assumption.
  now rewrite pages_cover.
Qed.

(** X18. The pages tile the result. For an existing requester and a page
    size of at least 1, the items of pages 1 to [totalPages], one page after
    the other, are the full ordered result, nothing lost and nothing twice:
    for [getAllPosts] the requester's posts, for [getFeed] and
    [getFriendLikedPosts] the feed with the authors populated, for
    [getFriendCommentFeed] the grouped posts joined to their authors. *)
Theorem pages_tile_the_result s u x limit :
  find (hasId UserM u) (users s) = Some x ->
  (1 <= limit)%Z ->
  allPages (getAllPosts u) limit s = ownPosts s u /\
  allPages (getFeed u) limit s
    = map (populateAuthor (users s)) (directFeed s x) /\
  allPages (getFriendLikedPosts u) limit s
    = map (populateAuthor (users s)) (friendLikedFeed s x) /\
  allPages (getFriendCommentFeed u) limit s
    = map project
        (unwind (map (lookupAuthor (users s)) (friendCommentFeed s x))).
Proof.
  intros F L. repeat split.
  - apply (allPages_window (getAllPosts u) (fun l => l)); auto.
    intros page P. now apply getAllPosts_page.
  - apply (allPages_window (getFeed u) (map (populateAuthor (users s))));
      auto using map_app.
    intros page P. now apply getFeed_page.
  - apply (allPages_window (getFriendLikedPosts u)
             (map (populateAuthor (users s)))); auto using map_app.
    intros page P. now apply getFriendLikedPosts_page.
  - apply (allPages_window (getFriendCommentFeed u)
             (fun l => map project (unwind (map (lookupAuthor (users s)) l))));
      auto.
    + intros a b. now rewrite map_app, unwind_app, map_app.
    + intros page P. now apply getFriendCommentFeed_page.
Qed.

Lemma pages_tile_the_result_witness :
  allPages (getAllPosts 3) 1 town = ownPosts town 3 /\
  List.length (ownPosts town 3) = 2.
Proof.
  split; [|reflexivity].
  refine (proj1 (@pages_tile_the_result town 3 _ 1%Z _ _)).
  - reflexivity.
  - lia.
Defined.

Lemma friendsOf_found s u x :
  find (hasId UserM u) (users s) = Some x -> friendsOf s u = User.friends x.
Proof. intros H. unfold friendsOf. now rewrite H. Qed.

Lemma In_directFeed s x p :
  In p (directFeed s x) <-> In p (posts s) /\ In (Post.author p) (User.friends x).
Proof.
  unfold directFeed. rewrite In_sortDesc, filter_In. unfold feedQuery, op_in.
  now rewrite includes_In.
Qed.

Lemma In_ownPosts s u p :
  In p (ownPosts s u) <-> In p (posts s) /\ Post.author p = u.
Proof.
  unfold ownPosts. rewrite In_sortDesc, filter_In. now rewrite Nat.eqb_eq.
Qed.

Lemma descending_map {A B} (ka : A -> Z) (kb : B -> Z) (f : A -> B) l :
  (forall a, kb (f a) = ka a) -> descending ka l -> descending kb (map f l).
Proof.
  intros K D. unfold descending in *.
  induction D as [|a r _ IH F]; simpl; constructor; [assumption|].
  rewrite Forall_map. rewrite K.
  apply Forall_impl with (2 := F). intros b. now rewrite K.
Qed.

(** X19. The direct feed. For an existing requester it ranges over exactly
    the posts of the store whose author is in the requester's [friends], each
    as often as it is stored, by decreasing creation time; the handler
    answers 200 with the requested page of that list, the authors
    populated, itself by decreasing creation time, and with the whole list
    when it fits the first page. For a requester who is not in their own
    [friends], no item has the requester as its populated author. *)
Theorem direct_feed s u x page limit :
  find (hasId UserM u) (users s) = Some x ->
  (1 <= page)%Z -> (1 <= limit)%Z ->
  (forall p,
     In p (directFeed s x) <->
     In p (posts s) /\ In (Post.author p) (friendsOf s u)) /\
  Permutation (directFeed s x) (filter (feedQuery x) (posts s)) /\
  descending Post.createdAt (directFeed s x) /\
  exists body,
    getFeed u (Some page) (Some limit) s = (s, Json 200 body) /\
    pageOf (showPost (users s)) (directFeed s x) page limit body /\
    descending FeedPost.createdAt (pg_data body) /\
    (forall f, In f (pg_data body) ->
       exists p, In p (posts s) /\ In (Post.author p) (friendsOf s u) /\
                 f = populateAuthor (users s) p) /\
    (~ In u (friendsOf s u) ->
     forall f a, In f (pg_data body) -> FeedPost.author f = Some a ->
                 PublicUser._id a <> u) /\
    (page = 1%Z -> (Z.of_nat (List.length (directFeed s x)) <= limit)%Z ->
     pg_data body = map (populateAuthor (users s)) (directFeed s x)).
Proof.
  intros H P L. rewrite (friendsOf_found _ _ H).
  split; [intros p; apply In_directFeed|].
  split; [apply sortDesc_Permutation|].
  split; [apply sortDesc_descending|].
  eexists. split; [exact (@getFeed_page s u x page limit H P L)|].
  cbn [pg_data].
  assert (Items : forall f,
            In f (map (populateAuthor (users s))
                    (window ((page - 1) * limit) limit (directFeed s x))) ->
            exists p, In p (posts s) /\ In (Post.author p) (User.friends x) /\
                      f = populateAuthor (users s) p).
  { intros f I. apply in_map_iff in I. destruct I as [p [<- I]].
    apply In_window, In_directFeed in I. exists p. tauto. }
  split; [|split; [|split; [|split]]].
  - apply pageOf_window; try assumption. apply shown_posts.
  - apply descending_map with (ka := Post.createdAt); [reflexivity|].
    apply descending_window, sortDesc_descending.
  - exact Items.
  - intros N f a I E Ea. apply N.
    destruct (Items _ I) as [q [Hq [Fq ->]]]. simpl in E.
    destruct (find (fun u0 => User._id u0 =? Post.author q) (users s))
      as [w|] eqn:Fw; [|discriminate].
    apply find_some in Fw. destruct Fw as [_ Fw]. apply Nat.eqb_eq in Fw.
    inversion E; subst a. simpl in Ea. congruence.
  - intros -> Fit. now rewrite window_first_page.
Qed.

Lemma direct_feed_witness :
  exists body,
    getFeed 1 (Some 1%Z) (Some 10%Z) town = (town, Json 200 body) /\
    map FeedPost._id (pg_data body) = [20].
Proof.
  assert (P : (1 <= 1)%Z) by lia. assert (L : (1 <= 10)%Z) by lia.
  destruct (@direct_feed town 1 alice 1%Z 10%Z town_alice P L)
    as [_ [_ [_ [body [E _]]]]].
  exists body. split; [exact E|].
  vm_compute in E. inversion E. reflexivity.
Defined.

(** X20. [getAllPosts] lists the requester's own posts and no other. For
    any requester identifier, with a user record or without, and a page
    number and size of at least 1, it answers 200 with the requested page of
    the posts whose author is the requester, by decreasing creation time;
    every item is such a post, and every such post is on the page when the
    list fits the first page. *)
Theorem own_posts_only s u page limit :
  (1 <= page)%Z -> (1 <= limit)%Z ->
  exists body,
    getAllPosts u (Some page) (Some limit) s = (s, Json 200 body) /\
    pageOf eq (ownPosts s u) page limit body /\
    descending Post.createdAt (pg_data body) /\
    (forall p, In p (pg_data body) -> In p (posts s) /\ Post.author p = u) /\
    (page = 1%Z -> (Z.of_nat (List.length (posts s)) <= limit)%Z ->
     forall p, In p (posts s) -> Post.author p = u -> In p (pg_data body)).
Proof.
  intros P L. eexists.
  split; [exact (@getAllPosts_page s u page limit P L)|]. cbn [pg_data].
  split; [|split; [|split]].
  - apply pageOf_window; try assumption. apply Forall2_eq_refl.
  - apply descending_window, sortDesc_descending.
  - intros p I. apply In_window in I. now apply In_ownPosts.
  - intros -> Fit p I A. rewrite window_first_page.
    + now apply In_ownPosts.
    + unfold ownPosts. rewrite length_sortDesc.
      pose proof (filter_length_le (fun p0 => Post.author p0 =? u) (posts s)).
      lia.
Qed.

Lemma own_posts_only_witness :
  exists body,
    getAllPosts 3 (Some 1%Z) (Some 10%Z) town = (town, Json 200 body) /\
    map Post._id (pg_data body) = [22; 21].
Proof.
  assert (P : (1 <= 1)%Z) by lia. assert (L : (1 <= 10)%Z) by lia.
  destruct (@own_posts_only town 3 1%Z 10%Z P L) as [body [E _]].
  exists body. split; [exact E|].
  vm_compute in E. inversion E. reflexivity.
Defined.

(** X21. The direct feed shares no post with the other two feeds. On a
    store with unique post identifiers and for an existing requester, no
    item of any page of [getFeed] has the identifier of an item of any page
    of [getFriendLikedPosts] or of [getFriendCommentFeed]: the first holds
    friends' posts, the other two strangers' posts. *)
Theorem direct_feed_is_apart s u x page limit page' limit' :
  find (hasId UserM u) (users s) = Some x ->
  NoDup (map Post._id (posts s)) ->
  (1 <= page)%Z -> (1 <= limit)%Z -> (1 <= page')%Z -> (1 <= limit')%Z ->
  forall f,
    In f (pageItems (snd (getFeed u (Some page) (Some limit) s))) ->
    (forall g,
       In g (pageItems (snd (getFriendLikedPosts u (Some page') (Some limit') s))) ->
       FeedPost._id f <> FeedPost._id g) /\
    (forall c,
       In c (pageItems (snd (getFriendCommentFeed u (Some page') (Some limit') s))) ->
       FeedPost._id f <> CommentedPost._id c).
Proof.
  intros H ND P L P' L' f.
  rewrite (@getFeed_page s u x page limit H P L).
  rewrite (@getFriendLikedPosts_page s u x page' limit' H P' L').
  rewrite (@getFriendCommentFeed_page s u x page' limit' H P' L').
  cbn [snd pageItems pg_data]. intros I.
  apply in_map_iff in I. destruct I as [p [<- I]].
  apply In_window, In_directFeed in I. destruct I as [Hp Fp]. split.
  - intros g I. apply in_map_iff in I. destruct I as [q [<- I]].
    apply In_window, In_friendLikedFeed in I. destruct I as [Hq [_ Nq]].
    simpl. intros E.
    assert (p = q) by (apply (same_id_same_doc PostM (posts s)); assumption).
    subst q. contradiction.
  - intros c I. apply (in_map CommentedPost._id) in I.
    apply joined_ids_from in I. rewrite map_window in I. apply In_window in I.
    apply friendCommentFeed_ids in I.
    destruct I as [q [_ [Hq [E [Nq _]]]]]. simpl. intros E'.
    assert (p = q).
    { apply (same_id_same_doc PostM (posts s)); try assumption.
      simpl. congruence. }
    subst q. contradiction.
Qed.

Lemma direct_feed_is_apart_witness :
  exists f c,
    In f (pageItems (snd (getFeed 1 (Some 1%Z) (Some 10%Z) town))) /\
    In c (pageItems (snd (getFriendCommentFeed 1 (Some 1%Z) (Some 10%Z) town))) /\
    FeedPost._id f <> CommentedPost._id c.
Proof.
  assert (P : (1 <= 1)%Z) by lia. assert (L : (1 <= 10)%Z) by lia.
  eassert (I : In _ (pageItems (snd (getFeed 1 (Some 1%Z) (Some 10%Z) town)))).
  { vm_compute. left. reflexivity. }
  eassert (J : In _ (pageItems
                       (snd (getFriendCommentFeed 1 (Some 1%Z) (Some 10%Z) town)))).
  { vm_compute. left. reflexivity. }
  eexists. eexists. split; [exact I|]. split; [exact J|].
  exact (proj2 (@direct_feed_is_apart town 1 alice 1%Z 10%Z 1%Z 10%Z
                   town_alice (proj2 town_uniqueIds) P L P L _ I) _ J).
Defined.




(** ** After an account is deleted *)

Lemma find_map_keep {D} (M : Model D) (f : D -> D) i l :
  (forall d, idOf M (f d) = idOf M d) ->
  find (hasId M i) (map f l) = option_map f (find (hasId M i) l).
Proof.
  intros K. induction l as [|d r IH]; simpl; [reflexivity|].
  unfold hasId in *. rewrite K. now destruct (idOf M d =? i).
Qed.

Lemma friendsOf_after_deleteUser s u x j :
  find (hasId UserM u) (users s) = Some x ->
  NoDup (map User._id (users s)) ->
  friendsOf (fst (deleteUser u u s)) j
    = if j =? u then [] else pull u (friendsOf s j).
Proof.
  intros F ND. rewrite (deleteUser_done _ _ F). unfold friendsOf. cbn [fst users].
  rewrite (find_map_keep UserM _ _ _ (set_friends_id _)).
  destruct (Nat.eqb_spec j u) as [->|N].
  - now rewrite (find_removeOne_same UserM u (users s) ND).
  - rewrite (find_removeOne_other UserM (users s) (i := u) (j := j))
      by congruence.
    now destruct (find (hasId UserM j) (users s)).
Qed.

(** X23. A deleted account is gone and the friends graph stays sound. On a
    store with unique user identifiers, after a user deletes their own
    account there is no record under the identifier: [getUser] answers 404
    and so does a second [deleteUser]; every other user is found as before,
    with the identifier pulled from their [friends]; and when friendship was
    mutual in the store it is mutual afterwards. *)
Theorem deleted_account_is_gone s u x :
  find (hasId UserM u) (users s) = Some x ->
  NoDup (map User._id (users s)) ->
  let s1 := fst (deleteUser u u s) in
  ~ userExists s1 u /\
  getUser u s1 = (s1, Next (AppError "User not found" 404)) /\
  deleteUser u u s1 = (s1, Next (AppError "User not found" 404)) /\
  (forall j, j <> u ->
     (userExists s1 j <-> userExists s j) /\
     friendsOf s1 j = pull u (friendsOf s j)) /\
  (symmetricFriends s -> symmetricFriends s1).
Proof.
  intros F ND s1.
  assert (Gone : find (hasId UserM u) (users s1) = None).
  { unfold s1. rewrite (deleteUser_done _ _ F). cbn [fst users].
    rewrite (find_map_keep UserM _ _ _ (set_friends_id _)).
    now rewrite (find_removeOne_same UserM u (users s) ND). }
  assert (Fr : forall j, friendsOf s1 j
                         = if j =? u then [] else pull u (friendsOf s j)).
  { intros j. now apply friendsOf_after_deleteUser with (x := x). }
  split; [|split; [|split; [|split]]].
  - intros [y Hy]. congruence.
  - unfold getUser. run_handler. now rewrite Gone.
  - unfold deleteUser. run_handler. now rewrite Gone.
  - intros j N. split.
    + unfold userExists, s1. rewrite (deleteUser_done _ _ F). cbn [fst users].
      rewrite (find_map_keep UserM _ _ _ (set_friends_id _)).
      rewrite (find_removeOne_other UserM (users s) (i := u) (j := j))
        by congruence.
      destruct (find (hasId UserM j) (users s)) as [y|]; simpl.
      * split; intros _; eexists; reflexivity.
      * split; intros [y Hy]; discriminate.
    + rewrite Fr. destruct (Nat.eqb_spec j u); [contradiction|reflexivity].
  - intros Sym a b. rewrite !Fr.
    destruct (Nat.eqb_spec a u) as [->|Na];
      destruct (Nat.eqb_spec b u) as [->|Nb]; simpl.
    + tauto.
    + rewrite In_pull. tauto.
    + rewrite In_pull. tauto.
    + rewrite !In_pull. rewrite (Sym a b). tauto.
Qed.

Lemma deleted_account_is_gone_witness :
  getUser 1 (fst (deleteUser 1 1 withLikes))
    = (fst (deleteUser 1 1 withLikes), Next (AppError "User not found" 404)) /\
  friendsOf (fst (deleteUser 1 1 withLikes)) 2 = [].
Proof.
  assert (ND : NoDup (map User._id (users withLikes))).
  { simpl. repeat constructor; simpl; intuition discriminate. }
  destruct (@deleted_account_is_gone withLikes 1 (newUser 1 "alice" [2])
              eq_refl ND) as [_ [G [_ [O _]]]].
  split; [exact G|].
  refine (eq_trans (proj2 (O 2 _)) _); [discriminate|reflexivity].
Defined.

(** X24. [createPost] never looks the author up. For a requester without
    a user record, as after [deleteUser] while the token is still accepted,
    and a body of a title and a content that pass the validators, it
    answers 201 and stores the post; the users are as before, so the store
    then holds a post whose author references no user. *)
Theorem createPost_unchecked_author s userId body newId now :
  validPostBody body = true ->
  find (hasId UserM userId) (users s) = None ->
  let s1 := fst (createPost userId body newId now s) in
  statusOf (snd (createPost userId body newId now s)) = 201%Z /\
  users s1 = users s /\
  comments s1 = comments s /\ friendrequests s1 = friendrequests s /\
  (exists p, posts s1 = (posts s ++ [p])%list /\ Post.author p = userId) /\
  ~ authorsExist s1.
Proof.
  intros V F s1.
  destruct (createPost_valid s userId body newId now V) as [t [c [_ [_ E]]]].
  unfold s1. rewrite E. cbn [fst snd statusOf users posts comments friendrequests].
  rewrite (updateOne_absent UserM _ _ _ F).
  split; [reflexivity|]. split; [reflexivity|]. split; [reflexivity|].
  split; [reflexivity|]. split.
  - eexists. split; reflexivity.
  - intros AE.
    destruct (AE (Post.mk newId (trim t) (trim c) userId [] [] now)) as [y Hy].
    + cbn [posts]. apply in_or_app. right. now left.
    + cbn [users Post.author] in Hy. congruence.
Qed.

Lemma createPost_unchecked_author_witness :
  find (hasId UserM 3) (users (fst (deleteUser 3 3 threeUsers))) = None /\
  statusOf
    (snd (createPost 3 (mkPostBody (Some (js "Carol here")) (Some (js "A stranger")))
            21 2500 (fst (deleteUser 3 3 threeUsers)))) = 201%Z.
Proof.
  split; [reflexivity|].
  exact (proj1 (@createPost_unchecked_author (fst (deleteUser 3 3 threeUsers)) 3
                  (mkPostBody (Some (js "Carol here")) (Some (js "A stranger")))
                  21 2500%Z eq_refl eq_refl)).
Defined.

(** ** The friends list *)

Lemma In_populateUsers us ids i :
  In i (map PublicUser._id (populateUsers us ids)) <->
  In i ids /\ exists x, find (hasId UserM i) us = Some x.
Proof.
  unfold populateUsers. rewrite in_map_iff. split.
  - intros [w [E I]]. apply in_flat_map in I. destruct I as [j [Hj I]].
    destruct (find (fun u => User._id u =? j) us) as [x|] eqn:F; [|destruct I].
    destruct I as [<-|[]]. simpl in E.
    pose proof (find_hasId UserM _ _ F) as Ex. simpl in Ex.
    assert (Eji : j = i) by congruence. rewrite Eji in *.
    split; [exact Hj|]. now exists x.
  - intros [Hi [x F]]. exists (withoutPassword x).
    pose proof (find_hasId UserM _ _ F) as Ex. simpl in Ex.
    split; [exact Ex|]. apply in_flat_map. exists i. split; [assumption|].
    change (find (fun u => User._id u =? i) us) with (find (hasId UserM i) us).
    rewrite F. now left.
Qed.

(** X25. [getFriends] shows the friends that have a record. For an
    existing requester it answers 200 with user documents whose identifiers
    are exactly the members of the requester's [friends] that reference an
    existing user; an identifier left behind without a record is skipped
    without an error. Right after a friend request from A to B is accepted,
    B is on A's list when B has a record, and once A has unfriended B it is
    not. *)
Theorem getFriends_lists_friends s u x :
  find (hasId UserM u) (users s) = Some x ->
  (exists body,
     getFriends u s = (s, Json 200 body) /\
     forall i, In i (map PublicUser._id (data body)) <->
               In i (friendsOf s u) /\ userExists s i) /\
  (forall id r,
     find (hasId FriendRequestM id) (friendrequests s) = Some r ->
     FriendRequest.sender r = u ->
     userExists s (FriendRequest.receiver r) ->
     let s1 := fst (acceptFriendRequest id s) in
     let s2 := fst (unfriend u (FriendRequest.receiver r) s1) in
     (exists body, snd (getFriends u s1) = Json 200 body /\
        In (FriendRequest.receiver r) (map PublicUser._id (data body))) /\
     (forall body, snd (getFriends u s2) = Json 200 body ->
        ~ In (FriendRequest.receiver r) (map PublicUser._id (data body)))).
Proof.
  assert (Run : forall t v y,
            find (hasId UserM v) (users t) = Some y ->
            getFriends v t =
              (t, Json 200 (mkEnvelope true
                              (populateUsers (users t) (User.friends y)) []))).
  { intros t v y F. unfold getFriends. run_handler. now rewrite F. }
  intros F. split.
  - eexists. split; [exact (Run _ _ _ F)|]. cbn [data]. intros i.
    rewrite In_populateUsers, (friendsOf_found _ _ F). reflexivity.
  - intros id r Fr <- [b Fb] s1 s2.
    set (A := FriendRequest.sender r) in *.
    set (B := FriendRequest.receiver r) in *.
    assert (FB : In B (friendsOf s1 A)).
    { unfold s1, A, B. rewrite (@friendsOf_accept s id r _ Fr). fold A B.
      rewrite F, Nat.eqb_refl.
      destruct (B =? A); [apply In_addToSet; right|];
        apply In_addToSet; now left. }
    destruct (find (hasId UserM A) (users s1)) as [a1|] eqn:Fa1.
    2:{ unfold friendsOf in FB. rewrite Fa1 in FB. destruct FB. }
    assert (EB : exists b1, find (hasId UserM B) (users s1) = Some b1).
    { unfold s1. rewrite (acceptFriendRequest_found _ _ Fr). cbn [fst users].
      fold A B.
      destruct (Nat.eqb_spec B A) as [E|N].
      - rewrite E. rewrite (find_updateOne_same UserM _ (set_friends_id _)).
        rewrite (find_updateOne_same UserM _ (set_friends_id _)), F.
        eexists. reflexivity.
      - rewrite (find_updateOne_same UserM _ (set_friends_id _)).
        rewrite (find_updateOne_other UserM _ (set_friends_id _))
          by congruence.
        rewrite Fb. eexists. reflexivity. }
    split.
    + eexists. rewrite (Run _ _ _ Fa1). cbn [snd data].
      split; [reflexivity|]. apply In_populateUsers.
      rewrite (friendsOf_found _ _ Fa1) in FB. now split.
    + intros body E I.
      assert (NB : ~ In B (friendsOf s2 A)).
      { unfold s2. rewrite (@friendsOf_unfriend s1 A B a1 B A Fa1). tauto. }
      apply NB. unfold friendsOf.
      destruct (find (hasId UserM A) (users s2)) as [a2|] eqn:Fa2.
      * rewrite (Run _ _ _ Fa2) in E. cbn [snd] in E. inversion E; subst body.
        cbn [data] in I. apply In_populateUsers in I. tauto.
      * exfalso. revert E. unfold getFriends. run_handler. rewrite Fa2.
        discriminate.
Qed.

Lemma getFriends_lists_friends_witness :
  exists body,
    getFriends 1 withLikes = (withLikes, Json 200 body) /\
    map PublicUser._id (data body) = [2].
Proof.
  destruct (proj1 (@getFriends_lists_friends withLikes 1 (newUser 1 "alice" [2])
                     eq_refl)) as [body [E _]].
  exists body. split; [exact E|].
  vm_compute in E. inversion E. reflexivity.
Defined.

(** ** Stored text satisfies the schema *)

#[export] Instance users_wellFormed : Collection wellFormed UserM (fun _ => True).
Proof.
  split.
  - intros s _. apply Forall_forall. trivial.
  - intros s l W _. exact W.
Qed.

#[export] Instance posts_wellFormed : Collection wellFormed PostM validPost.
Proof.
  split.
  - intros s W. apply W.
  - intros s l [_ C] H. now split.
Qed.

#[export] Instance comments_wellFormed :
  Collection wellFormed CommentM validComment.
Proof.
  split.
  - intros s W. apply W.
  - intros s l [Q _] H. now split.
Qed.

#[export] Instance friendrequests_wellFormed :
  Collection wellFormed FriendRequestM (fun _ => True).
Proof.
  split.
  - intros s _. apply Forall_forall. trivial.
  - intros s l W _. exact W.
Qed.

Lemma validPost_set_likedBy g p :
  validPost p -> validPost (Post.set_likedBy g p).
Proof. intros V. exact V. Qed.

Lemma validPost_set_comments g p :
  validPost p -> validPost (Post.set_comments g p).
Proof. intros V. exact V. Qed.

Lemma validComment_set_likedBy g c :
  validComment c -> validComment (Comment.set_likedBy g c).
Proof. intros V. exact V. Qed.

Lemma validPost_created body newId userId now :
  failingPaths true [("content", body_content body, 3, 2000);
                     ("title", body_title body, 3, 120)] = [] ->
  validPost
    (Post.mk newId
       (trim (match body_title body with Some s => s | None => [] end))
       (trim (match body_content body with Some s => s | None => [] end))
       userId [] [] now).
Proof.
  unfold validPost, invalidPaths, postSchema, failingPaths. simpl.
  destruct (body_content body) as [c|]; [|discriminate].
  destruct (lengthBetween 3 2000 (trim c)); [|discriminate].
  destruct (body_title body) as [t|]; [|discriminate].
  destruct (lengthBetween 3 120 (trim t)); [|discriminate].
  reflexivity.
Qed.

Lemma validPost_applyPostBody body p :
  failingPaths false [("content", body_content body, 3, 2000);
                      ("title", body_title body, 3, 120)] = [] ->
  validPost p -> validPost (applyPostBody body p).
Proof.
  unfold validPost, invalidPaths, postSchema, failingPaths, applyPostBody.
  destruct (body_content body) as [c|]; destruct (body_title body) as [t|];
    simpl; intros V W;
    repeat match goal with
           | H : context [lengthBetween ?lo ?hi ?v] |- _ =>
               destruct (lengthBetween lo hi v); try discriminate
           end; reflexivity.
Qed.

Lemma validComment_created content newId userId id now :
  failingPaths true [("content", content, 3, 2000)] = [] ->
  validComment
    (Comment.mk newId
       (trim (match content with Some s => s | None => [] end))
       userId id [] now).
Proof.
  unfold validComment, invalidPaths, commentSchema, failingPaths. simpl.
  destruct content as [c|]; [|discriminate].
  destruct (lengthBetween 3 2000 (trim c)); [|discriminate].
  reflexivity.
Qed.

Lemma validComment_applyCommentBody content c :
  failingPaths false [("content", content, 3, 2000)] = [] ->
  validComment c -> validComment (applyCommentBody content c).
Proof.
  unfold validComment, invalidPaths, commentSchema, failingPaths,
    applyCommentBody.
  destruct content as [t|]; simpl; intros V W;
    repeat match goal with
           | H : context [lengthBetween ?lo ?hi ?v] |- _ =>
               destruct (lengthBetween lo hi v); try discriminate
           end; reflexivity.
Qed.

Create HintDb schema.
#[export] Hint Resolve validPost_set_likedBy validPost_set_comments
  validComment_set_likedBy validPost_created validPost_applyPostBody
  validComment_created validComment_applyCommentBody : schema.


















